(** * Verification of the gfxRenderEngine scene and render-system core

    A shallow embedding of

    - [TransformComponent] (engine/scene/components.cpp),
    - [VK_LightSystem] (engine/platform/Vulkan/systems/VKlightSys.cpp),
    - the geometry and shadow render systems (VKpbrNoMapSys.cpp,
      VKshadowRenderSys.cpp),
    - [Engine::Start], [Engine::OnUpdate], [Engine::OnEvent],
      [Engine::RunScripts] (engine/core.cpp) and [engine()] with its main
      loop (engine/engine.cpp),
    - device selection and the resource queries of [VK_Device]
      (engine/platform/Vulkan/VKdevice.cpp),
    - [MainScene::StartScripts] and [MainScene::ApplyDebugSettings]
      (application/lucre/scenes/mainScene.cpp).

    C++ [float] is IEEE binary32 and is modelled by the [spec_float] of the
  standard library at precision 24; the GLM matrix routines, which live in
  a third-party library, are an interface ([GlmOps]). *)

From Stdlib Require Import ZArith NArith List Bool Lia String.
From Stdlib Require Import Sorted Permutation.
From Stdlib Require Import Ascii DecimalString DecimalN.
From Stdlib Require Import Floats.SpecFloat.
Import ListNotations.

(* ===================================================================== *)
(** * glm: vectors of binary32 floats and the matrix interface            *)
(* ===================================================================== *)

Module glm.

(** C++ [float]. *)
Definition float : Type := spec_float.

Definition prec : Z := 24.
Definition emax : Z := 128.

Definition fadd : float -> float -> float := SFadd prec emax.
Definition fsub : float -> float -> float := SFsub prec emax.
Definition fmul : float -> float -> float := SFmul prec emax.
Definition flt : float -> float -> bool := SFltb.

(** [float] literals that are small integers: [of_Z 3] is [3.0f]. *)
Definition of_Z (n : Z) : float := binary_normalize prec emax n 0 false.

Record vec3 : Type := Vec3 { x : float; y : float; z : float }.

(** [glm::vec3(s)]: all three components equal to [s]. *)
Definition vec3_splat (s : float) : vec3 := Vec3 s s s.

(** [a + b] and [a - b] on [glm::vec3] are componentwise. *)
Definition vec3_add (a b : vec3) : vec3 :=
  Vec3 (fadd (x a) (x b)) (fadd (y a) (y b)) (fadd (z a) (z b)).
Definition vec3_sub (a b : vec3) : vec3 :=
  Vec3 (fsub (x a) (x b)) (fsub (y a) (y b)) (fsub (z a) (z b)).

(** [glm::dot] on [vec3]: the componentwise products summed left to
    right. *)
Definition dot (a b : vec3) : float :=
  fadd (fadd (fmul (x a) (x b)) (fmul (y a) (y b))) (fmul (z a) (z b)).

Record vec4 : Type := Vec4 { x4 : float; y4 : float; z4 : float; w4 : float }.

(** [glm::vec4(v, w)]. *)
Definition vec4_of (v : vec3) (w : float) : vec4 := Vec4 (x v) (y v) (z v) w.

End glm.

Import glm.

(** The matrix and quaternion routines of GLM used by [TransformComponent].
  Their bodies are not part of the engine; the engine code is verified
  against this signature. *)
Class GlmOps : Type := {
  mat4 : Type;
  mat3 : Type;
  quat : Type;
  (** [glm::mat4(1.0f)] *)
  mat4_identity : mat4;
  (** [glm::scale(m, v)] *)
  glm_scale : mat4 -> vec3 -> mat4;
  (** [glm::translate(m, v)] *)
  glm_translate : mat4 -> vec3 -> mat4;
  (** [glm::quat(eulerAngles)] *)
  quat_of_euler : vec3 -> quat;
  (** [glm::toMat4(q)] *)
  toMat4 : quat -> mat4;
  (** [glm::eulerAngles(q)] *)
  eulerAngles : quat -> vec3;
  (** [a * b] on [glm::mat4] *)
  mat4_mul : mat4 -> mat4 -> mat4;
  (** [glm::mat3(m)]: the upper-left 3x3 block *)
  mat3_of_mat4 : mat4 -> mat3;
  (** [glm::inverse] on [glm::mat3] *)
  mat3_inverse : mat3 -> mat3;
  (** [glm::transpose] on [glm::mat3] *)
  mat3_transpose : mat3 -> mat3;
  (** [glm::decompose(m, scale, rotation, translation, skew, perspective)],
      restricted to the three outputs the engine keeps *)
  decompose : mat4 -> vec3 * quat * vec3
}.

(* ===================================================================== *)
(** * TransformComponent (engine/scene/components.cpp)                    *)
(* ===================================================================== *)

Section Transform.

Context {G : GlmOps}.

Record TransformComponent : Type := mkTransform {
  m_Scale : vec3;
  m_Rotation : vec3;
  m_Translation : vec3;
  m_Mat4 : mat4;
  m_NormalMatrix : mat3;
  m_Dirty : bool
}.

(** [TransformComponent::TransformComponent()].  The two matrices are not
    mentioned in the initialiser list: [uninit4] and [uninit3] stand for
    whatever the members hold before the first recalculation. *)
Definition TransformComponent_default (uninit4 : mat4) (uninit3 : mat3)
  : TransformComponent :=
  {| m_Scale := vec3_splat (of_Z 1);
     m_Rotation := vec3_splat (of_Z 0);
     m_Translation := vec3_splat (of_Z 0);
     m_Mat4 := uninit4;
     m_NormalMatrix := uninit3;
     m_Dirty := true |}.

(** [TransformComponent::TransformComponent(const glm::mat4& transform)].
    [m_NormalMatrix] is not in the initialiser list and is not assigned
    in the body. *)
Definition TransformComponent_of_mat4 (transform : mat4) (uninit3 : mat3)
  : TransformComponent :=
  let '(scale, rotation, translation) := decompose transform in
  {| m_Scale := scale;
     m_Rotation := eulerAngles rotation;
     m_Translation := translation;
     m_Mat4 := transform;
     m_NormalMatrix := uninit3;
     m_Dirty := false |}.

Definition with_Scale (v : vec3) (t : TransformComponent) :=
  {| m_Scale := v; m_Rotation := m_Rotation t;
     m_Translation := m_Translation t; m_Mat4 := m_Mat4 t;
     m_NormalMatrix := m_NormalMatrix t; m_Dirty := m_Dirty t |}.
Definition with_Rotation (v : vec3) (t : TransformComponent) :=
  {| m_Scale := m_Scale t; m_Rotation := v;
     m_Translation := m_Translation t; m_Mat4 := m_Mat4 t;
     m_NormalMatrix := m_NormalMatrix t; m_Dirty := m_Dirty t |}.
Definition with_Translation (v : vec3) (t : TransformComponent) :=
  {| m_Scale := m_Scale t; m_Rotation := m_Rotation t;
     m_Translation := v; m_Mat4 := m_Mat4 t;
     m_NormalMatrix := m_NormalMatrix t; m_Dirty := m_Dirty t |}.
Definition with_Dirty (d : bool) (t : TransformComponent) :=
  {| m_Scale := m_Scale t; m_Rotation := m_Rotation t;
     m_Translation := m_Translation t; m_Mat4 := m_Mat4 t;
     m_NormalMatrix := m_NormalMatrix t; m_Dirty := d |}.

Definition set_x (s : float) (v : vec3) : vec3 := Vec3 s (y v) (z v).
Definition set_y (s : float) (v : vec3) : vec3 := Vec3 (x v) s (z v).
Definition set_z (s : float) (v : vec3) : vec3 := Vec3 (x v) (y v) s.

(** ** Scale *)

Definition SetScale (scale : vec3) (t : TransformComponent) :=
  with_Dirty true (with_Scale scale t).

Definition SetScale_float (scale : float) (t : TransformComponent) :=
  with_Dirty true (with_Scale (vec3_splat scale) t).

Definition SetScaleX (scaleX : float) (t : TransformComponent) :=
  with_Dirty true (with_Scale (set_x scaleX (m_Scale t)) t).
Definition SetScaleY (scaleY : float) (t : TransformComponent) :=
  with_Dirty true (with_Scale (set_y scaleY (m_Scale t)) t).
Definition SetScaleZ (scaleZ : float) (t : TransformComponent) :=
  with_Dirty true (with_Scale (set_z scaleZ (m_Scale t)) t).

Definition AddScale (deltaScale : vec3) (t : TransformComponent) :=
  SetScale (vec3_add (m_Scale t) deltaScale) t.

(** ** Rotation *)

Definition SetRotation (rotation : vec3) (t : TransformComponent) :=
  with_Dirty true (with_Rotation rotation t).

Definition SetRotation_quat (quaternion : quat) (t : TransformComponent) :=
  let convert := eulerAngles quaternion in
  with_Dirty true
    (SetRotation (Vec3 (x convert) (y convert) (z convert)) t).

Definition SetRotationX (rotationX : float) (t : TransformComponent) :=
  with_Dirty true (with_Rotation (set_x rotationX (m_Rotation t)) t).
Definition SetRotationY (rotationY : float) (t : TransformComponent) :=
  with_Dirty true (with_Rotation (set_y rotationY (m_Rotation t)) t).
Definition SetRotationZ (rotationZ : float) (t : TransformComponent) :=
  with_Dirty true (with_Rotation (set_z rotationZ (m_Rotation t)) t).

Definition AddRotation (deltaRotation : vec3) (t : TransformComponent) :=
  SetRotation (vec3_add (m_Rotation t) deltaRotation) t.

(** ** Translation *)

Definition SetTranslation (translation : vec3) (t : TransformComponent) :=
  with_Dirty true (with_Translation translation t).

Definition SetTranslationX (translationX : float) (t : TransformComponent) :=
  with_Dirty true (with_Translation (set_x translationX (m_Translation t)) t).
Definition SetTranslationY (translationY : float) (t : TransformComponent) :=
  with_Dirty true (with_Translation (set_y translationY (m_Translation t)) t).
Definition SetTranslationZ (translationZ : float) (t : TransformComponent) :=
  with_Dirty true (with_Translation (set_z translationZ (m_Translation t)) t).

Definition AddTranslation (deltaTranslation : vec3) (t : TransformComponent) :=
  SetTranslation (vec3_add (m_Translation t) deltaTranslation) t.

(** [GetTranslation] is a plain read. *)
Definition GetTranslation (t : TransformComponent) : vec3 := m_Translation t.

(** ** Matrices *)

Definition RecalculateMatrices (t : TransformComponent) : TransformComponent :=
  let scale := glm_scale mat4_identity (m_Scale t) in
  let rotation := toMat4 (quat_of_euler (m_Rotation t)) in
  let translation :=
    glm_translate mat4_identity
      (Vec3 (x (m_Translation t)) (y (m_Translation t)) (z (m_Translation t))) in
  let new_Mat4 := mat4_mul (mat4_mul translation rotation) scale in
  {| m_Scale := m_Scale t; m_Rotation := m_Rotation t;
     m_Translation := m_Translation t;
     m_Mat4 := new_Mat4;
     m_NormalMatrix := mat3_transpose (mat3_inverse (mat3_of_mat4 new_Mat4));
     m_Dirty := m_Dirty t |}.

(** The accessors return a reference into the object and may update it:
    the result is the matrix read through the reference together with the
    component after the call. *)
Definition GetMat4 (t : TransformComponent) : mat4 * TransformComponent :=
  let t' := if m_Dirty t then RecalculateMatrices (with_Dirty false t) else t in
  (m_Mat4 t', t').

Definition GetNormalMatrix (t : TransformComponent) : mat3 * TransformComponent :=
  let t' := if m_Dirty t then RecalculateMatrices (with_Dirty false t) else t in
  (m_NormalMatrix t', t').

(** ** Mutator calls as data *)

Inductive mutator : Type :=
| CallSetScale (scale : vec3)
| CallSetScale_float (scale : float)
| CallSetScaleX (s : float)
| CallSetScaleY (s : float)
| CallSetScaleZ (s : float)
| CallAddScale (delta : vec3)
| CallSetRotation (rotation : vec3)
| CallSetRotation_quat (q : quat)
| CallSetRotationX (r : float)
| CallSetRotationY (r : float)
| CallSetRotationZ (r : float)
| CallAddRotation (delta : vec3)
| CallSetTranslation (translation : vec3)
| CallSetTranslationX (s : float)
| CallSetTranslationY (s : float)
| CallSetTranslationZ (s : float)
| CallAddTranslation (delta : vec3).

Definition call (m : mutator) : TransformComponent -> TransformComponent :=
  match m with
  | CallSetScale v => SetScale v
  | CallSetScale_float s => SetScale_float s
  | CallSetScaleX s => SetScaleX s
  | CallSetScaleY s => SetScaleY s
  | CallSetScaleZ s => SetScaleZ s
  | CallAddScale d => AddScale d
  | CallSetRotation v => SetRotation v
  | CallSetRotation_quat q => SetRotation_quat q
  | CallSetRotationX r => SetRotationX r
  | CallSetRotationY r => SetRotationY r
  | CallSetRotationZ r => SetRotationZ r
  | CallAddRotation d => AddRotation d
  | CallSetTranslation v => SetTranslation v
  | CallSetTranslationX s => SetTranslationX s
  | CallSetTranslationY s => SetTranslationY s
  | CallSetTranslationZ s => SetTranslationZ s
  | CallAddTranslation d => AddTranslation d
  end.

(** The calls of [ms] made one after the other, first element first. *)
Definition calls (ms : list mutator) (t : TransformComponent) : TransformComponent :=
  fold_left (fun acc m => call m acc) ms t.

(** ** What the specification calls the recomputed matrices *)

Definition Translation (v : vec3) : mat4 := glm_translate mat4_identity v.
Definition Rotation (euler : vec3) : mat4 := toMat4 (quat_of_euler euler).
Definition Scale (v : vec3) : mat4 := glm_scale mat4_identity v.

(** [model = Translation x Rotation x Scale]; the C++ expression
    [translation * rotation * scale] associates to the left. *)
Definition model_matrix (translation rotation scale : vec3) : mat4 :=
  mat4_mul (mat4_mul (Translation translation) (Rotation rotation)) (Scale scale).

(** transpose(inverse(upper-left 3x3 of the model matrix)) *)
Definition normal_matrix_of (model : mat4) : mat3 :=
  mat3_transpose (mat3_inverse (mat3_of_mat4 model)).

Definition model_of (t : TransformComponent) : mat4 :=
  model_matrix (m_Translation t) (m_Rotation t) (m_Scale t).

(** The cached matrices agree with the current scale, rotation and
    translation. *)
Definition cache_valid (t : TransformComponent) : Prop :=
  m_Mat4 t = model_of t /\ m_NormalMatrix t = normal_matrix_of (model_of t).

End Transform.

Arguments TransformComponent {G}.

(* ===================================================================== *)
(** * Runs that can stop: assertions and out-of-range writes              *)
(* ===================================================================== *)

(** [entt::entity]: an opaque 32-bit handle. *)
Definition entity : Type := N.

(** How a run of engine code over a state ends. *)
Inductive outcome (A : Type) : Type :=
| Completed (a : A)
| AssertionFailed
| OutOfBounds
| InvalidEntity.
Arguments Completed {A} a.
Arguments AssertionFailed {A}.
Arguments OutOfBounds {A}.
Arguments InvalidEntity {A}.

(** Code over a state [S]: the state reached is kept also when the run
    stops early, so that what was written before the stop stays visible. *)
Definition run (S A : Type) : Type := S -> outcome A * S.

Definition ret {S A : Type} (a : A) : run S A := fun s => (Completed a, s).

Definition bind {S A B : Type} (c : run S A) (k : A -> run S B) : run S B :=
  fun s =>
    match c s with
    | (Completed a, s') => k a s'
    | (AssertionFailed, s') => (AssertionFailed, s')
    | (OutOfBounds, s') => (OutOfBounds, s')
    | (InvalidEntity, s') => (InvalidEntity, s')
    end.

Definition stop {S A : Type} (o : outcome A) : run S A := fun s => (o, s).
Definition get_state {S : Type} : run S S := fun s => (Completed s, s).
Definition modify {S : Type} (f : S -> S) : run S unit := fun s => (Completed tt, f s).

Declare Scope run_scope.
Delimit Scope run_scope with run.
Notation "c1 ;; c2" := (bind c1 (fun _ => c2))
  (at level 61, right associativity) : run_scope.
Notation "x <- c1 ;; c2" := (bind c1 (fun x => c2))
  (at level 61, c1 at next level, right associativity) : run_scope.

(** The two build configurations of the [ASSERT] macro. *)
Inductive assert_mode : Type := AssertFatal | AssertOff.

(** Modelled from the spec: the [ASSERT] macro, whose definition is outside
    the available sources.  The specification speaks of "assertion / fatal
    in source": in [AssertFatal] a failed condition ends the run at that
    statement.  [AssertOff] is the configuration in which the macro expands
    to nothing. *)
Definition ASSERT {S : Type} (mode : assert_mode) (cond : bool) : run S unit :=
  if cond then ret tt
  else match mode with
       | AssertFatal => stop AssertionFailed
       | AssertOff => ret tt
       end.

(** [a[i].field = v] on a C array held as a list: the element at [i]
    updated in place; [None] when [i] is past the end. *)
Fixpoint array_modify {A : Type} (i : nat) (f : A -> A) (a : list A) : option (list A) :=
  match a, i with
  | [], _ => None
  | a0 :: rest, O => Some (f a0 :: rest)
  | a0 :: rest, S i' =>
      match array_modify i' f rest with
      | Some rest' => Some (a0 :: rest')
      | None => None
      end
  end.

(* ===================================================================== *)
(** * std::map<float, entt::entity>                                       *)
(* ===================================================================== *)

(** The container is held as its in-order sequence (ascending keys).  Two
    keys are equivalent when neither is less than the other; [insert] leaves
    the map unchanged when an equivalent key is present, as
    [std::map::insert] does.  The container requires a strict weak order,
    which [<] on [float] is as long as no key is a NaN. *)
Definition float_map : Type := list (float * entity).

Fixpoint map_insert (k : float) (v : entity) (m : float_map) : float_map :=
  match m with
  | [] => [(k, v)]
  | (k', v') :: rest =>
      if flt k k' then (k, v) :: (k', v') :: rest
      else if flt k' k then (k', v') :: map_insert k v rest
      else (k', v') :: rest
  end.

(** Iteration from [rbegin()] to [rend()]. *)
Definition reverse_iteration (m : float_map) : list (float * entity) := rev m.

(* ===================================================================== *)
(** * Light components and the global uniform buffer                      *)
(* ===================================================================== *)

Module PointLightComponent.
Record t : Type := mk {
  m_LightIntensity : float;
  m_Radius : float;
  m_Color : vec3
}.
End PointLightComponent.

Module DirectionalLightComponent.
Record t : Type := mk {
  m_LightIntensity : float;
  m_Direction : vec3;
  m_Color : vec3;
  m_RenderPass : Z
}.
End DirectionalLightComponent.

(** An element of [GlobalUniformBuffer::m_PointLights]. *)
Module PointLight.
Record t : Type := mk {
  m_Position : vec4;
  m_Color : vec4
}.
Definition set_Position (v : vec4) (p : t) : t := mk v (m_Color p).
Definition set_Color (v : vec4) (p : t) : t := mk (m_Position p) v.
End PointLight.

(** [GlobalUniformBuffer::m_DirectionalLight]. *)
Module DirectionalLight.
Record t : Type := mk {
  m_Direction : vec4;
  m_Color : vec4
}.
Definition set_Direction (v : vec4) (d : t) : t := mk v (m_Color d).
Definition set_Color (v : vec4) (d : t) : t := mk (m_Direction d) v.
End DirectionalLight.

(** The fields of [GlobalUniformBuffer] that [VK_LightSystem::Update]
    touches; [m_Rest] stands for all remaining fields (matrices, ambient
    light).  The struct is declared outside the available sources: the
    array [m_PointLights] is taken to have [MAX_LIGHTS] elements, which is
    the well-formedness condition [ubo_wf] below. *)
Record GlobalUniformBuffer (Rest : Type) : Type := mkUbo {
  m_PointLights : list PointLight.t;
  m_DirectionalLight : DirectionalLight.t;
  m_NumberOfActivePointLights : Z;
  m_NumberOfActiveDirectionalLights : Z;
  m_Rest : Rest
}.
Arguments mkUbo {Rest}.
Arguments m_PointLights {Rest}.
Arguments m_DirectionalLight {Rest}.
Arguments m_NumberOfActivePointLights {Rest}.
Arguments m_NumberOfActiveDirectionalLights {Rest}.
Arguments m_Rest {Rest}.

(* ===================================================================== *)
(** * The command buffer and registry views                               *)
(* ===================================================================== *)

(** What a render system records into the command buffer.  [Model_Bind],
    [Model_DrawNoMap] and [Model_DrawShadow] are the calls into [VK_Model]
    made for the mesh of the named entity. *)
Inductive command {G : GlmOps} : Type :=
| vkCmdBindDescriptorSets
| Pipeline_Bind (pipeline : N)
| vkCmdPushConstants_PointLight (m_Position m_Color : vec4) (m_Radius : float)
| vkCmdPushConstants_Shadow (m_ModelMatrix : mat4) (m_NormalMatrix : mat3)
| vkCmdDraw (vertexCount instanceCount firstVertex firstInstance : N)
| Model_Bind (e : entity)
| Model_DrawNoMap (e : entity)
| Model_DrawShadow (e : entity).

(** [view.get<...>(entity)]: the components of [e] in the view. *)
Fixpoint view_get {C : Type} (view : list (entity * C)) (e : entity) : option C :=
  match view with
  | [] => None
  | (e', c) :: rest => if N.eqb e' e then Some c else view_get rest e
  end.

(* ===================================================================== *)
(** * Logging and pipeline construction shared by the render systems      *)
(* ===================================================================== *)

Module Log.

Inductive level : Type := trace | debug | info | warn | err | critical.

(** A record written to the core logger ([Log::GetLogger()], log.h). *)
Definition record : Type := (level * string)%type.

End Log.

(** [VkResult]; [VK_SUCCESS] is 0. *)
Definition VkResult : Type := Z.
Definition VK_SUCCESS : VkResult := 0%Z.

(** [VkPipelineLayout]: a handle, [nullptr] being 0. *)
Definition VkPipelineLayout : Type := N.
Definition nullptr : VkPipelineLayout := 0%N.

Inductive SubPass : Type :=
| SUBPASS_GEOMETRY
| SUBPASS_TRANSPARENCY
| SUBPASS_SHADOW.

(** What [std::make_unique<VK_Pipeline>(device, vert, frag, config)] is
    called with, as far as the systems set it. *)
Record VK_Pipeline : Type := mkPipeline {
  vertFilepath : string;
  fragFilepath : string;
  pipelineLayout : VkPipelineLayout;
  subpass : SubPass
}.

(** A render system under construction, together with the core logger's
    output so far. *)
Record system : Type := mkSystem {
  m_PipelineLayout : VkPipelineLayout;
  m_Pipelines : list VK_Pipeline;
  core_log : list Log.record
}.

(** Modelled from the spec: the macro [LOG_CORE_CRITICAL], defined outside
    the available sources; it logs "at highest severity".  That control
    returns to the statement after the macro is how every use in the
    sources treats it: [Engine::Start] returns [false] after it,
    [VK_Device::FindSupportedFormat] returns [VK_FORMAT_UNDEFINED] after
    it, and [Texture::Create] breaks out of its switch after it. *)
Definition LOG_CORE_CRITICAL (msg : string) : run system unit :=
  modify (fun s => mkSystem (m_PipelineLayout s) (m_Pipelines s)
                     (core_log s ++ [(Log.critical, msg)])).

(** What the driver does on [vkCreatePipelineLayout]: the result code and
    the value found in the output handle afterwards (on failure the
    handle is whatever the driver or the uninitialised member left
    there). *)
Record driver_reply : Type := mkReply {
  result : VkResult;
  layout_after : VkPipelineLayout
}.

Definition vkCreatePipelineLayout (reply : driver_reply) : run system VkResult :=
  fun s => (Completed (result reply),
            mkSystem (layout_after reply) (m_Pipelines s) (core_log s)).

Local Open Scope run_scope.

(** [CreatePipelineLayout], identical in the three systems but for the
    push-constant size and the descriptor set layouts passed in. *)
Definition CreatePipelineLayout (reply : driver_reply) : run system unit :=
  r <- vkCreatePipelineLayout reply ;;
  if negb (Z.eqb r VK_SUCCESS)
  then LOG_CORE_CRITICAL "failed to create pipeline layout!"
  else ret tt.

(** [CreatePipeline]: the assertion on the layout, then the pipeline
    object. *)
Definition CreatePipeline (mode : assert_mode) (vert frag : string) (sp : SubPass)
  : run system unit :=
  s <- get_state ;;
  ASSERT mode (negb (N.eqb (m_PipelineLayout s) nullptr)) ;;
  modify (fun s => mkSystem (m_PipelineLayout s)
                     (m_Pipelines s ++ [mkPipeline vert frag (m_PipelineLayout s) sp])
                     (core_log s)).

(** A system before its constructor body runs: [uninit] is what the
    member [m_PipelineLayout] holds, [log] what has been logged so far. *)
Definition fresh_system (uninit : VkPipelineLayout) (log : list Log.record) : system :=
  mkSystem uninit [] log.

Local Close Scope run_scope.

(* ===================================================================== *)
(** * MeshComponent and ScriptComponent (components.cpp)                  *)
(* ===================================================================== *)

Module MeshComponent.
Record t : Type := mk {
  m_Name : string;
  m_Model : N;
  m_Enabled : bool
}.
Definition set_Enabled (b : bool) (m : t) : t := mk (m_Name m) (m_Model m) b.
End MeshComponent.

Module ScriptComponent.
(** [m_Script] is a shared pointer: [None] is the null pointer. *)
Record t : Type := mk {
  m_Filepath : string;
  m_Script : option N
}.
End ScriptComponent.

(* ===================================================================== *)
(** * VK_LightSystem (VKlightSys.cpp)                                     *)
(* ===================================================================== *)

Module VK_LightSystem.
Section WithLimits.

Context {G : GlmOps}.

(** The constant [MAX_LIGHTS] and the untouched part of the uniform buffer
    are declared outside the available sources. *)
Variable MAX_LIGHTS : Z.
Variable Rest : Type.

Local Open Scope run_scope.
Local Open Scope Z_scope.

(** The uniform buffer handed to [Update], and the member
    [m_SortedLight]. *)
Record state : Type := mkState {
  ubo : GlobalUniformBuffer Rest;
  m_SortedLight : float_map
}.

Definition ubo_wf (u : GlobalUniformBuffer Rest) : Prop :=
  Z.of_nat (List.length (m_PointLights u)) = MAX_LIGHTS.

Definition set_SortedLight (f : float_map -> float_map) (s : state) : state :=
  mkState (ubo s) (f (m_SortedLight s)).

Definition set_ubo (f : GlobalUniformBuffer Rest -> GlobalUniformBuffer Rest)
  (s : state) : state :=
  mkState (f (ubo s)) (m_SortedLight s).

Definition set_PointLights (a : list PointLight.t) (u : GlobalUniformBuffer Rest) :=
  mkUbo a (m_DirectionalLight u) (m_NumberOfActivePointLights u)
    (m_NumberOfActiveDirectionalLights u) (m_Rest u).

Definition set_DirectionalLight (f : DirectionalLight.t -> DirectionalLight.t)
  (u : GlobalUniformBuffer Rest) :=
  mkUbo (m_PointLights u) (f (m_DirectionalLight u))
    (m_NumberOfActivePointLights u) (m_NumberOfActiveDirectionalLights u)
    (m_Rest u).

Definition set_NumberOfActivePointLights (n : Z) (u : GlobalUniformBuffer Rest) :=
  mkUbo (m_PointLights u) (m_DirectionalLight u) n
    (m_NumberOfActiveDirectionalLights u) (m_Rest u).

Definition set_NumberOfActiveDirectionalLights (n : Z) (u : GlobalUniformBuffer Rest) :=
  mkUbo (m_PointLights u) (m_DirectionalLight u)
    (m_NumberOfActivePointLights u) n (m_Rest u).

(** [ubo.m_PointLights[lightIndex].field = ...].  The code does not check
    the index, and C++ gives a write outside the array no meaning: the run
    is ended at the first such write with [OutOfBounds] and the state
    before it.  [OutOfBounds] says that this write is made; what the
    program does from there on (the code itself goes on to the statements
    that follow) is not described. *)
Definition write_PointLight (lightIndex : Z) (f : PointLight.t -> PointLight.t)
  : run state unit :=
  fun s =>
    if lightIndex <? 0 then (OutOfBounds, s)
    else match array_modify (Z.to_nat lightIndex) f (m_PointLights (ubo s)) with
         | Some a => (Completed tt, set_ubo (set_PointLights a) s)
         | None => (OutOfBounds, s)
         end.

(** The entities of [registry.view<PointLightComponent, TransformComponent>()]
    in iteration order, each with its two components. *)
Definition point_light_view : Type :=
  list (entity * (TransformComponent * PointLightComponent.t)).

(** [registry.view<DirectionalLightComponent>()]. *)
Definition directional_light_view : Type :=
  list (entity * DirectionalLightComponent.t).

(** Squared distance of a light from the camera, lines 153-156. *)
Definition distanceToCam (cameraPosition : vec3) (transform : TransformComponent)
  : float :=
  let lightPosition := GetTranslation transform in
  let distanceVec := vec3_sub cameraPosition lightPosition in
  dot distanceVec distanceVec.

(** First loop of the point-light block, lines 146-161. *)
Fixpoint collect_loop (mode : assert_mode) (cameraPosition : vec3)
  (view : point_light_view) (lightIndex : Z) : run state Z :=
  match view with
  | [] => ret lightIndex
  | (e, (transform, pointLight)) :: rest =>
      ASSERT mode (lightIndex <? MAX_LIGHTS) ;;
      modify (set_SortedLight
                (map_insert (distanceToCam cameraPosition transform) e)) ;;
      collect_loop mode cameraPosition rest (lightIndex + 1)
  end.

(** Second loop of the point-light block, lines 163-176, over the elements
    met from [rbegin()] to [rend()]. *)
Fixpoint copy_loop (view : point_light_view) (it : list (float * entity))
  (lightIndex : Z) : run state Z :=
  match it with
  | [] => ret lightIndex
  | (_, e) :: rest =>
      match view_get view e with
      | None => stop InvalidEntity
      | Some (transform, pointLight) =>
          write_PointLight lightIndex
            (PointLight.set_Position
               (vec4_of (GetTranslation transform) (of_Z 0))) ;;
          write_PointLight lightIndex
            (PointLight.set_Color
               (vec4_of (PointLightComponent.m_Color pointLight)
                        (PointLightComponent.m_LightIntensity pointLight))) ;;
          copy_loop view rest (lightIndex + 1)
      end
  end.

(** The first block of [Update], lines 142-179. *)
Definition UpdatePointLights (mode : assert_mode) (cameraPosition : vec3)
  (view : point_light_view) : run state unit :=
  modify (set_SortedLight (fun _ => [])) ;;
  _ <- collect_loop mode cameraPosition view 0 ;;
  s <- get_state ;;
  lightIndex <- copy_loop view (reverse_iteration (m_SortedLight s)) 0 ;;
  modify (set_ubo (set_NumberOfActivePointLights lightIndex)).

(** The loop of the second block, lines 183-194. *)
Fixpoint directional_loop (mode : assert_mode) (view : directional_light_view)
  (lightIndex : Z) : run state Z :=
  match view with
  | [] => ret lightIndex
  | (e, directionalLight) :: rest =>
      ASSERT mode (lightIndex <? MAX_LIGHTS) ;;
      modify (set_ubo (set_DirectionalLight
                (DirectionalLight.set_Direction
                   (vec4_of (DirectionalLightComponent.m_Direction directionalLight)
                            (of_Z 0))))) ;;
      modify (set_ubo (set_DirectionalLight
                (DirectionalLight.set_Color
                   (vec4_of (DirectionalLightComponent.m_Color directionalLight)
                            (DirectionalLightComponent.m_LightIntensity directionalLight))))) ;;
      directional_loop mode rest (lightIndex + 1)
  end.

(** The second block of [Update], lines 180-197. *)
Definition UpdateDirectionalLights (mode : assert_mode)
  (view : directional_light_view) : run state unit :=
  lightIndex <- directional_loop mode view 0 ;;
  modify (set_ubo (set_NumberOfActiveDirectionalLights lightIndex)).

Definition Update (mode : assert_mode) (cameraPosition : vec3)
  (view : point_light_view) (dview : directional_light_view) : run state unit :=
  UpdatePointLights mode cameraPosition view ;;
  UpdateDirectionalLights mode dview.

(** The light pipeline, as named in [Pipeline_Bind]. *)
Definition m_Pipeline : N := 0%N.

(** The loop of [Render], lines 113-136.  [registry.get] belongs to entt,
    which is outside the sources, and requires the entity to have the
    component.  A call that breaks this requirement is given no behaviour
    here: [None] stands for it, and what is proved of [Render] is proved
    for the runs in which it does not occur. *)
Fixpoint render_loop (view : point_light_view) (it : list (float * entity))
  : option (list command) :=
  match it with
  | [] => Some []
  | (_, e) :: rest =>
      match view_get view e, render_loop view rest with
      | Some (transform, pointLight), Some cmds =>
          Some (vkCmdPushConstants_PointLight
                  (vec4_of (GetTranslation transform) (of_Z 1))
                  (vec4_of (PointLightComponent.m_Color pointLight)
                           (PointLightComponent.m_LightIntensity pointLight))
                  (PointLightComponent.m_Radius pointLight)
                :: vkCmdDraw 6 1 0 0 :: cmds)
      | _, _ => None
      end
  end.

Definition Render (view : point_light_view) (sorted : float_map)
  : option (list command) :=
  match render_loop view (reverse_iteration sorted) with
  | Some cmds => Some (vkCmdBindDescriptorSets :: Pipeline_Bind m_Pipeline :: cmds)
  | None => None
  end.

(** ** The second loop without a stop at the end of the array *)

(** A write of the second loop at an index outside [m_PointLights].  It
    goes to the memory behind the array; what lies there depends on the
    layout of [GlobalUniformBuffer], which is declared outside the
    available sources, so the write is kept as such. *)
Inductive stray_write : Type :=
| stray_Position (lightIndex : Z) (value : vec4)
| stray_Color (lightIndex : Z) (value : vec4).

(** [ubo.m_PointLights[lightIndex].field = ...] as the machine makes it:
    the element is updated when the index is inside the array, and the
    write is added to the stray writes otherwise; the array itself is not
    touched by a stray write. *)
Definition write_unchecked (lightIndex : Z) (f : PointLight.t -> PointLight.t)
  (stray : stray_write) (m : list PointLight.t * list stray_write)
  : list PointLight.t * list stray_write :=
  if lightIndex <? 0 then (fst m, snd m ++ [stray])
  else match array_modify (Z.to_nat lightIndex) f (fst m) with
       | Some a => (a, snd m)
       | None => (fst m, snd m ++ [stray])
       end.

(** Lines 163-176 with nothing checking the index: the loop goes on after
    a stray write.  The result is the array, the stray writes in the order
    they are made, and [lightIndex] when the loop is left; [None] stands
    for a [view.get] on an entity without the components. *)
Fixpoint copy_loop_unchecked (view : point_light_view) (it : list (float * entity))
  (lightIndex : Z) (m : list PointLight.t * list stray_write)
  : option (list PointLight.t * list stray_write * Z) :=
  match it with
  | [] => Some (m, lightIndex)
  | (_, e) :: rest =>
      match view_get view e with
      | None => None
      | Some (transform, pointLight) =>
          let position := vec4_of (GetTranslation transform) (of_Z 0) in
          let color := vec4_of (PointLightComponent.m_Color pointLight)
                               (PointLightComponent.m_LightIntensity pointLight) in
          let m1 := write_unchecked lightIndex (PointLight.set_Position position)
                      (stray_Position lightIndex position) m in
          let m2 := write_unchecked lightIndex (PointLight.set_Color color)
                      (stray_Color lightIndex color) m1 in
          copy_loop_unchecked view rest (lightIndex + 1) m2
      end
  end.

(** The first block of [Update], lines 142-179, with the assertion compiled
    out and the second loop taken as above: [m_SortedLight], the array and
    the stray writes afterwards, and the value stored in
    [m_NumberOfActivePointLights] by line 178. *)
Definition UpdatePointLights_unchecked (cameraPosition : vec3)
  (view : point_light_view) (s : state)
  : option (float_map * list PointLight.t * list stray_write * Z) :=
  match (modify (set_SortedLight (fun _ => [])) ;;
         collect_loop AssertOff cameraPosition view 0) s with
  | (Completed _, s1) =>
      match copy_loop_unchecked view (reverse_iteration (m_SortedLight s1)) 0
              (m_PointLights (ubo s1), []) with
      | Some (a, strays, lightIndex) => Some (m_SortedLight s1, a, strays, lightIndex)
      | None => None
      end
  | _ => None
  end.

(** The lights of the uniform buffer that the shader reads: the first
    [m_NumberOfActivePointLights] elements of the array. *)
Definition active_point_lights (u : GlobalUniformBuffer Rest) : list PointLight.t :=
  firstn (Z.to_nat (m_NumberOfActivePointLights u)) (m_PointLights u).

End WithLimits.

Arguments mkState {Rest}.
Arguments ubo {Rest}.
Arguments m_SortedLight {Rest}.
Arguments ubo_wf MAX_LIGHTS {Rest}.
Arguments set_SortedLight {Rest}.
Arguments set_ubo {Rest}.
Arguments set_PointLights {Rest}.
Arguments set_DirectionalLight {Rest}.
Arguments set_NumberOfActivePointLights {Rest}.
Arguments set_NumberOfActiveDirectionalLights {Rest}.
Arguments write_PointLight {Rest}.
Arguments collect_loop {G} MAX_LIGHTS {Rest}.
Arguments copy_loop {G Rest}.
Arguments UpdatePointLights {G} MAX_LIGHTS {Rest}.
Arguments directional_loop MAX_LIGHTS {Rest}.
Arguments UpdateDirectionalLights MAX_LIGHTS {Rest}.
Arguments Update {G} MAX_LIGHTS {Rest}.
Arguments active_point_lights {Rest}.
Arguments UpdatePointLights_unchecked {G} MAX_LIGHTS {Rest}.

(** [VK_LightSystem::VK_LightSystem], lines 42-47. *)
Definition construct (mode : assert_mode) (reply : driver_reply) : run system unit :=
  bind (CreatePipelineLayout reply) (fun _ =>
  CreatePipeline mode "bin/pointLight.vert.spv" "bin/pointLight.frag.spv"
    SUBPASS_TRANSPARENCY).

End VK_LightSystem.

(* ===================================================================== *)
(** * VK_RenderSystemPbrNoMap (VKpbrNoMapSys.cpp)                         *)
(* ===================================================================== *)

Module VK_RenderSystemPbrNoMap.
Section WithGlm.
Context {G : GlmOps}.
Local Open Scope run_scope.

(** [VK_RenderSystemPbrNoMap::VK_RenderSystemPbrNoMap], lines 31-35. *)
Definition construct (mode : assert_mode) (reply : driver_reply) : run system unit :=
  CreatePipelineLayout reply ;;
  CreatePipeline mode "bin/pbrNoMap.vert.spv" "bin/pbrNoMap.frag.spv"
    SUBPASS_GEOMETRY.

(** [registry.view<MeshComponent, TransformComponent, PbrNoMapTag>()]. *)
Definition mesh_view : Type :=
  list (entity * (MeshComponent.t * TransformComponent)).

Definition m_Pipeline : N := 1%N.

(** The loop of [RenderEntities], lines 114-124. *)
Fixpoint render_loop (view : mesh_view) : list command :=
  match view with
  | [] => []
  | (e, (mesh, transform)) :: rest =>
      if MeshComponent.m_Enabled mesh
      then Model_Bind e :: Model_DrawNoMap e :: render_loop rest
      else render_loop rest
  end.

Definition RenderEntities (view : mesh_view) : list command :=
  vkCmdBindDescriptorSets :: Pipeline_Bind m_Pipeline :: render_loop view.

End WithGlm.
End VK_RenderSystemPbrNoMap.

(* ===================================================================== *)
(** * VK_RenderSystemShadow (VKshadowRenderSys.cpp)                       *)
(* ===================================================================== *)

Module VK_RenderSystemShadow.
Section WithGlm.
Context {G : GlmOps}.
Local Open Scope run_scope.

(** [VK_RenderSystemShadow::VK_RenderSystemShadow], lines 32-42. *)
Definition construct (mode : assert_mode) (reply : driver_reply) : run system unit :=
  CreatePipelineLayout reply ;;
  CreatePipeline mode "bin/shadowShader.vert.spv" "bin/shadowShader.frag.spv"
    SUBPASS_SHADOW ;;
  CreatePipeline mode "bin/shadowShader.vert.spv" "bin/shadowShader.frag.spv"
    SUBPASS_SHADOW.

(** [registry.view<MeshComponent, TransformComponent>()]. *)
Definition mesh_view : Type :=
  list (entity * (MeshComponent.t * TransformComponent)).

Definition m_Pipeline0 : N := 2%N.
Definition m_Pipeline1 : N := 3%N.

(** The loop of [RenderEntities], lines 126-149.  The two accessors may
    recalculate the matrices of the transform, so the loop also yields the
    view as it is left behind. *)
Fixpoint render_loop (view : mesh_view) : list command * mesh_view :=
  match view with
  | [] => ([], [])
  | (e, (mesh, transform)) :: rest =>
      let '(modelMatrix, transform1) := GetMat4 transform in
      let '(normalMatrix, transform2) := GetNormalMatrix transform1 in
      let '(cmds, rest') := render_loop rest in
      let draw :=
        if MeshComponent.m_Enabled mesh
        then [Model_Bind e; Model_DrawShadow e]
        else [] in
      (vkCmdPushConstants_Shadow modelMatrix normalMatrix :: draw ++ cmds,
       (e, (mesh, transform2)) :: rest')
  end.

Definition RenderEntities (view : mesh_view)
  (directionalLight : DirectionalLightComponent.t) : list command * mesh_view :=
  let bind :=
    if Z.eqb (DirectionalLightComponent.m_RenderPass directionalLight) 0
    then Pipeline_Bind m_Pipeline0
    else Pipeline_Bind m_Pipeline1 in
  let '(cmds, view') := render_loop view in
  (vkCmdBindDescriptorSets :: bind :: cmds, view').

End WithGlm.
End VK_RenderSystemShadow.

(** The entities for which a draw call was recorded, in recording order. *)
Fixpoint drawn_entities {G : GlmOps} (cmds : list command) : list entity :=
  match cmds with
  | [] => []
  | Model_DrawNoMap e :: rest => e :: drawn_entities rest
  | Model_DrawShadow e :: rest => e :: drawn_entities rest
  | _ :: rest => drawn_entities rest
  end.

(** [mesh.m_Enabled = b] on the mesh of entity [e], every other component
    and the membership of the view left as they are. *)
Fixpoint set_mesh_enabled {T : Type} (e : entity) (b : bool)
  (view : list (entity * (MeshComponent.t * T))) : list (entity * (MeshComponent.t * T)) :=
  match view with
  | [] => []
  | (e', (mesh, t)) :: rest =>
      if N.eqb e' e
      then (e', (MeshComponent.set_Enabled b mesh, t)) :: rest
      else (e', (mesh, t)) :: set_mesh_enabled e b rest
  end.

(** The entities of a view whose mesh is enabled, in iteration order. *)
Definition enabled_entities {T : Type}
  (view : list (entity * (MeshComponent.t * T))) : list entity :=
  map fst (filter (fun entry => MeshComponent.m_Enabled (fst (snd entry))) view).

(* ===================================================================== *)
(** * Engine (core.cpp) and the main loop (engine.cpp)                    *)
(* ===================================================================== *)

Module Engine.

(** The events [Engine::OnEvent] distinguishes; widths, heights and key
    codes are what the event objects carry. *)
Inductive Event : Type :=
| WindowResizeEvent (width height : N)
| KeyPressedEvent (keyCode : Z)
| MouseMovedEvent
| OtherEvent (tag : N).

(** What the engine does that can be observed from outside. *)
Inductive action : Type :=
| LOG_CORE_INFO (msg : string)
| ToggleFullscreen
| EnableMousePointer
| DisableMousePointerTimer_Stop
| DisableMousePointerTimer_Start
| DispatchToLayersAndApplication (e : Event)
| Window_OnUpdate
| Window_Shutdown
| Controller_OnUpdate
| Application_OnUpdate
| Engine_RunScripts
| Engine_OnRender
| sleep_for_16ms
| Engine_Quit
| Application_Shutdown.

Record t : Type := mk {
  m_Running : bool;
  m_Paused : bool
}.

(** [Engine::Engine]: [m_Running(false), m_Paused(false)]; [Engine::Start]
    then sets [m_Running]. *)
Definition started : t := mk true false.

Section WithKeys.

(** The key code [ENGINE_KEY_F], declared outside the available sources. *)
Variable ENGINE_KEY_F : Z.

(** [Engine::OnEvent], lines 186-260.  The resize and key handlers return
    [false], the mouse handler returns [true], which marks the event as
    handled.  [DispatchToLayersAndApplication event] records that lines
    245-259 are reached with the event not handled; the calls made there
    depend on the layers and are given by [dispatch_to_layers] below. *)
Definition OnEvent (event : Event) (eng : t) : t * list action :=
  match event with
  | WindowResizeEvent width height =>
      if N.eqb width 0 || N.eqb height 0
      then (mk (m_Running eng) true,
            [LOG_CORE_INFO "application paused";
             DispatchToLayersAndApplication event])
      else (mk (m_Running eng) false, [DispatchToLayersAndApplication event])
  | KeyPressedEvent keyCode =>
      if Z.eqb keyCode ENGINE_KEY_F
      then (eng, [LOG_CORE_INFO "toggle fullscreen at frame {0}"; ToggleFullscreen;
                  DispatchToLayersAndApplication event])
      else (eng, [DispatchToLayersAndApplication event])
  | MouseMovedEvent =>
      (eng, [EnableMousePointer; DisableMousePointerTimer_Stop;
             DisableMousePointerTimer_Start])
  | OtherEvent _ => (eng, [DispatchToLayersAndApplication event])
  end.

(** [OnEvent] on each event in turn. *)
Fixpoint OnEvents (events : list Event) (eng : t) : t * list action :=
  match events with
  | [] => (eng, [])
  | e :: rest =>
      let '(eng1, a1) := OnEvent e eng in
      let '(eng2, a2) := OnEvents rest eng1 in
      (eng2, a1 ++ a2)
  end.

(** What reaches the engine during one call of [Engine::OnUpdate]: the
    events the window delivers through the callback, whether the window is
    still OK, the events of the controller, and the queued events. *)
Record frame_input : Type := mkInput {
  window_events : list Event;
  window_ok : bool;
  controller_events : list Event;
  m_EventQueue : list Event
}.

(** [Engine::Shutdown]. *)
Definition Shutdown (eng : t) : t * list action :=
  (mk false (m_Paused eng), [Window_Shutdown]).

(** [Engine::OnUpdate], lines 143-165. *)
Definition OnUpdate (input : frame_input) (eng : t) : t * list action :=
  let '(eng1, a1) := OnEvents (window_events input) eng in
  let '(eng2, a2) := if window_ok input then (eng1, []) else Shutdown eng1 in
  let '(eng3, a3) := OnEvents (controller_events input) eng2 in
  let '(eng4, a4) := OnEvents (m_EventQueue input) eng3 in
  (eng4, Window_OnUpdate :: a1 ++ a2 ++ Controller_OnUpdate :: a3 ++ a4).

(** One pass through the body of the [while] loop of [engine()], lines
    60-78. *)
Definition loop_body (input : frame_input) (eng : t) : t * list action :=
  let '(eng1, a1) := OnUpdate input eng in
  if negb (m_Paused eng1)
  then (eng1, a1 ++ [Application_OnUpdate; Engine_RunScripts; Engine_OnRender])
  else (eng1, a1 ++ [sleep_for_16ms]).

(** The loop of [engine()], lines 58-82, over the inputs of the frames to
    come; it is left when [IsRunning()] is false. *)
Fixpoint main_loop (inputs : list frame_input) (eng : t) : t * list action :=
  match inputs with
  | [] => (eng, [])
  | input :: rest =>
      if m_Running eng
      then let '(eng1, a1) := loop_body input eng in
           let '(eng2, a2) := main_loop rest eng1 in
           (eng2, a1 ++ a2)
      else (eng, [Engine_Quit; Application_Shutdown])
  end.

End WithKeys.

(** All events of one [OnUpdate], in the order they are handled. *)
Definition events_of (input : frame_input) : list Event :=
  window_events input ++ controller_events input ++ m_EventQueue input.

(** Whether the most recent resize event among [events] has a zero
    dimension; [None] when there is no resize event. *)
Fixpoint last_resize_is_empty (events : list Event) : option bool :=
  match events with
  | [] => None
  | e :: rest =>
      match last_resize_is_empty rest with
      | Some b => Some b
      | None =>
          match e with
          | WindowResizeEvent width height => Some (N.eqb width 0 || N.eqb height 0)
          | _ => None
          end
      end
  end.

(** The paused flag after [events], when it was [paused] before: the most
    recent resize event decides. *)
Definition paused_after (events : list Event) (paused : bool) : bool :=
  match last_resize_is_empty events with
  | Some b => b
  | None => paused
  end.

(** The update and render steps of the application. *)
Definition is_update_or_render (a : action) : bool :=
  match a with
  | Application_OnUpdate | Engine_RunScripts | Engine_OnRender => true
  | _ => false
  end.

(** ** RunScripts *)

(** [static_cast<uint>(entity)]. *)
Definition static_cast_uint (e : entity) : N := (e mod 2 ^ 32)%N.

Inductive script_event : Type :=
| Script_OnUpdate (e : entity)
| LOG_CORE_WARN_no_script (id : N).

(** The inner loop over the static [log], lines 353-359: [true] when the
    [return] is taken. *)
Fixpoint already_logged (log : list N) (id : N) : bool :=
  match log with
  | [] => false
  | currentLog :: rest => if N.eqb currentLog id then true else already_logged rest id
  end.

(** [Engine::RunScripts], lines 336-364, over the entities of
    [registry.view<ScriptComponent>()] and the static vector [log]; the
    result is what was called and logged, and [log] afterwards. *)
Fixpoint RunScripts (view : list (entity * ScriptComponent.t)) (log : list N)
  : list script_event * list N :=
  match view with
  | [] => ([], log)
  | (e, scriptComponent) :: rest =>
      match ScriptComponent.m_Script scriptComponent with
      | Some _ =>
          let '(evs, log') := RunScripts rest log in
          (Script_OnUpdate e :: evs, log')
      | None =>
          if already_logged log (static_cast_uint e)
          then ([], log)
          else
            let '(evs, log') := RunScripts rest (log ++ [static_cast_uint e]) in
            (LOG_CORE_WARN_no_script (static_cast_uint e) :: evs, log')
      end
  end.

(** A session: [RunScripts] once per frame on the view of that frame, the
    static [log] carried from call to call. *)
Fixpoint session (views : list (list (entity * ScriptComponent.t))) (log : list N)
  : list (list script_event) * list N :=
  match views with
  | [] => ([], log)
  | view :: rest =>
      let '(evs, log1) := RunScripts view log in
      let '(evss, log2) := session rest log1 in
      (evs :: evss, log2)
  end.

(** The entities of a view that have a script attached. *)
Definition scripted (view : list (entity * ScriptComponent.t)) : list entity :=
  map fst (filter (fun entry =>
                     match ScriptComponent.m_Script (snd entry) with
                     | Some _ => true
                     | None => false
                     end) view).

End Engine.

(* ===================================================================== *)
(** * Notions used to state what the light system does                    *)
(* ===================================================================== *)

(** Keys strictly increasing from each element to the next. *)
Definition ascending_keys (m : float_map) : Prop :=
  Sorted (fun a b => flt (fst a) (fst b) = true) m.

(** Keys strictly decreasing from each element to the next. *)
Definition descending_keys (l : list (float * entity)) : Prop :=
  Sorted (fun a b => flt (fst b) (fst a) = true) l.

(** [k] is equivalent to no key of [m]: against every key, one of the two
    comparisons holds. *)
Definition key_is_new (k : float) (m : float_map) : Prop :=
  Forall (fun entry => flt k (fst entry) = true \/ flt (fst entry) k = true) m.

Section LightNotions.

Context {G : GlmOps}.

(** [m_SortedLight] after the first loop. *)
Definition insert_all (cameraPosition : vec3)
  (view : VK_LightSystem.point_light_view) (m : float_map) : float_map :=
  fold_left
    (fun acc entry =>
       map_insert (VK_LightSystem.distanceToCam cameraPosition (fst (snd entry)))
                  (fst entry) acc)
    view m.

(** The array element written for a light with the given components. *)
Definition ubo_light (c : TransformComponent * PointLightComponent.t) : PointLight.t :=
  PointLight.mk
    (vec4_of (GetTranslation (fst c)) (of_Z 0))
    (vec4_of (PointLightComponent.m_Color (snd c))
             (PointLightComponent.m_LightIntensity (snd c))).

(** The array elements written for the entities of [it], in that order. *)
Fixpoint copied (view : VK_LightSystem.point_light_view)
  (it : list (float * entity)) : list PointLight.t :=
  match it with
  | [] => []
  | (_, e) :: rest =>
      match view_get view e with
      | Some c => ubo_light c :: copied view rest
      | None => copied view rest
      end
  end.

(** The stray writes that put the given lights at the indices from
    [lightIndex] on, position first. *)
Fixpoint stray_writes_of (lightIndex : Z) (lights : list PointLight.t)
  : list VK_LightSystem.stray_write :=
  match lights with
  | [] => []
  | l :: rest =>
      VK_LightSystem.stray_Position lightIndex (PointLight.m_Position l)
      :: VK_LightSystem.stray_Color lightIndex (PointLight.m_Color l)
      :: stray_writes_of (lightIndex + 1) rest
  end.

(** The slot [m_DirectionalLight] as written for one directional light. *)
Definition ubo_directional (d : DirectionalLightComponent.t) : DirectionalLight.t :=
  DirectionalLight.mk
    (vec4_of (DirectionalLightComponent.m_Direction d) (of_Z 0))
    (vec4_of (DirectionalLightComponent.m_Color d)
             (DirectionalLightComponent.m_LightIntensity d)).

(** Key and entity of every light of the view, in iteration order. *)
Definition light_keys (cameraPosition : vec3)
  (view : VK_LightSystem.point_light_view) : list (float * entity) :=
  map (fun entry =>
         (VK_LightSystem.distanceToCam cameraPosition (fst (snd entry)), fst entry))
      view.

End LightNotions.

(** No two keys of the list are equivalent. *)
Definition pairwise_distinguishable (keys : list (float * entity)) : Prop :=
  ForallOrdPairs
    (fun a b => flt (fst a) (fst b) = true \/ flt (fst b) (fst a) = true) keys.

(** The entity ids for which [RunScripts] logged the warning. *)
Fixpoint warned_ids (evs : list Engine.script_event) : list N :=
  match evs with
  | [] => []
  | Engine.LOG_CORE_WARN_no_script id :: rest => id :: warned_ids rest
  | Engine.Script_OnUpdate _ :: rest => warned_ids rest
  end.

(** The entities whose script received [OnUpdate]. *)
Fixpoint updated_entities (evs : list Engine.script_event) : list entity :=
  match evs with
  | [] => []
  | Engine.Script_OnUpdate e :: rest => e :: updated_entities rest
  | Engine.LOG_CORE_WARN_no_script _ :: rest => updated_entities rest
  end.

(** The slot [m_DirectionalLight] after the loop over [view], started with
    [old] in the slot. *)
Definition slot_after (view : list (entity * DirectionalLightComponent.t))
  (old : DirectionalLight.t) : DirectionalLight.t :=
  fold_left (fun _ entry => ubo_directional (snd entry)) view old.

(* ===================================================================== *)
(** * Call sequences on a TransformComponent                              *)
(* ===================================================================== *)

Section TransformCalls.

Context {G : GlmOps}.

(** A call of a mutator or of one of the two matrix accessors. *)
Inductive method_call : Type :=
| Mutate (m : mutator)
| CallGetMat4
| CallGetNormalMatrix.

Definition perform (c : method_call) (t : TransformComponent) : TransformComponent :=
  match c with
  | Mutate m => call m t
  | CallGetMat4 => snd (GetMat4 t)
  | CallGetNormalMatrix => snd (GetNormalMatrix t)
  end.

Definition perform_all (cs : list method_call) (t : TransformComponent)
  : TransformComponent :=
  fold_left (fun acc c => perform c acc) cs t.

(** A sequence of accessor calls only: [true] for [GetMat4], [false] for
    [GetNormalMatrix]. *)
Definition accessor_calls (which : list bool) : list method_call :=
  map (fun b : bool => if b then CallGetMat4 else CallGetNormalMatrix) which.

(** The component an accessor leaves behind when the flag was set. *)
Definition refreshed (t : TransformComponent) : TransformComponent :=
  RecalculateMatrices (with_Dirty false t).

(** The lazily maintained invariant: a clear flag vouches for the cache. *)
Definition clean_implies_valid (t : TransformComponent) : Prop :=
  m_Dirty t = true \/ cache_valid t.

End TransformCalls.

(* ===================================================================== *)
(** * The term model of the GLM interface                                 *)
(* ===================================================================== *)

(** Matrices kept as the expressions that built them: two results are equal
    only when the same operations were applied to the same arguments.  No
    algebraic law of matrices is assumed, so an equation that holds here
    holds for the floating-point routines as well. *)
Module Symbolic.

Inductive sym_quat : Type :=
| SQuat (euler : vec3).

Inductive sym_mat4 : Type :=
| SIdentity
| SScale (m : sym_mat4) (v : vec3)
| STranslate (m : sym_mat4) (v : vec3)
| SOfQuat (q : sym_quat)
| SMul (a b : sym_mat4)
| SGiven (scale rotation translation : vec3) (tag : N).

Inductive sym_mat3 : Type :=
| SUpperLeft (m : sym_mat4)
| SInverse (m : sym_mat3)
| STranspose (m : sym_mat3)
| SUninit (tag : N).

Definition sym_eulerAngles (q : sym_quat) : vec3 :=
  match q with SQuat e => e end.

Definition sym_decompose (m : sym_mat4) : vec3 * sym_quat * vec3 :=
  match m with
  | SGiven s r t _ => (s, SQuat r, t)
  | _ => (vec3_splat (of_Z 1), SQuat (vec3_splat (of_Z 0)), vec3_splat (of_Z 0))
  end.

Definition ops : GlmOps :=
  {| mat4 := sym_mat4;
     mat3 := sym_mat3;
     quat := sym_quat;
     mat4_identity := SIdentity;
     glm_scale := SScale;
     glm_translate := STranslate;
     quat_of_euler := SQuat;
     toMat4 := SOfQuat;
     eulerAngles := sym_eulerAngles;
     mat4_mul := SMul;
     mat3_of_mat4 := SUpperLeft;
     mat3_inverse := SInverse;
     mat3_transpose := STranspose;
     decompose := sym_decompose |}.

End Symbolic.

(* ===================================================================== *)
(** * Concrete scenes                                                     *)
(* ===================================================================== *)

Module Scenes.

Definition vec3_of_Z (a b c : Z) : vec3 := Vec3 (of_Z a) (of_Z b) (of_Z c).

Definition T : Type := @TransformComponent Symbolic.ops.

(** A default-constructed transform moved to [(a, b, c)]. *)
Definition transform_at (a b c : Z) : T :=
  SetTranslation (G := Symbolic.ops) (vec3_of_Z a b c)
    (TransformComponent_default (G := Symbolic.ops)
       Symbolic.SIdentity (Symbolic.SUninit 0)).

Definition white_light : PointLightComponent.t :=
  PointLightComponent.mk (of_Z 1) (of_Z 1) (vec3_of_Z 1 1 1).

Definition red_light : PointLightComponent.t :=
  PointLightComponent.mk (of_Z 2) (of_Z 1) (vec3_of_Z 1 0 0).

Definition dark : PointLight.t :=
  PointLight.mk (Vec4 (of_Z 0) (of_Z 0) (of_Z 0) (of_Z 0))
                (Vec4 (of_Z 0) (of_Z 0) (of_Z 0) (of_Z 0)).

(** A uniform buffer with room for [n] point lights. *)
Definition empty_ubo (n : nat) : GlobalUniformBuffer unit :=
  mkUbo (repeat dark n) (DirectionalLight.mk (PointLight.m_Position dark)
                                              (PointLight.m_Color dark))
        0 0 tt.

Definition origin : vec3 := vec3_of_Z 0 0 0.

(** Two point lights at the same distance 1 from a camera at the origin:
    entity 7 at (1, 0, 0) and entity 8 at (0, 1, 0). *)
Definition equidistant_lights
  : VK_LightSystem.point_light_view (G := Symbolic.ops) :=
  [(7%N, (transform_at 1 0 0, white_light));
   (8%N, (transform_at 0 1 0, red_light))].

(** Three point lights at squared distances 1, 9 and 4. *)
Definition three_lights
  : VK_LightSystem.point_light_view (G := Symbolic.ops) :=
  [(1%N, (transform_at 1 0 0, white_light));
   (2%N, (transform_at 0 3 0, red_light));
   (3%N, (transform_at 0 0 2, white_light))].

(** An [m_SortedLight] that holds entities 1 and 3 only. *)
Definition two_of_three : float_map := [(of_Z 1, 1%N); (of_Z 4, 3%N)].

Definition sun : DirectionalLightComponent.t :=
  DirectionalLightComponent.mk (of_Z 1) (vec3_of_Z 0 (-1) 0) (vec3_of_Z 1 1 1) 0.

Definition moon : DirectionalLightComponent.t :=
  DirectionalLightComponent.mk (of_Z 1) (vec3_of_Z 1 0 0) (vec3_of_Z 0 0 1) 1.

(** The two directional lights of the beach scene, as two entities. *)
Definition two_suns : VK_LightSystem.directional_light_view :=
  [(20%N, sun); (21%N, moon)].

(** One directional light more than a limit of two. *)
Definition three_suns : VK_LightSystem.directional_light_view :=
  [(20%N, sun); (21%N, moon); (22%N, sun)].

(** The state [Update] starts from: a buffer with room for [n] point lights
    and an empty [m_SortedLight]. *)
Definition start (n : nat) : VK_LightSystem.state unit :=
  VK_LightSystem.mkState (empty_ubo n) [].

(** Entity 1 has a [ScriptComponent] without a script, entity 2 one with
    a script. *)
Definition duck_after_scriptless : list (entity * ScriptComponent.t) :=
  [(1%N, ScriptComponent.mk "none" None);
   (2%N, ScriptComponent.mk "duck" (Some 5%N))].

(** A frame in which the window is resized to [width] x [height]. *)
Definition resize_frame (width height : N) : Engine.frame_input :=
  Engine.mkInput [Engine.WindowResizeEvent width height] true [] [].

(** A frame without events. *)
Definition quiet_frame : Engine.frame_input :=
  Engine.mkInput [] true [] [].

(** [VK_ERROR_OUT_OF_HOST_MEMORY]. *)
Definition VK_ERROR_OUT_OF_HOST_MEMORY : VkResult := (-1)%Z.

Definition mesh_scene
  : list (entity * (MeshComponent.t * T)) :=
  [(1%N, (MeshComponent.mk "ground" 10 true, transform_at 0 0 0));
   (2%N, (MeshComponent.mk "vase" 11 false, transform_at 1 0 0));
   (3%N, (MeshComponent.mk "barrel" 12 true, transform_at 2 0 0))].

End Scenes.

(* ===================================================================== *)
(** * VK_Device: device selection and format queries (VKdevice.cpp)       *)
(* ===================================================================== *)

Module VK_Device.

Local Open Scope Z_scope.

(** Records written by the logging macros of this file. *)
Definition critical_record (msg : string) : Log.record := (Log.critical, msg).
Definition info_record (msg : string) : Log.record := (Log.info, msg).

(** ** FindMemoryType *)

(** One entry of [VkPhysicalDeviceMemoryProperties::memoryTypes]. *)
Record VkMemoryType : Type := mkMemoryType {
  propertyFlags : Z;
  heapIndex : Z
}.

(** The condition of the loop body, lines 560-561:
    [(typeFilter & (1 << i)) && (flags & properties) == properties]. *)
Definition memory_type_fits (typeFilter properties i : Z) (t : VkMemoryType) : bool :=
  negb (Z.eqb (Z.land typeFilter (Z.shiftl 1 i)) 0)
  && Z.eqb (Z.land (propertyFlags t) properties) properties.

(** The loop of [FindMemoryType], lines 558-565, over the first
    [memoryTypeCount] entries of the array, entered at index [i]; the array
    has 32 elements, which keeps the shift within the width of the word. *)
Fixpoint FindMemoryType_loop (typeFilter properties i : Z)
  (memoryTypes : list VkMemoryType) : option Z :=
  match memoryTypes with
  | [] => None
  | t :: rest =>
      if memory_type_fits typeFilter properties i t then Some i
      else FindMemoryType_loop typeFilter properties (i + 1) rest
  end.

(** [VK_Device::FindMemoryType], lines 554-569: the index returned and what
    is logged. *)
Definition FindMemoryType (memoryTypes : list VkMemoryType)
  (typeFilter properties : Z) : Z * list Log.record :=
  match FindMemoryType_loop typeFilter properties 0 memoryTypes with
  | Some i => (i, [])
  | None => (0, [critical_record "failed to find suitable memory type!"])
  end.

(** ** FindSupportedFormat and FindDepthFormat *)

Definition VkFormat : Type := Z.
Definition VK_FORMAT_UNDEFINED : VkFormat := 0.
Definition VK_FORMAT_D32_SFLOAT : VkFormat := 126.
Definition VK_FORMAT_D24_UNORM_S8_UINT : VkFormat := 129.
Definition VK_FORMAT_D32_SFLOAT_S8_UINT : VkFormat := 130.
Definition VK_FORMAT_FEATURE_DEPTH_STENCIL_ATTACHMENT_BIT : Z := 512.

Inductive VkImageTiling : Type :=
| VK_IMAGE_TILING_OPTIMAL
| VK_IMAGE_TILING_LINEAR
| VK_IMAGE_TILING_DRM_FORMAT_MODIFIER_EXT.

Record VkFormatProperties : Type := mkFormatProperties {
  linearTilingFeatures : Z;
  optimalTilingFeatures : Z;
  bufferFeatures : Z
}.

(** The test made on one candidate, lines 531-538. *)
Definition format_supported (props : VkFormatProperties) (tiling : VkImageTiling)
  (features : Z) : bool :=
  match tiling with
  | VK_IMAGE_TILING_LINEAR =>
      Z.eqb (Z.land (linearTilingFeatures props) features) features
  | VK_IMAGE_TILING_OPTIMAL =>
      Z.eqb (Z.land (optimalTilingFeatures props) features) features
  | VK_IMAGE_TILING_DRM_FORMAT_MODIFIER_EXT => false
  end.

Section WithDriver.

(** [vkGetPhysicalDeviceFormatProperties] for the picked device. *)
Variable vkGetPhysicalDeviceFormatProperties : VkFormat -> VkFormatProperties.

(** The loop of [FindSupportedFormat], lines 526-539. *)
Fixpoint FindSupportedFormat_loop (candidates : list VkFormat)
  (tiling : VkImageTiling) (features : Z) : option VkFormat :=
  match candidates with
  | [] => None
  | format :: rest =>
      if format_supported (vkGetPhysicalDeviceFormatProperties format) tiling features
      then Some format
      else FindSupportedFormat_loop rest tiling features
  end.

(** [VK_Device::FindSupportedFormat], lines 519-542. *)
Definition FindSupportedFormat (candidates : list VkFormat)
  (tiling : VkImageTiling) (features : Z) : VkFormat * list Log.record :=
  match FindSupportedFormat_loop candidates tiling features with
  | Some format => (format, [])
  | None => (VK_FORMAT_UNDEFINED,
             [critical_record "failed to find supported format!"])
  end.

(** [VK_Device::FindDepthFormat], lines 544-552. *)
Definition FindDepthFormat : VkFormat * list Log.record :=
  FindSupportedFormat
    [VK_FORMAT_D32_SFLOAT; VK_FORMAT_D32_SFLOAT_S8_UINT; VK_FORMAT_D24_UNORM_S8_UINT]
    VK_IMAGE_TILING_OPTIMAL
    VK_FORMAT_FEATURE_DEPTH_STENCIL_ATTACHMENT_BIT.

End WithDriver.

(** ** SetMaxUsableSampleCount *)

(** [VK_SAMPLE_COUNT_n_BIT] has the value [n]. *)
Definition sample_count_bits : list Z := [64; 32; 16; 8; 4; 2].

(** [counts & bit], as a condition. *)
Definition has_bit (counts bit : Z) : bool := negb (Z.eqb (Z.land counts bit) 0).

(** [VK_Device::SetMaxUsableSampleCount], lines 711-750: the value stored in
    [m_SampleCountFlagBits] and the record logged, from the two limits of
    [m_Properties]. *)
Definition SetMaxUsableSampleCount
  (framebufferColorSampleCounts framebufferDepthSampleCounts : Z)
  : Z * list Log.record :=
  let counts := Z.land framebufferColorSampleCounts framebufferDepthSampleCounts in
  if has_bit counts 64
  then (64, [info_record "sample count: VK_SAMPLE_COUNT_64_BIT"])
  else if has_bit counts 32
  then (32, [info_record "sample count: VK_SAMPLE_COUNT_32_BIT"])
  else if has_bit counts 16
  then (16, [info_record "sample count: VK_SAMPLE_COUNT_16_BIT"])
  else if has_bit counts 8
  then (8, [info_record "sample count: VK_SAMPLE_COUNT_8_BIT"])
  else if has_bit counts 4
  then (4, [info_record "sample count: VK_SAMPLE_COUNT_4_BIT"])
  else if has_bit counts 2
  then (2, [info_record "sample count: VK_SAMPLE_COUNT_2_BIT"])
  else (1, [info_record "sample count: VK_SAMPLE_COUNT_1_BIT"]).

(** ** CheckValidationLayerSupport *)

(** The inner loop, lines 372-379: [strcmp(layerName, p.layerName) == 0]
    for some available layer. *)
Fixpoint layer_found (layerName : string) (availableLayers : list string) : bool :=
  match availableLayers with
  | [] => false
  | layerProperties :: rest =>
      if String.eqb layerName layerProperties then true
      else layer_found layerName rest
  end.

(** [VK_Device::CheckValidationLayerSupport], lines 360-388, over the
    constant [validationLayers] and the layers the loader reports. *)
Fixpoint CheckValidationLayerSupport (validationLayers availableLayers : list string)
  : bool :=
  match validationLayers with
  | [] => true
  | layerName :: rest =>
      if negb (layer_found layerName availableLayers) then false
      else CheckValidationLayerSupport rest availableLayers
  end.

(** ** CheckDeviceExtensionSupport *)

(** A [std::set<std::string>] held as a list without duplicates. *)
Definition string_set : Type := list string.

Definition set_of_range (l : list string) : string_set := nodup string_dec l.
Definition set_erase (s : string) (set : string_set) : string_set :=
  remove string_dec s set.
Definition set_empty (set : string_set) : bool :=
  match set with [] => true | _ => false end.

(** The loop of lines 446-449. *)
Fixpoint erase_all (availableExtensions : list string) (requiredExtensions : string_set)
  : string_set :=
  match availableExtensions with
  | [] => requiredExtensions
  | extension :: rest => erase_all rest (set_erase extension requiredExtensions)
  end.

(** [VK_Device::CheckDeviceExtensionSupport], lines 432-452, over the
    constant [deviceExtensions] and the extensions the device reports. *)
Definition CheckDeviceExtensionSupport (deviceExtensions availableExtensions : list string)
  : bool :=
  set_empty (erase_all availableExtensions (set_of_range deviceExtensions)).

(** ** FindQueueFamilies *)

Definition VK_QUEUE_GRAPHICS_BIT : Z := 1.

(** A queue family as the device reports it, with the answer of
    [vkGetPhysicalDeviceSurfaceSupportKHR] for the surface. *)
Record VkQueueFamily : Type := mkQueueFamily {
  queueCount : Z;
  queueFlags : Z;
  presentSupport : bool
}.

(** [QueueFamilyIndices]: an index together with its [HasValue] flag is an
    option; without the flag the index is not read. *)
Record QueueFamilyIndices : Type := mkIndices {
  graphicsFamily : option Z;
  presentFamily : option Z
}.

Definition isComplete (indices : QueueFamilyIndices) : bool :=
  match graphicsFamily indices, presentFamily indices with
  | Some _, Some _ => true
  | _, _ => false
  end.

Definition is_graphics_family (q : VkQueueFamily) : bool :=
  (0 <? queueCount q) && negb (Z.eqb (Z.land (queueFlags q) VK_QUEUE_GRAPHICS_BIT) 0).

Definition is_present_family (q : VkQueueFamily) : bool :=
  (0 <? queueCount q) && presentSupport q.

(** The loop of [FindQueueFamilies], lines 465-485, entered at family [i]
    with [indices]. *)
Fixpoint FindQueueFamilies_loop (i : Z) (queueFamilies : list VkQueueFamily)
  (indices : QueueFamilyIndices) : QueueFamilyIndices :=
  match queueFamilies with
  | [] => indices
  | queueFamily :: rest =>
      let indices1 :=
        if is_graphics_family queueFamily
        then mkIndices (Some i) (presentFamily indices)
        else indices in
      let indices2 :=
        if is_present_family queueFamily
        then mkIndices (graphicsFamily indices1) (Some i)
        else indices1 in
      if isComplete indices2 then indices2
      else FindQueueFamilies_loop (i + 1) rest indices2
  end.

(** [VK_Device::FindQueueFamilies], lines 454-488. *)
Definition FindQueueFamilies (queueFamilies : list VkQueueFamily) : QueueFamilyIndices :=
  FindQueueFamilies_loop 0 queueFamilies (mkIndices None None).

(** ** IsSuitableDevice, IsPreferredDevice and PickPhysicalDevice *)

(** [std::tolower] on one character of the "C" locale. *)
Definition tolower (c : Ascii.ascii) : Ascii.ascii :=
  let n := Ascii.nat_of_ascii c in
  if (Nat.leb 65 n && Nat.leb n 90)%bool
  then Ascii.ascii_of_nat (n + 32)
  else c.

(** [std::transform(s.begin(), s.end(), s.begin(), tolower)]. *)
Fixpoint lowercase (s : string) : string :=
  match s with
  | EmptyString => EmptyString
  | String c rest => String (tolower c) (lowercase rest)
  end.

(** [name.find(blacklisted) != std::string::npos]. *)
Definition find_not_npos (name blacklisted : string) : bool :=
  match String.index 0 blacklisted name with
  | Some _ => true
  | None => false
  end.

Definition VK_PHYSICAL_DEVICE_TYPE_DISCRETE_GPU : Z := 2.

(** [VkPhysicalDeviceProperties], as far as it is read. *)
Record VkPhysicalDeviceProperties : Type := mkProperties {
  deviceName : string;
  deviceType : Z;
  framebufferColorSampleCounts : Z;
  framebufferDepthSampleCounts : Z
}.

(** A physical device: its handle and what the driver answers about it. *)
Record VkPhysicalDevice : Type := mkPhysicalDevice {
  handle : N;
  properties : VkPhysicalDeviceProperties;
  queueFamilies : list VkQueueFamily;
  availableExtensions : list string;
  surfaceFormats : list Z;
  presentModes : list Z;
  samplerAnisotropy : bool
}.

(** The members of [VK_Device] that device selection reads and writes, and
    the log; [m_PhysicalDevice] is [None] for [VK_NULL_HANDLE]. *)
Record members : Type := mkMembers {
  m_PhysicalDevice : option VkPhysicalDevice;
  m_Properties : option VkPhysicalDeviceProperties;
  m_SampleCountFlagBits : Z;
  log : list Log.record
}.

Section WithSettings.

(** [CoreSettings::m_BlacklistedDevice] and the constant
    [deviceExtensions], both declared outside the available sources. *)
Variable m_BlacklistedDevice : string.
Variable deviceExtensions : list string.

(** The blacklist test of lines 303-309. *)
Definition is_blacklisted (device : VkPhysicalDevice) : bool :=
  find_not_npos (lowercase (deviceName (properties device)))
                (lowercase m_BlacklistedDevice).

(** The checks of lines 316-331. *)
Definition passes_checks (device : VkPhysicalDevice) : bool :=
  let indices := FindQueueFamilies (queueFamilies device) in
  let extensionsSupported :=
    CheckDeviceExtensionSupport deviceExtensions (availableExtensions device) in
  let swapChainAdequate :=
    if extensionsSupported
    then negb (match surfaceFormats device with [] => true | _ => false end)
         && negb (match presentModes device with [] => true | _ => false end)
    else false in
  isComplete indices && extensionsSupported && swapChainAdequate
  && samplerAnisotropy device.

(** [VK_Device::IsSuitableDevice], lines 298-332: the properties of the
    device are fetched into the member [m_Properties] first. *)
Definition IsSuitableDevice (device : VkPhysicalDevice) (m : members) : bool * members :=
  let m1 := mkMembers (m_PhysicalDevice m) (Some (properties device))
              (m_SampleCountFlagBits m) (log m) in
  if is_blacklisted device
  then (false,
        mkMembers (m_PhysicalDevice m1) (m_Properties m1) (m_SampleCountFlagBits m1)
          (log m1 ++ [info_record
                        ("ignoring blacklisted device: "
                         ++ lowercase (deviceName (properties device)))]))
  else (passes_checks device, m1).

(** [VK_Device::IsPreferredDevice], lines 285-296. *)
Definition IsPreferredDevice (device : VkPhysicalDevice) (m : members) : bool * members :=
  let '(suitable, m1) := IsSuitableDevice device m in
  if negb suitable then (false, m1)
  else (Z.eqb (deviceType (properties device)) VK_PHYSICAL_DEVICE_TYPE_DISCRETE_GPU,
        m1).

(** The first loop of [PickPhysicalDevice], lines 173-183: [Some] is the
    state at the [return]. *)
Fixpoint pick_preferred (devices : list VkPhysicalDevice) (m : members)
  : option members * members :=
  match devices with
  | [] => (None, m)
  | device :: rest =>
      let '(preferred, m1) := IsPreferredDevice device m in
      if preferred
      then
        let '(bits, records) :=
          SetMaxUsableSampleCount
            (framebufferColorSampleCounts (properties device))
            (framebufferDepthSampleCounts (properties device)) in
        (Some (mkMembers (Some device) (Some (properties device)) bits
                 (log m1
                  ++ [info_record ("found a dedicated graphics card: "
                                   ++ deviceName (properties device))]
                  ++ records)),
         m1)
      else pick_preferred rest m1
  end.

(** The second loop, lines 185-194, left by [break] at the first suitable
    device. *)
Fixpoint pick_suitable (devices : list VkPhysicalDevice) (m : members) : members :=
  match devices with
  | [] => m
  | device :: rest =>
      let '(suitable, m1) := IsSuitableDevice device m in
      if suitable
      then mkMembers (Some device) (Some (properties device))
             (m_SampleCountFlagBits m1)
             (log m1 ++ [info_record ("found an onboard graphics card: "
                                      ++ deviceName (properties device))])
      else pick_suitable rest m1
  end.

(** [VK_Device::PickPhysicalDevice], lines 161-202, on the devices that
    [vkEnumeratePhysicalDevices] reports. *)
Definition PickPhysicalDevice (devices : list VkPhysicalDevice) (m : members) : members :=
  let m0 :=
    match devices with
    | [] => mkMembers (m_PhysicalDevice m) (m_Properties m) (m_SampleCountFlagBits m)
              (log m ++ [critical_record "failed to find GPUs with Vulkan support!"])
    | _ => m
    end in
  match pick_preferred devices m0 with
  | (Some picked, _) => picked
  | (None, m1) =>
      let m2 := pick_suitable devices m1 in
      match m_PhysicalDevice m2 with
      | None =>
          mkMembers None (m_Properties m2) (m_SampleCountFlagBits m2)
            (log m2 ++ [critical_record "failed to find a suitable GPU!"])
      | Some _ => m2
      end
  end.

(** A device is suitable: not blacklisted and passing the checks. *)
Definition suitable (device : VkPhysicalDevice) : bool :=
  negb (is_blacklisted device) && passes_checks device.

(** A device is preferred: suitable and a discrete GPU. *)
Definition preferred (device : VkPhysicalDevice) : bool :=
  suitable device
  && Z.eqb (deviceType (properties device)) VK_PHYSICAL_DEVICE_TYPE_DISCRETE_GPU.

End WithSettings.

(** The critical records of a log. *)
Definition critical_records (l : list Log.record) : list Log.record :=
  filter (fun r => match fst r with Log.critical => true | _ => false end) l.

End VK_Device.

(* ===================================================================== *)
(** * Engine::Start and engine() (core.cpp, engine.cpp)                   *)
(* ===================================================================== *)

Module EngineEntry.

(** What the collaborators answer during start-up. *)
Record environment : Type := mkEnvironment {
  Log_Init : bool;
  window_IsOK : bool;
  controller_Start : bool;
  application_Start : bool
}.

Inductive start_action : Type :=
| cout (msg : string)
| InitSettings
| signal_SIGINT
| Window_Create
| LOG_CORE_CRITICAL_action (msg : string)
| Window_SetEventCallback
| TextureSlotManager_Create
| GraphicsContext_Create
| Audio_Create
| Audio_Start
| Controller_Start
| Controller_SetEventCallback
| Application_Create
| SetAppEventCallback.

(** The members of [Engine] that the body of [Engine::Start] assigns: the
    two flags, and the four pointers [m_Window], [m_TextureSlotManager],
    [m_GraphicsContext] and [m_Audio], each [true] once it has been
    assigned.  What the calls made by [Start] do to other objects (the
    settings, the window, the controller) is kept as the list of calls. *)
Record members : Type := mkMembers {
  flags : Engine.t;
  m_Window : bool;
  m_TextureSlotManager : bool;
  m_GraphicsContext : bool;
  m_Audio : bool
}.

(** [Engine::Engine]: [m_Running(false), m_Paused(false)], the pointers
    not yet assigned. *)
Definition constructed : members :=
  mkMembers (Engine.mk false false) false false false false.

(** [Engine::Start], lines 78-127: the value returned, the engine and what
    was done. *)
Definition Start (env : environment) (eng : members)
  : bool * members * list start_action :=
  let a0 :=
    (if negb (Log_Init env) then [cout "Could not initialize logger"] else [])
    ++ [InitSettings; signal_SIGINT; Window_Create] in
  let eng1 :=
    mkMembers (flags eng) true (m_TextureSlotManager eng) (m_GraphicsContext eng)
      (m_Audio eng) in
  if negb (window_IsOK env)
  then (false, eng1, a0 ++ [LOG_CORE_CRITICAL_action "Could not create main window"])
  else
    let a1 := a0 ++ [Window_SetEventCallback; TextureSlotManager_Create;
                     GraphicsContext_Create; Audio_Create; Audio_Start;
                     Controller_Start] in
    let eng2 := mkMembers (flags eng1) true true true true in
    if negb (controller_Start env)
    then (false, eng2, a1 ++ [LOG_CORE_CRITICAL_action "Could not create controller"])
    else (true,
          mkMembers (Engine.mk true (Engine.m_Paused (flags eng2))) true true true true,
          a1 ++ [Controller_SetEventCallback]).

(** The [while] loop of [engine()] followed by lines 81-82: the second
    component tells whether the loop was left within the given frames. *)
Fixpoint run_loop (ENGINE_KEY_F : Z) (inputs : list Engine.frame_input)
  (eng : Engine.t) : list Engine.action * bool :=
  match inputs with
  | [] =>
      if Engine.m_Running eng then ([], false)
      else ([Engine.Engine_Quit; Engine.Application_Shutdown], true)
  | input :: rest =>
      if Engine.m_Running eng
      then let '(eng1, a1) := Engine.loop_body ENGINE_KEY_F input eng in
           let '(a2, exited) := run_loop ENGINE_KEY_F rest eng1 in
           (a1 ++ a2, exited)
      else ([Engine.Engine_Quit; Engine.Application_Shutdown], true)
  end.

(** [engine()], lines 31-89: the value returned ([None] while the loop is
    still running at the end of the given frames), the start-up actions
    and the actions of the loop. *)
Definition engine (ENGINE_KEY_F : Z) (env : environment)
  (inputs : list Engine.frame_input)
  : option Z * list start_action * list Engine.action :=
  let '(ok, eng, a0) := Start env constructed in
  if negb ok then (Some (-1)%Z, a0, [])
  else
    if negb (application_Start env)
    then (Some (-1)%Z, a0 ++ [Application_Create], [])
    else
      let '(trace, exited) := run_loop ENGINE_KEY_F inputs (flags eng) in
      (if exited then Some 0%Z else None,
       a0 ++ [Application_Create; SetAppEventCallback], trace).

(** The number of passes through the loop body recorded in a trace. *)
Definition passes (trace : list Engine.action) : nat :=
  List.length (filter (fun a => match a with
                                | Engine.Window_OnUpdate => true
                                | _ => false
                                end) trace).

End EngineEntry.

(** The events with which the dispatch of lines 245-259 is entered, the
    event not being handled by the engine, in order. *)
Fixpoint dispatched (actions : list Engine.action) : list Engine.Event :=
  match actions with
  | [] => []
  | Engine.DispatchToLayersAndApplication e :: rest => e :: dispatched rest
  | _ :: rest => dispatched rest
  end.

(** The number of [ToggleFullscreen] calls among the actions. *)
Fixpoint fullscreen_toggles (actions : list Engine.action) : nat :=
  match actions with
  | [] => 0
  | Engine.ToggleFullscreen :: rest => S (fullscreen_toggles rest)
  | _ :: rest => fullscreen_toggles rest
  end.

(** The events that no handler of [Engine::OnEvent] marks as handled. *)
Definition unhandled (e : Engine.Event) : bool :=
  match e with
  | Engine.MouseMovedEvent => false
  | _ => true
  end.

(** A press of the key with the given code. *)
Definition is_key (key : Z) (e : Engine.Event) : bool :=
  match e with
  | Engine.KeyPressedEvent keyCode => Z.eqb keyCode key
  | _ => false
  end.

(** ** The dispatch to the layers and the application, core.cpp 245-259 *)

(** A call made by the dispatch: [OnEvent] of a layer, or the callback of
    the application. *)
Inductive callee : Type :=
| Layer_OnEvent (layer : N) (e : Engine.Event)
| AppEventCallback (e : Engine.Event).

(** The loop of lines 247-253 over the layers in the order of the loop,
    from the end of [m_LayerStack] to its beginning.  What a layer does
    with the event is application code: [marks layer] tells whether its
    [OnEvent] leaves the event marked as handled.  The result is the calls
    made and whether the event is handled when the loop is left. *)
Fixpoint layer_loop (layers : list N) (marks : N -> bool) (e : Engine.Event)
  : list callee * bool :=
  match layers with
  | [] => ([], false)
  | layer :: rest =>
      if marks layer then ([Layer_OnEvent layer e], true)
      else let '(calls, handled) := layer_loop rest marks e in
           (Layer_OnEvent layer e :: calls, handled)
  end.

(** Lines 245-259 for an event that is not handled when they are reached:
    the loop over the layers, then [m_AppEventCallback] if the event is
    still not handled. *)
Definition dispatch_to_layers (m_LayerStack : list N) (marks : N -> bool)
  (e : Engine.Event) : list callee :=
  let '(calls, handled) := layer_loop (rev m_LayerStack) marks e in
  if handled then calls else calls ++ [AppEventCallback e].

(** The calls to layers and application behind the actions of the engine. *)
Fixpoint callees (m_LayerStack : list N) (marks : N -> bool)
  (actions : list Engine.action) : list callee :=
  match actions with
  | [] => []
  | Engine.DispatchToLayersAndApplication e :: rest =>
      dispatch_to_layers m_LayerStack marks e ++ callees m_LayerStack marks rest
  | _ :: rest => callees m_LayerStack marks rest
  end.

(** ** The passes of the main loop *)

(** The paused flag each pass of the loop finds after its engine update,
    pass by pass, when the flag is [paused] before the first. *)
Fixpoint paused_flags (inputs : list Engine.frame_input) (paused : bool)
  : list bool :=
  match inputs with
  | [] => []
  | input :: rest =>
      let p := Engine.paused_after (Engine.events_of input) paused in
      p :: paused_flags rest p
  end.

(** What a pass does after the engine update, lines 65-77. *)
Definition pass_steps (paused : bool) : list Engine.action :=
  if paused then [Engine.sleep_for_16ms]
  else [Engine.Application_OnUpdate; Engine.Engine_RunScripts; Engine.Engine_OnRender].

(** Application update, script run, render and sleep. *)
Definition is_step (a : Engine.action) : bool :=
  match a with
  | Engine.Application_OnUpdate | Engine.Engine_RunScripts | Engine.Engine_OnRender
  | Engine.sleep_for_16ms => true
  | _ => false
  end.

(** The prefix of a view that [RunScripts] gets through: it ends before the
    first script-less entity that is already in [log]. *)
Fixpoint before_logged (view : list (entity * ScriptComponent.t)) (log : list N)
  : list (entity * ScriptComponent.t) :=
  match view with
  | [] => []
  | (e, sc) :: rest =>
      match ScriptComponent.m_Script sc with
      | None =>
          if Engine.already_logged log (Engine.static_cast_uint e) then []
          else (e, sc) :: before_logged rest log
      | Some _ => (e, sc) :: before_logged rest log
      end
  end.

(** The ids of the script-less entities of a view. *)
Definition scriptless_ids (view : list (entity * ScriptComponent.t)) : list N :=
  map (fun entry => Engine.static_cast_uint (fst entry))
      (filter (fun entry =>
                 match ScriptComponent.m_Script (snd entry) with
                 | Some _ => false
                 | None => true
                 end) view).

(* ===================================================================== *)
(** * MainScene (application/lucre/scenes/mainScene.cpp)                  *)
(* ===================================================================== *)

Module MainScene.




(** The static members of [ImGUI] read by [ApplyDebugSettings]. *)
Record ImGUI : Type := mkImGUI {
  m_UseNormalMapIntensity : bool;
  m_NormalMapIntensity : float;
  m_UseRoughness : bool;
  m_UseMetallic : bool;
  m_UsePointLightIntensity : bool;
  m_PointLightIntensity : float
}.

Definition set_LightIntensity (v : float) (p : PointLightComponent.t)
  : PointLightComponent.t :=
  PointLightComponent.mk v (PointLightComponent.m_Radius p)
    (PointLightComponent.m_Color p).

(** [MainScene::ApplyDebugSettings], lines 377-401: the value of
    [Model::m_NormalMapIntensity] afterwards and the components of
    [registry.view<PointLightComponent>()] afterwards. *)
Definition ApplyDebugSettings (gui : ImGUI)
  (view : list (entity * PointLightComponent.t))
  : float * list (entity * PointLightComponent.t) :=
  let normalMapIntensity :=
    if m_UseNormalMapIntensity gui then m_NormalMapIntensity gui else of_Z 1 in
  if m_UseRoughness gui || m_UseMetallic gui || m_UseNormalMapIntensity gui
     || m_UsePointLightIntensity gui
  then
    if m_UsePointLightIntensity gui
    then (normalMapIntensity,
          map (fun entry =>
                 (fst entry, set_LightIntensity (m_PointLightIntensity gui) (snd entry)))
              view)
    else (normalMapIntensity, view)
  else (normalMapIntensity, view).

End MainScene.

(* ===================================================================== *)
(** * The MeshComponent constructors (components.cpp)                     *)
(* ===================================================================== *)

Module MeshNames.


(** [MeshComponent::MeshComponent(std::string name, model, enabled)],
    lines 38-41. *)
Definition named (name : string) (model : N) (enabled : bool) : MeshComponent.t :=
  MeshComponent.mk name model enabled.



End MeshNames.

(* ===================================================================== *)
(** * Notions used to state what the render passes record                 *)
(* ===================================================================== *)

Section PassNotions.

Context {G : GlmOps}.

(** The components of the entities of [it] that the view knows, in the
    order of [it]. *)
Fixpoint components_of (view : VK_LightSystem.point_light_view)
  (it : list (float * entity)) : list (TransformComponent * PointLightComponent.t) :=
  match it with
  | [] => []
  | (_, e) :: rest =>
      match view_get view e with
      | Some c => c :: components_of view rest
      | None => components_of view rest
      end
  end.

(** The push constants of [VK_LightSystem::Render] for one light. *)
Definition light_push (c : TransformComponent * PointLightComponent.t) : command :=
  vkCmdPushConstants_PointLight
    (vec4_of (GetTranslation (fst c)) (of_Z 1))
    (vec4_of (PointLightComponent.m_Color (snd c))
             (PointLightComponent.m_LightIntensity (snd c)))
    (PointLightComponent.m_Radius (snd c)).

(** Push constants followed by the draw of six vertices, per light. *)
Fixpoint light_draws (cs : list (TransformComponent * PointLightComponent.t))
  : list command :=
  match cs with
  | [] => []
  | c :: rest => light_push c :: vkCmdDraw 6 1 0 0 :: light_draws rest
  end.

(** The matrices pushed by the shadow pass, in recording order. *)
Fixpoint shadow_pushes (cmds : list command) : list (mat4 * mat3) :=
  match cmds with
  | [] => []
  | vkCmdPushConstants_Shadow m n :: rest => (m, n) :: shadow_pushes rest
  | _ :: rest => shadow_pushes rest
  end.

(** The pipelines bound, in recording order. *)
Fixpoint bound_pipelines (cmds : list command) : list N :=
  match cmds with
  | [] => []
  | Pipeline_Bind p :: rest => p :: bound_pipelines rest
  | _ :: rest => bound_pipelines rest
  end.

End PassNotions.

(* ===================================================================== *)
(** * Sample devices                                                      *)
(* ===================================================================== *)

Module Devices.

Import VK_Device.
Local Open Scope Z_scope.
Local Open Scope string_scope.

(** One queue family with graphics and presentation. *)
Definition universal_queue : VkQueueFamily := mkQueueFamily 1 1 true.

(** An integrated GPU and a discrete one, both passing the checks for the
    swapchain extension. *)
Definition onboard : VkPhysicalDevice :=
  mkPhysicalDevice 1%N (mkProperties "Intel(R) UHD Graphics" 1 15 15)
    [universal_queue] ["VK_KHR_swapchain"] [44] [2] true.

Definition discrete : VkPhysicalDevice :=
  mkPhysicalDevice 2%N (mkProperties "NVIDIA GeForce RTX" 2 127 15)
    [universal_queue] ["VK_KHR_swapchain"; "VK_KHR_maintenance1"] [44; 50] [2; 0]
    true.

(** A discrete GPU without the swapchain extension. *)
Definition headless : VkPhysicalDevice :=
  mkPhysicalDevice 3%N (mkProperties "Compute Card" 2 1 1)
    [universal_queue] [] [] [] true.

Definition swapchain_only : list string := ["VK_KHR_swapchain"].

(** Three memory types: device local, host visible and coherent, and
    device local again. *)
Definition memory_types : list VkMemoryType :=
  [mkMemoryType 1 0; mkMemoryType 6 1; mkMemoryType 1 0].

(** The members before selection: no device, one sample per pixel. *)
Definition unselected : members := mkMembers None None 1 [].

End Devices.

(* ===================================================================== *)
(** * Sample runs of the engine                                           *)
(* ===================================================================== *)

Module Sessions.


(** The window cannot be created. *)
Definition no_window : EngineEntry.environment :=
  EngineEntry.mkEnvironment true false true true.


(** A frame with a key press and a mouse move, the window staying OK. *)
Definition busy_frame : Engine.frame_input :=
  Engine.mkInput [Engine.KeyPressedEvent 70; Engine.MouseMovedEvent] true
    [Engine.OtherEvent 3] [].

(** Entities 1 and 2 with scripts, entity 3 without, entity 4 with. *)
Definition scripts : list (entity * ScriptComponent.t) :=
  [(1%N, ScriptComponent.mk "duck" (Some 5%N));
   (2%N, ScriptComponent.mk "banana" (Some 6%N));
   (3%N, ScriptComponent.mk "none" None);
   (4%N, ScriptComponent.mk "horn" (Some 7%N))].

(** The debug window with only the point-light override switched on, and
    with everything switched off. *)
Definition override_lights : MainScene.ImGUI :=
  MainScene.mkImGUI false (of_Z 1) false false true (of_Z 5).

Definition all_off : MainScene.ImGUI :=
  MainScene.mkImGUI false (of_Z 1) false false false (of_Z 5).

Definition lamps : list (entity * PointLightComponent.t) :=
  [(7%N, Scenes.white_light); (8%N, Scenes.red_light)].

End Sessions.

(* ===================================================================== *)
(** * Facts about TransformComponent                                      *)
(* ===================================================================== *)

Lemma vec3_eta (v : vec3) : Vec3 (x v) (y v) (z v) = v.
Proof. destruct v; reflexivity. Qed.

Section TransformFacts.

Context {G : GlmOps}.

Lemma call_sets_dirty (m : mutator) (t : TransformComponent) :
  m_Dirty (call m t) = true.
Proof. destruct m; reflexivity. Qed.

Lemma call_keeps_matrices (m : mutator) (t : TransformComponent) :
  m_Mat4 (call m t) = m_Mat4 t /\ m_NormalMatrix (call m t) = m_NormalMatrix t.
Proof. destruct m; split; reflexivity. Qed.

Lemma calls_cons (m : mutator) (ms : list mutator) (t : TransformComponent) :
  calls (m :: ms) t = calls ms (call m t).
Proof. reflexivity. Qed.

Lemma calls_nonempty_dirty (ms : list mutator) :
  forall (m : mutator) (t : TransformComponent),
    m_Dirty (calls (m :: ms) t) = true.
Proof.
  induction ms as [| m' ms IH]; intros m t.
  - apply call_sets_dirty.
  - rewrite calls_cons. apply IH.
Qed.

Lemma RecalculateMatrices_Mat4 (t : TransformComponent) :
  m_Mat4 (RecalculateMatrices t) = model_of t.
Proof.
  unfold RecalculateMatrices, model_of, model_matrix, Translation, Rotation, Scale.
  cbn [m_Mat4]. now rewrite vec3_eta.
Qed.

Lemma RecalculateMatrices_NormalMatrix (t : TransformComponent) :
  m_NormalMatrix (RecalculateMatrices t) = normal_matrix_of (model_of t).
Proof.
  unfold RecalculateMatrices, normal_matrix_of, model_of, model_matrix,
    Translation, Rotation, Scale.
  cbn [m_NormalMatrix]. now rewrite vec3_eta.
Qed.

Lemma RecalculateMatrices_keeps (t : TransformComponent) :
  m_Scale (RecalculateMatrices t) = m_Scale t
  /\ m_Rotation (RecalculateMatrices t) = m_Rotation t
  /\ m_Translation (RecalculateMatrices t) = m_Translation t
  /\ m_Dirty (RecalculateMatrices t) = m_Dirty t.
Proof. repeat split. Qed.

Lemma model_of_with_Dirty (d : bool) (t : TransformComponent) :
  model_of (with_Dirty d t) = model_of t.
Proof. reflexivity. Qed.

Lemma model_of_RecalculateMatrices (t : TransformComponent) :
  model_of (RecalculateMatrices t) = model_of t.
Proof. reflexivity. Qed.

Lemma refreshed_valid (t : TransformComponent) :
  m_Dirty (refreshed t) = false /\ cache_valid (refreshed t).
Proof.
  unfold refreshed, cache_valid. split; [reflexivity |].
  rewrite RecalculateMatrices_Mat4, RecalculateMatrices_NormalMatrix.
  rewrite model_of_RecalculateMatrices. split; reflexivity.
Qed.

Lemma GetMat4_when_dirty (t : TransformComponent) :
  m_Dirty t = true -> GetMat4 t = (model_of t, refreshed t).
Proof.
  intros Hd. unfold GetMat4. rewrite Hd. fold (refreshed t).
  f_equal. unfold refreshed. now rewrite RecalculateMatrices_Mat4.
Qed.

Lemma GetNormalMatrix_when_dirty (t : TransformComponent) :
  m_Dirty t = true ->
  GetNormalMatrix t = (normal_matrix_of (model_of t), refreshed t).
Proof.
  intros Hd. unfold GetNormalMatrix. rewrite Hd. fold (refreshed t).
  f_equal. unfold refreshed. now rewrite RecalculateMatrices_NormalMatrix.
Qed.

Lemma GetMat4_when_clean (t : TransformComponent) :
  m_Dirty t = false -> GetMat4 t = (m_Mat4 t, t).
Proof. intros Hd. unfold GetMat4. now rewrite Hd. Qed.

Lemma GetNormalMatrix_when_clean (t : TransformComponent) :
  m_Dirty t = false -> GetNormalMatrix t = (m_NormalMatrix t, t).
Proof. intros Hd. unfold GetNormalMatrix. now rewrite Hd. Qed.

(** The accessors leave the same component behind. *)
Lemma accessors_agree (t : TransformComponent) :
  snd (GetNormalMatrix t) = snd (GetMat4 t).
Proof. reflexivity. Qed.

Lemma perform_keeps_invariant (c : method_call) (t : TransformComponent) :
  clean_implies_valid t -> clean_implies_valid (perform c t).
Proof.
  intros Hinv. destruct c as [m | |]; cbn [perform].
  - left. apply call_sets_dirty.
  - destruct (m_Dirty t) eqn:Hd.
    + rewrite (GetMat4_when_dirty _ Hd). right. apply refreshed_valid.
    + rewrite (GetMat4_when_clean _ Hd). exact Hinv.
  - destruct (m_Dirty t) eqn:Hd.
    + rewrite (GetNormalMatrix_when_dirty _ Hd). right. apply refreshed_valid.
    + rewrite (GetNormalMatrix_when_clean _ Hd). exact Hinv.
Qed.

Lemma perform_all_keeps_invariant (cs : list method_call) :
  forall t : TransformComponent,
    clean_implies_valid t -> clean_implies_valid (perform_all cs t).
Proof.
  induction cs as [| c cs IH]; intros t Hinv; [exact Hinv |].
  apply IH. now apply perform_keeps_invariant.
Qed.

Lemma default_invariant (uninit4 : mat4) (uninit3 : mat3) :
  clean_implies_valid (TransformComponent_default uninit4 uninit3).
Proof. left. reflexivity. Qed.

(** C1 (as amended).  Every mutator leaves the dirty flag set; after one or
    more mutator calls on any component, [GetMat4] and [GetNormalMatrix]
    return the matrices recomputed from the final translation, rotation and
    scale, clear the flag, leave those three values alone and leave a valid
    cache behind; and on a component built by the default constructor and
    driven by any mutator and accessor calls, a clear flag implies that the
    cached matrices are the recomputed ones. *)
Theorem dirty_flag_gates_staleness :
  forall (t : TransformComponent) (m : mutator) (ms : list mutator)
         (uninit4 : mat4) (uninit3 : mat3) (cs : list method_call),
    m_Dirty (call m t) = true
    /\ (let t' := calls (m :: ms) t in
        m_Dirty t' = true
        /\ fst (GetMat4 t') = model_matrix (m_Translation t') (m_Rotation t') (m_Scale t')
        /\ fst (GetNormalMatrix t')
           = normal_matrix_of (model_matrix (m_Translation t') (m_Rotation t') (m_Scale t'))
        /\ m_Dirty (snd (GetMat4 t')) = false
        /\ m_Dirty (snd (GetNormalMatrix t')) = false
        /\ cache_valid (snd (GetMat4 t'))
        /\ cache_valid (snd (GetNormalMatrix t'))
        /\ m_Translation (snd (GetMat4 t')) = m_Translation t'
        /\ m_Rotation (snd (GetMat4 t')) = m_Rotation t'
        /\ m_Scale (snd (GetMat4 t')) = m_Scale t')
    /\ (let c := perform_all cs (TransformComponent_default uninit4 uninit3) in
        m_Dirty c = true \/ cache_valid c).
Proof.
  intros t m ms uninit4 uninit3 cs.
  split; [apply call_sets_dirty |]. split.
  - pose proof (calls_nonempty_dirty ms m t) as Hd.
    cbv zeta. rewrite accessors_agree.
    rewrite (GetMat4_when_dirty _ Hd), (GetNormalMatrix_when_dirty _ Hd).
    cbn [fst snd]. destruct (refreshed_valid (calls (m :: ms) t)) as [Hc Hv].
    repeat split; try assumption; try reflexivity; apply Hv.
  - apply perform_all_keeps_invariant, default_invariant.
Qed.

(** C5.  [RecalculateMatrices] stores [Translation(t) * Rotation(r) *
    Scale(s)], multiplied in that order, as the model matrix and
    transpose(inverse(upper-left 3x3 of that model matrix)) as the normal
    matrix, and changes nothing else. *)
Theorem RecalculateMatrices_composition :
  forall t : TransformComponent,
    let t' := RecalculateMatrices t in
    m_Mat4 t'
    = mat4_mul (mat4_mul (Translation (m_Translation t)) (Rotation (m_Rotation t)))
               (Scale (m_Scale t))
    /\ m_NormalMatrix t' = mat3_transpose (mat3_inverse (mat3_of_mat4 (m_Mat4 t')))
    /\ m_Translation t' = m_Translation t
    /\ m_Rotation t' = m_Rotation t
    /\ m_Scale t' = m_Scale t
    /\ m_Dirty t' = m_Dirty t.
Proof.
  intros t t'. subst t'.
  split; [apply RecalculateMatrices_Mat4 |].
  repeat split.
Qed.

Lemma accessor_calls_on_clean (which : list bool) :
  forall t : TransformComponent,
    m_Dirty t = false -> perform_all (accessor_calls which) t = t.
Proof.
  induction which as [| b which IH]; intros t Hd; [reflexivity |].
  change (perform_all (accessor_calls (b :: which)) t)
    with (perform_all (accessor_calls which)
            (perform (if b then CallGetMat4 else CallGetNormalMatrix) t)).
  destruct b; cbn [perform].
  - rewrite (GetMat4_when_clean _ Hd). cbn [snd]. now apply IH.
  - rewrite (GetNormalMatrix_when_clean _ Hd). cbn [snd]. now apply IH.
Qed.

Lemma of_mat4_fields (transform : mat4) (uninit3 : mat3) :
  m_Dirty (TransformComponent_of_mat4 transform uninit3) = false
  /\ m_Mat4 (TransformComponent_of_mat4 transform uninit3) = transform
  /\ m_NormalMatrix (TransformComponent_of_mat4 transform uninit3) = uninit3.
Proof.
  unfold TransformComponent_of_mat4.
  destruct (decompose transform) as [[s r] tr]. repeat split.
Qed.

(** C9.  A component built from a 4x4 matrix starts with the flag clear;
    [GetMat4] then returns the supplied matrix and changes nothing;
    [GetNormalMatrix] returns what the member held before construction,
    whatever matrix was supplied, and this stays so under any number of
    accessor calls; after a mutator call the accessor returns the normal
    matrix recomputed by [RecalculateMatrices]. *)
Theorem matrix_constructor_leaves_normal_matrix :
  forall (transform : mat4) (uninit3 : mat3),
    let t := TransformComponent_of_mat4 transform uninit3 in
    m_Dirty t = false
    /\ GetMat4 t = (transform, t)
    /\ GetNormalMatrix t = (uninit3, t)
    /\ (forall other : mat4,
          fst (GetNormalMatrix (TransformComponent_of_mat4 other uninit3))
          = fst (GetNormalMatrix t))
    /\ (forall which : list bool,
          perform_all (accessor_calls which) t = t)
    /\ (forall m : mutator,
          m_NormalMatrix (call m t) = uninit3
          /\ GetNormalMatrix (call m t)
             = (m_NormalMatrix (RecalculateMatrices (with_Dirty false (call m t))),
                RecalculateMatrices (with_Dirty false (call m t)))
          /\ fst (GetNormalMatrix (call m t))
             = normal_matrix_of (model_of (call m t))).
Proof.
  intros transform uninit3 t.
  destruct (of_mat4_fields transform uninit3) as (Hd & Hm & Hn).
  fold t in Hd, Hm, Hn.
  split; [exact Hd |].
  split; [rewrite (GetMat4_when_clean _ Hd); now rewrite Hm |].
  split; [rewrite (GetNormalMatrix_when_clean _ Hd); now rewrite Hn |].
  split.
  { intros other.
    destruct (of_mat4_fields other uninit3) as (Hd' & _ & Hn').
    rewrite (GetNormalMatrix_when_clean _ Hd'), (GetNormalMatrix_when_clean _ Hd).
    cbn [fst]. now rewrite Hn', Hn. }
  split; [intros which; now apply accessor_calls_on_clean |].
  intros m. split.
  { destruct (call_keeps_matrices m t) as [_ H]. now rewrite H. }
  pose proof (call_sets_dirty m t) as Hdm.
  rewrite (GetNormalMatrix_when_dirty _ Hdm). cbn [fst].
  split; [| reflexivity].
  unfold refreshed. f_equal. now rewrite RecalculateMatrices_NormalMatrix.
Qed.

(** Setting a value to what it already is marks a freshly computed cache
    as dirty although it still matches, whatever the matrix routines are. *)
Lemma resetting_a_value_keeps_the_cache_valid (t : TransformComponent) :
  m_Dirty t = true ->
  let fetched := snd (GetMat4 t) in
  let again := SetScale (m_Scale fetched) fetched in
  cache_valid again /\ m_Dirty again = true.
Proof.
  intros Hd fetched again. subst fetched again.
  rewrite (GetMat4_when_dirty _ Hd). cbn [snd].
  split; [| reflexivity].
  destruct (refreshed_valid t) as [_ Hv]. exact Hv.
Qed.

End TransformFacts.

(** In the term model the matrix fetched after a translation is the
    product written out. *)
Example GetMat4_after_SetTranslation :
  fst (GetMat4 (Scenes.transform_at 1 2 3))
  = Symbolic.SMul
      (Symbolic.SMul
         (Symbolic.STranslate Symbolic.SIdentity (Scenes.vec3_of_Z 1 2 3))
         (Symbolic.SOfQuat (Symbolic.SQuat (Scenes.vec3_of_Z 0 0 0))))
      (Symbolic.SScale Symbolic.SIdentity (Scenes.vec3_of_Z 1 1 1)).
Proof. reflexivity. Qed.

(** [AddTranslation] adds componentwise in binary32: 1 + 2 is 3, and
    16777216 + 1 rounds back to 16777216. *)
Example AddTranslation_rounds :
  m_Translation (AddTranslation (G := Symbolic.ops) (Scenes.vec3_of_Z 2 1 0)
                   (Scenes.transform_at 1 16777216 0))
  = Scenes.vec3_of_Z 3 16777216 0.
Proof. reflexivity. Qed.

(** C1, as stated, fails in both directions.  A component whose matrices
    were fetched and whose scale is then set to the value it already has
    carries a valid cache with the flag set; a component built from a
    matrix has the flag clear although its normal matrix was never
    computed. *)
Lemma cache_validity_is_not_the_clear_flag :
  (let t := SetScale (G := Symbolic.ops) (vec3_splat (of_Z 1))
              (snd (GetMat4 (TransformComponent_default (G := Symbolic.ops)
                               Symbolic.SIdentity (Symbolic.SUninit 0)))) in
   cache_valid t /\ m_Dirty t = true)
  /\ (let t := TransformComponent_of_mat4 (G := Symbolic.ops)
                 (Symbolic.SGiven (vec3_splat (of_Z 2)) (vec3_splat (of_Z 0))
                    (vec3_splat (of_Z 0)) 0)
                 (Symbolic.SUninit 0) in
      m_Dirty t = false /\ ~ cache_valid t).
Proof.
  split.
  - cbv zeta. split; [split; reflexivity | reflexivity].
  - cbv zeta. split; [reflexivity |].
    intros [_ H]. cbv in H. discriminate H.
Qed.

(* ===================================================================== *)
(** * Facts about the run monad, arrays and the float map                 *)
(* ===================================================================== *)

Lemma ASSERT_true {S : Type} (mode : assert_mode) (s : S) :
  ASSERT mode true s = (Completed tt, s).
Proof. reflexivity. Qed.

Lemma ASSERT_off {S : Type} (cond : bool) (s : S) :
  ASSERT AssertOff cond s = (Completed tt, s).
Proof. destruct cond; reflexivity. Qed.

Lemma ASSERT_fatal_false {S : Type} (s : S) :
  ASSERT AssertFatal false s = (AssertionFailed, s).
Proof. reflexivity. Qed.

Lemma ASSERT_never_out_of_bounds {S : Type} (mode : assert_mode) (cond : bool) (s : S) :
  ASSERT mode cond s = (Completed tt, s) \/ ASSERT mode cond s = (AssertionFailed, s).
Proof. destruct cond, mode; auto. Qed.

Lemma bind_assoc {S A B C : Type} (c : run S A) (k : A -> run S B)
  (h : B -> run S C) (s : S) :
  bind (bind c k) h s = bind c (fun a => bind (k a) h) s.
Proof. unfold bind. destruct (c s) as [[a | | |] s']; reflexivity. Qed.

Lemma bind_ext {S A B : Type} (c : run S A) (k k' : A -> run S B) (s : S) :
  (forall (a : A) (s' : S), k a s' = k' a s') -> bind c k s = bind c k' s.
Proof.
  intros H. unfold bind. destruct (c s) as [[a | | |] s']; try reflexivity.
  apply H.
Qed.

Lemma array_modify_middle {A : Type} (f : A -> A) (done : list A) :
  forall (a0 : A) (todo : list A),
    array_modify (List.length done) f (done ++ a0 :: todo)
    = Some (done ++ f a0 :: todo).
Proof.
  induction done as [| d done IH]; intros a0 todo; cbn.
  - reflexivity.
  - now rewrite IH.
Qed.

Lemma array_modify_past_end {A : Type} (f : A -> A) (a : list A) :
  forall i : nat, (List.length a <= i)%nat -> array_modify i f a = None.
Proof.
  induction a as [| a0 a IH]; intros i Hi; [destruct i; reflexivity |].
  destruct i as [| i]; cbn in *; [lia |].
  rewrite IH by lia. reflexivity.
Qed.

Lemma map_insert_length (k : float) (v : entity) (m : float_map) :
  (List.length (map_insert k v m) <= S (List.length m))%nat.
Proof.
  induction m as [| [k' v'] m IH]; cbn; [lia |].
  destruct (flt k k'); cbn; [lia |].
  destruct (flt k' k); cbn; lia.
Qed.

Lemma map_insert_grows (k : float) (v : entity) (m : float_map) :
  (List.length m <= List.length (map_insert k v m))%nat.
Proof.
  induction m as [| [k' v'] m IH]; cbn; [lia |].
  destruct (flt k k'); cbn; [lia |].
  destruct (flt k' k); cbn; lia.
Qed.

Lemma map_insert_In (k : float) (v : entity) (m : float_map) :
  forall entry, In entry (map_insert k v m) -> entry = (k, v) \/ In entry m.
Proof.
  induction m as [| [k' v'] m IH]; intros entry Hin; cbn in Hin.
  - destruct Hin as [<- | []]. now left.
  - destruct (flt k k').
    + destruct Hin as [<- | Hin]; [now left | now right].
    + destruct (flt k' k).
      * destruct Hin as [<- | Hin]; [right; now left |].
        destruct (IH _ Hin) as [-> | H]; [now left | right; now right].
      * now right.
Qed.

Lemma map_insert_keeps (k : float) (v : entity) (m : float_map) :
  forall entry, In entry m -> In entry (map_insert k v m).
Proof.
  induction m as [| [k' v'] m IH]; intros entry Hin; [destruct Hin |].
  cbn. destruct (flt k k'); [now right |].
  destruct (flt k' k); [| exact Hin].
  destruct Hin as [<- | Hin]; [now left | right; now apply IH].
Qed.

(** The first element of the map after an insertion is the new entry or
    the old first element. *)
Lemma map_insert_head (k : float) (v : entity) (k' : float) (m : float_map) :
  flt k' k = true ->
  HdRel (fun a b => flt (fst a) (fst b) = true) (k', 0%N) m ->
  forall v' : entity,
    HdRel (fun a b => flt (fst a) (fst b) = true) (k', v') (map_insert k v m).
Proof.
  intros Hlt Hhd v'. destruct m as [| [k2 v2] m]; cbn.
  - constructor. exact Hlt.
  - inversion Hhd as [| ? ? Hk2]; subst. cbn in Hk2.
    destruct (flt k k2); [constructor; exact Hlt |].
    destruct (flt k2 k); constructor; exact Hk2.
Qed.

Lemma HdRel_ignores_entity (k' : float) (v1 v2 : entity) (m : float_map) :
  HdRel (fun a b => flt (fst a) (fst b) = true) (k', v1) m ->
  HdRel (fun a b => flt (fst a) (fst b) = true) (k', v2) m.
Proof. intros H; inversion H; subst; constructor; assumption. Qed.

(** [insert] keeps the keys strictly ascending. *)
Lemma map_insert_ascending (k : float) (v : entity) (m : float_map) :
  ascending_keys m -> ascending_keys (map_insert k v m).
Proof.
  unfold ascending_keys.
  induction m as [| [k' v'] m IH]; intros Hs; cbn.
  - repeat constructor.
  - inversion Hs as [| ? ? Hm Hhd]; subst.
    destruct (flt k k') eqn:H1.
    + constructor; [exact Hs | constructor; exact H1].
    + destruct (flt k' k) eqn:H2; [| exact Hs].
      constructor; [now apply IH |].
      apply map_insert_head; [exact H2 |].
      now apply HdRel_ignores_entity with (v1 := v').
Qed.

(** A key equivalent to none in the map is added, nothing is lost. *)
Lemma map_insert_new_key (k : float) (v : entity) (m : float_map) :
  key_is_new k m -> Permutation ((k, v) :: m) (map_insert k v m).
Proof.
  unfold key_is_new.
  induction m as [| [k' v'] m IH]; intros Hnew; cbn; [reflexivity |].
  inversion Hnew as [| ? ? Hk Hrest]; subst. cbn in Hk.
  destruct (flt k k') eqn:H1; [reflexivity |].
  destruct (flt k' k) eqn:H2.
  - rewrite perm_swap. constructor. now apply IH.
  - destruct Hk; congruence.
Qed.

(** A key equivalent to the first key of the map is dropped. *)
Lemma map_insert_equivalent_key (k : float) (v : entity) (k' : float)
  (v' : entity) (m : float_map) :
  flt k k' = false -> flt k' k = false ->
  map_insert k v ((k', v') :: m) = (k', v') :: m.
Proof. intros H1 H2. cbn. now rewrite H1, H2. Qed.

Lemma Sorted_snoc {A : Type} (R : A -> A -> Prop) (a : A) (l : list A) :
  Sorted R l ->
  (forall (l' : list A) (b : A), l = l' ++ [b] -> R b a) ->
  Sorted R (l ++ [a]).
Proof.
  induction l as [| x l IH]; intros Hs Hlast; cbn.
  - repeat constructor.
  - inversion Hs as [| ? ? Hl Hhd]; subst. constructor.
    + apply IH; [exact Hl |].
      intros l' b ->. apply (Hlast (x :: l') b). reflexivity.
    + destruct l as [| y l]; cbn.
      * constructor. apply (Hlast [] x). reflexivity.
      * inversion Hhd; subst. constructor. assumption.
Qed.

Lemma Sorted_rev {A : Type} (R : A -> A -> Prop) (l : list A) :
  Sorted R l -> Sorted (fun a b => R b a) (rev l).
Proof.
  induction l as [| a l IH]; intros Hs; cbn; [constructor |].
  inversion Hs as [| ? ? Hl Hhd]; subst.
  apply Sorted_snoc; [now apply IH |].
  intros l' b Hrev.
  assert (Hl' : l = b :: rev l').
  { rewrite <- (rev_involutive l), Hrev, rev_app_distr. reflexivity. }
  subst l. inversion Hhd; subst. assumption.
Qed.

(** Met from [rbegin()] to [rend()], the keys strictly decrease. *)
Lemma ascending_rev_descending (m : float_map) :
  ascending_keys m -> descending_keys (reverse_iteration m).
Proof. apply Sorted_rev. Qed.

Lemma view_get_In {C : Type} (view : list (entity * C)) (e : entity) :
  In e (map fst view) -> exists c, view_get view e = Some c.
Proof.
  induction view as [| [e' c] view IH]; intros Hin; [destruct Hin |].
  cbn. destruct (N.eqb_spec e' e) as [-> | Hne]; [now exists c |].
  destruct Hin as [He | Hin]; [cbn in He; congruence | now apply IH].
Qed.

(* ===================================================================== *)
(** * Facts about VK_LightSystem::Update                                  *)
(* ===================================================================== *)

Section LightFacts.

Context {G : GlmOps}.
Variable MAX_LIGHTS : Z.
Variable Rest : Type.

Import VK_LightSystem.
Local Open Scope Z_scope.

Lemma set_SortedLight_id (s : state Rest) :
  set_SortedLight (fun m => m) s = s.
Proof. destruct s; reflexivity. Qed.

Lemma insert_all_cons (cam : vec3) (entry : entity * (TransformComponent * PointLightComponent.t))
  (view : point_light_view) (m : float_map) :
  insert_all cam (entry :: view) m
  = insert_all cam view
      (map_insert (distanceToCam cam (fst (snd entry))) (fst entry) m).
Proof. reflexivity. Qed.

Lemma insert_all_length (cam : vec3) (view : point_light_view) :
  forall m : float_map,
    (List.length (insert_all cam view m) <= List.length m + List.length view)%nat.
Proof.
  induction view as [| entry view IH]; intros m; [cbn; lia |].
  rewrite insert_all_cons. cbn [List.length].
  specialize (IH (map_insert (distanceToCam cam (fst (snd entry))) (fst entry) m)).
  pose proof (map_insert_length (distanceToCam cam (fst (snd entry))) (fst entry) m).
  lia.
Qed.

Lemma insert_all_entities (cam : vec3) (view : point_light_view) :
  forall (m : float_map) (entry : float * entity),
    In entry (insert_all cam view m) ->
    In entry m \/ In (snd entry) (map fst view).
Proof.
  induction view as [| [e c] view IH]; intros m entry Hin; [now left |].
  rewrite insert_all_cons in Hin. cbn [map fst snd] in *.
  destruct (IH _ _ Hin) as [H | H]; [| right; now right].
  destruct (map_insert_In _ _ _ _ H) as [-> | H']; [right; now left | now left].
Qed.

Lemma insert_all_ascending (cam : vec3) (view : point_light_view) :
  forall m : float_map, ascending_keys m -> ascending_keys (insert_all cam view m).
Proof.
  induction view as [| entry view IH]; intros m Hm; [exact Hm |].
  rewrite insert_all_cons. apply IH. now apply map_insert_ascending.
Qed.

(** The first loop when no assertion stops it. *)
Lemma collect_loop_passes (mode : assert_mode) (cam : vec3) (view : point_light_view) :
  forall (i : Z) (s : state Rest),
    (mode = AssertOff \/ i + Z.of_nat (List.length view) <= MAX_LIGHTS) ->
    collect_loop MAX_LIGHTS mode cam view i s
    = (Completed (i + Z.of_nat (List.length view)),
       set_SortedLight (insert_all cam view) s).
Proof.
  induction view as [| [e [transform pointLight]] view IH]; intros i s Hpass.
  - cbn [collect_loop List.length insert_all fold_left]. unfold ret.
    rewrite Z.add_0_r. destruct s; reflexivity.
  - cbn [collect_loop]. unfold bind at 1.
    assert (Ha : ASSERT mode (i <? MAX_LIGHTS) s = (Completed tt, s)).
    { destruct Hpass as [-> | Hle]; [apply ASSERT_off |].
      replace (i <? MAX_LIGHTS) with true; [reflexivity |].
      symmetry. apply Z.ltb_lt. cbn [List.length] in Hle. lia. }
    rewrite Ha. unfold bind at 1. unfold modify at 1.
    rewrite IH.
    + replace (i + 1 + Z.of_nat (List.length view))
        with (i + Z.of_nat (List.length ((e, (transform, pointLight)) :: view)))
        by (cbn [List.length]; lia).
      reflexivity.
    + destruct Hpass as [-> | Hle]; [now left | right].
      cbn [List.length] in Hle. lia.
Qed.

(** The first loop when there are more lights than [MAX_LIGHTS]: the run
    stops at the assertion and the uniform buffer is as it was. *)
Lemma collect_loop_stops (cam : vec3) (view : point_light_view) :
  forall (i : Z) (s : state Rest),
    i <= MAX_LIGHTS ->
    MAX_LIGHTS < i + Z.of_nat (List.length view) ->
    exists s' : state Rest,
      collect_loop MAX_LIGHTS AssertFatal cam view i s = (AssertionFailed, s')
      /\ ubo s' = ubo s.
Proof.
  induction view as [| [e [transform pointLight]] view IH]; intros i s Hle Hgt.
  - cbn [List.length] in Hgt. lia.
  - cbn [collect_loop]. unfold bind at 1.
    destruct (i <? MAX_LIGHTS) eqn:Hi.
    + rewrite ASSERT_true. unfold bind at 1. unfold modify at 1.
      apply Z.ltb_lt in Hi.
      destruct (IH (i + 1)
                  (set_SortedLight (map_insert (distanceToCam cam transform) e) s))
        as (s' & Hrun & Hubo); [lia | cbn [List.length] in Hgt; lia |].
      exists s'. split; [exact Hrun | now rewrite Hubo].
    + rewrite ASSERT_fatal_false. exists s. split; reflexivity.
Qed.

Lemma write_PointLight_middle (f : PointLight.t -> PointLight.t)
  (done : list PointLight.t) (p : PointLight.t) (todo : list PointLight.t)
  (s : state Rest) :
  m_PointLights (ubo s) = done ++ p :: todo ->
  write_PointLight (Z.of_nat (List.length done)) f s
  = (Completed tt, set_ubo (set_PointLights (done ++ f p :: todo)) s).
Proof.
  intros Ha. unfold write_PointLight.
  replace (Z.of_nat (List.length done) <? 0) with false
    by (symmetry; apply Z.ltb_ge; lia).
  rewrite Nat2Z.id, Ha, array_modify_middle. reflexivity.
Qed.

Lemma write_PointLight_past_end (f : PointLight.t -> PointLight.t) (i : Z) (s : state Rest) :
  Z.of_nat (List.length (m_PointLights (ubo s))) <= i ->
  write_PointLight i f s = (OutOfBounds, s).
Proof.
  intros Hi. unfold write_PointLight.
  replace (i <? 0) with false by (symmetry; apply Z.ltb_ge; lia).
  rewrite array_modify_past_end by lia. reflexivity.
Qed.

(** The second loop: the elements from index [length done] on are
    overwritten one by one. *)
Lemma copy_loop_writes (view : point_light_view) (it : list (float * entity)) :
  forall (done todo : list PointLight.t) (s : state Rest),
    m_PointLights (ubo s) = done ++ todo ->
    (List.length it <= List.length todo)%nat ->
    (forall entry, In entry it -> In (snd entry) (map fst view)) ->
    copy_loop view it (Z.of_nat (List.length done)) s
    = (Completed (Z.of_nat (List.length done) + Z.of_nat (List.length it)),
       set_ubo (set_PointLights
                  (done ++ copied view it ++ skipn (List.length it) todo)) s)
      /\ List.length (copied view it) = List.length it.
Proof.
  induction it as [| [k e] it IH]; intros done todo s Ha Hlen Hview.
  - cbn [copy_loop copied List.length skipn app]. unfold ret. split; [| reflexivity].
    rewrite Z.add_0_r. f_equal. rewrite <- Ha. destruct s as [[] ?]; reflexivity.
  - destruct todo as [| p todo]; [cbn in Hlen; lia |].
    destruct (view_get_In view e) as [[transform pointLight] Hget].
    { apply (Hview (k, e)). now left. }
    cbn [copy_loop copied]. rewrite Hget.
    unfold bind at 1. rewrite (write_PointLight_middle _ done p todo s Ha).
    unfold bind at 1.
    erewrite (write_PointLight_middle _ done _ todo) by reflexivity.
    destruct (IH (done ++ [ubo_light (transform, pointLight)]) todo
                (set_ubo (set_PointLights
                   (done ++ ubo_light (transform, pointLight) :: todo)) s))
      as [IH1 IH2].
    { cbn. now rewrite <- app_assoc. }
    { cbn [List.length] in Hlen. lia. }
    { intros entry Hin. apply Hview. now right. }
    rewrite length_app in IH1. cbn [List.length] in IH1.
    replace (Z.of_nat (List.length done) + 1)
      with (Z.of_nat (List.length done + 1)) by lia.
    split; [| cbn [List.length]; now rewrite IH2].
    etransitivity; [exact IH1 |].
    rewrite <- app_assoc. cbn [app skipn List.length].
    replace (Z.of_nat (List.length done + 1) + Z.of_nat (List.length it))
      with (Z.of_nat (List.length done) + Z.of_nat (S (List.length it))) by lia.
    reflexivity.
Qed.

(** The point-light block when the assertion lets every light through. *)
Lemma UpdatePointLights_completes (mode : assert_mode) (cam : vec3)
  (view : point_light_view) (s : state Rest) :
  ubo_wf MAX_LIGHTS (ubo s) ->
  Z.of_nat (List.length view) <= MAX_LIGHTS ->
  let sorted := insert_all cam view [] in
  UpdatePointLights MAX_LIGHTS mode cam view s
  = (Completed tt,
     mkState
       (set_NumberOfActivePointLights (Z.of_nat (List.length sorted))
          (set_PointLights
             (copied view (reverse_iteration sorted)
              ++ skipn (List.length sorted) (m_PointLights (ubo s)))
             (ubo s)))
       sorted)
  /\ List.length (copied view (reverse_iteration sorted)) = List.length sorted.
Proof.
  intros Hwf Hlen sorted.
  pose proof (insert_all_length cam view []) as Hsize. cbn [List.length] in Hsize.
  fold sorted in Hsize.
  unfold UpdatePointLights. unfold bind at 1. unfold modify at 1.
  unfold bind at 1. rewrite collect_loop_passes by (right; lia).
  unfold bind at 1. unfold get_state at 1.
  cbn [m_SortedLight set_SortedLight]. fold sorted.
  unfold bind at 1.
  destruct (copy_loop_writes view (reverse_iteration sorted) []
              (m_PointLights (ubo s))
              (mkState (ubo s) sorted)) as [Hcopy Hcount].
  { reflexivity. }
  { unfold reverse_iteration. rewrite length_rev. unfold ubo_wf in Hwf. lia. }
  { intros entry Hin. unfold reverse_iteration in Hin. apply in_rev in Hin.
    destruct (insert_all_entities cam view [] entry Hin) as [[] | H]. exact H. }
  cbn [List.length Z.of_nat] in Hcopy.
  change (set_SortedLight (insert_all cam view)
            (set_SortedLight (fun _ : float_map => []) s))
    with (mkState (ubo s) sorted).
  rewrite Hcopy. unfold modify.
  unfold reverse_iteration in *. rewrite length_rev in *.
  split; [reflexivity | exact Hcount].
Qed.

(** The point-light block with more lights than [MAX_LIGHTS]. *)
Lemma UpdatePointLights_stops (cam : vec3) (view : point_light_view) (s : state Rest) :
  0 <= MAX_LIGHTS ->
  MAX_LIGHTS < Z.of_nat (List.length view) ->
  exists s' : state Rest,
    UpdatePointLights MAX_LIGHTS AssertFatal cam view s = (AssertionFailed, s')
    /\ ubo s' = ubo s.
Proof.
  intros H0 Hgt.
  unfold UpdatePointLights. unfold bind at 1. unfold modify at 1.
  destruct (collect_loop_stops cam view 0 (set_SortedLight (fun _ => []) s))
    as (s' & Hrun & Hubo); [lia | lia |].
  unfold bind at 1. rewrite Hrun. exists s'. split; [reflexivity | exact Hubo].
Qed.

Lemma slot_after_last (pre : directional_light_view) (e : entity)
  (d : DirectionalLightComponent.t) (old : DirectionalLight.t) :
  slot_after (pre ++ [(e, d)]) old = ubo_directional d.
Proof. unfold slot_after. rewrite fold_left_app. reflexivity. Qed.

(** The directional loop when no assertion stops it. *)
Lemma directional_loop_passes (mode : assert_mode) (view : directional_light_view) :
  forall (i : Z) (s : state Rest),
    (mode = AssertOff \/ i + Z.of_nat (List.length view) <= MAX_LIGHTS) ->
    directional_loop MAX_LIGHTS mode view i s
    = (Completed (i + Z.of_nat (List.length view)),
       set_ubo (set_DirectionalLight (slot_after view)) s).
Proof.
  induction view as [| [e d] view IH]; intros i s Hpass.
  - cbn [directional_loop List.length]. unfold ret. rewrite Z.add_0_r.
    destruct s as [[] ?]; reflexivity.
  - cbn [directional_loop]. unfold bind at 1.
    assert (Ha : ASSERT mode (i <? MAX_LIGHTS) s = (Completed tt, s)).
    { destruct Hpass as [-> | Hle]; [apply ASSERT_off |].
      replace (i <? MAX_LIGHTS) with true; [reflexivity |].
      symmetry. apply Z.ltb_lt. cbn [List.length] in Hle. lia. }
    rewrite Ha. unfold bind at 1. unfold modify at 1.
    unfold bind at 1. unfold modify at 1.
    rewrite IH.
    + replace (i + 1 + Z.of_nat (List.length view))
        with (i + Z.of_nat (List.length ((e, d) :: view)))
        by (cbn [List.length]; lia).
      reflexivity.
    + destruct Hpass as [-> | Hle]; [now left | right].
      cbn [List.length] in Hle. lia.
Qed.

(** The directional loop with more lights than [MAX_LIGHTS]. *)
Lemma directional_loop_stops (view : directional_light_view) :
  forall (i : Z) (s : state Rest),
    i <= MAX_LIGHTS ->
    MAX_LIGHTS < i + Z.of_nat (List.length view) ->
    exists s' : state Rest,
      directional_loop MAX_LIGHTS AssertFatal view i s = (AssertionFailed, s')
      /\ m_NumberOfActiveDirectionalLights (ubo s')
         = m_NumberOfActiveDirectionalLights (ubo s).
Proof.
  induction view as [| [e d] view IH]; intros i s Hle Hgt.
  - cbn [List.length] in Hgt. lia.
  - cbn [directional_loop]. unfold bind at 1.
    destruct (i <? MAX_LIGHTS) eqn:Hi.
    + rewrite ASSERT_true. unfold bind at 1. unfold modify at 1.
      unfold bind at 1. unfold modify at 1.
      apply Z.ltb_lt in Hi.
      match goal with
      | |- exists s', directional_loop _ _ _ _ ?s1 = _ /\ _ =>
          destruct (IH (i + 1) s1) as (s' & Hrun & Hn);
            [lia | cbn [List.length] in Hgt; lia |]
      end.
      exists s'. split; [exact Hrun | now rewrite Hn].
    + rewrite ASSERT_fatal_false. exists s. split; reflexivity.
Qed.

Lemma UpdateDirectionalLights_stops (view : directional_light_view) (s : state Rest) :
  0 <= MAX_LIGHTS ->
  MAX_LIGHTS < Z.of_nat (List.length view) ->
  exists s' : state Rest,
    UpdateDirectionalLights MAX_LIGHTS AssertFatal view s = (AssertionFailed, s')
    /\ m_NumberOfActiveDirectionalLights (ubo s')
       = m_NumberOfActiveDirectionalLights (ubo s).
Proof.
  intros H0 Hgt. unfold UpdateDirectionalLights. unfold bind.
  destruct (directional_loop_stops view 0 s) as (s' & Hrun & Hn); [lia | lia |].
  rewrite Hrun. now exists s'.
Qed.

(** The directional block ends in [Completed] or in [AssertionFailed], and
    leaves the point-light part of the buffer alone. *)
Lemma directional_loop_outcome (mode : assert_mode) (view : directional_light_view) :
  forall (i : Z) (s : state Rest),
    exists (o : outcome Z) (s' : state Rest),
      directional_loop MAX_LIGHTS mode view i s = (o, s')
      /\ (o = AssertionFailed \/ o = Completed (i + Z.of_nat (List.length view)))
      /\ m_PointLights (ubo s') = m_PointLights (ubo s)
      /\ m_NumberOfActivePointLights (ubo s') = m_NumberOfActivePointLights (ubo s).
Proof.
  induction view as [| [e d] view IH]; intros i s.
  - exists (Completed i), s. cbn [directional_loop List.length Z.of_nat].
    rewrite Z.add_0_r. repeat split. now right.
  - cbn [directional_loop]. unfold bind at 1.
    destruct (ASSERT_never_out_of_bounds mode (i <? MAX_LIGHTS) s) as [Ha | Ha];
      rewrite Ha.
    + unfold bind at 1. unfold modify at 1. unfold bind at 1. unfold modify at 1.
      match goal with
      | |- exists o s', directional_loop _ _ _ _ ?s1 = _ /\ _ =>
          destruct (IH (i + 1) s1) as (o & s' & Hrun & Ho & Hp & Hn)
      end.
      exists o, s'. split; [exact Hrun |]. split.
      * destruct Ho as [-> | ->]; [now left | right].
        f_equal. cbn [List.length]. lia.
      * split; [now rewrite Hp | now rewrite Hn].
    + exists AssertionFailed, s. repeat split. now left.
Qed.

Lemma UpdateDirectionalLights_outcome (mode : assert_mode)
  (view : directional_light_view) (s : state Rest) :
  exists (o : outcome unit) (s' : state Rest),
    UpdateDirectionalLights MAX_LIGHTS mode view s = (o, s')
    /\ (o = AssertionFailed \/ o = Completed tt)
    /\ m_PointLights (ubo s') = m_PointLights (ubo s)
    /\ m_NumberOfActivePointLights (ubo s') = m_NumberOfActivePointLights (ubo s).
Proof.
  unfold UpdateDirectionalLights. unfold bind.
  destruct (directional_loop_outcome mode view 0 s) as (o & s' & Hrun & Ho & Hp & Hn).
  rewrite Hrun. destruct Ho as [-> | ->].
  - exists AssertionFailed, s'. repeat split; auto.
  - eexists (Completed tt), _. split; [reflexivity |].
    split; [now right |]. cbn. split; assumption.
Qed.

Lemma directional_loop_app (mode : assert_mode) (a b : directional_light_view) :
  forall (i : Z) (s : state Rest),
    directional_loop MAX_LIGHTS mode (a ++ b) i s
    = bind (directional_loop MAX_LIGHTS mode a i)
           (fun j => directional_loop MAX_LIGHTS mode b j) s.
Proof.
  induction a as [| [e d] a IH]; intros i s; [reflexivity |].
  cbn [app directional_loop].
  rewrite !bind_assoc. apply bind_ext; intros _ s1.
  rewrite bind_assoc. apply bind_ext; intros _ s2.
  rewrite bind_assoc. apply bind_ext; intros _ s3.
  apply IH.
Qed.

(** C7.  With the assertion active and a uniform buffer whose point-light
    array has [MAX_LIGHTS] elements: when there are more point lights than
    [MAX_LIGHTS], [Update] stops at the assertion with the buffer as it was
    handed in; otherwise the point-light block completes, the number of
    entries it wrote is the size of [m_SortedLight], lies between 0 and
    [MAX_LIGHTS] and is what [m_NumberOfActivePointLights] is set to, and
    the array keeps its size; in no case is an element past the end of the
    array written. *)
Theorem point_lights_stay_within_MAX_LIGHTS :
  forall (cam : vec3) (view : point_light_view) (dview : directional_light_view)
         (s : state Rest),
    ubo_wf MAX_LIGHTS (ubo s) ->
    (MAX_LIGHTS < Z.of_nat (List.length view) ->
     exists s' : state Rest,
       Update MAX_LIGHTS AssertFatal cam view dview s = (AssertionFailed, s')
       /\ ubo s' = ubo s)
    /\ (Z.of_nat (List.length view) <= MAX_LIGHTS ->
        exists s1 : state Rest,
          UpdatePointLights MAX_LIGHTS AssertFatal cam view s = (Completed tt, s1)
          /\ List.length (copied view (reverse_iteration (m_SortedLight s1)))
             = List.length (m_SortedLight s1)
          /\ m_NumberOfActivePointLights (ubo s1)
             = Z.of_nat (List.length (m_SortedLight s1))
          /\ 0 <= m_NumberOfActivePointLights (ubo s1) <= MAX_LIGHTS
          /\ ubo_wf MAX_LIGHTS (ubo s1)
          /\ exists (o : outcome unit) (s2 : state Rest),
               Update MAX_LIGHTS AssertFatal cam view dview s = (o, s2)
               /\ (o = AssertionFailed \/ o = Completed tt)
               /\ m_PointLights (ubo s2) = m_PointLights (ubo s1)
               /\ m_NumberOfActivePointLights (ubo s2)
                  = m_NumberOfActivePointLights (ubo s1))
    /\ fst (Update MAX_LIGHTS AssertFatal cam view dview s) <> OutOfBounds.
Proof.
  intros cam view dview s Hwf.
  assert (H0 : 0 <= MAX_LIGHTS) by (unfold ubo_wf in Hwf; lia).
  assert (Hstop : MAX_LIGHTS < Z.of_nat (List.length view) ->
                  exists s' : state Rest,
                    Update MAX_LIGHTS AssertFatal cam view dview s
                    = (AssertionFailed, s') /\ ubo s' = ubo s).
  { intros Hgt.
    destruct (UpdatePointLights_stops cam view s H0 Hgt) as (s' & Hrun & Hubo).
    exists s'. unfold Update, bind. rewrite Hrun. now split. }
  assert (Hgo : Z.of_nat (List.length view) <= MAX_LIGHTS ->
                exists s1 : state Rest,
                  UpdatePointLights MAX_LIGHTS AssertFatal cam view s = (Completed tt, s1)
                  /\ List.length (copied view (reverse_iteration (m_SortedLight s1)))
                     = List.length (m_SortedLight s1)
                  /\ m_NumberOfActivePointLights (ubo s1)
                     = Z.of_nat (List.length (m_SortedLight s1))
                  /\ 0 <= m_NumberOfActivePointLights (ubo s1) <= MAX_LIGHTS
                  /\ ubo_wf MAX_LIGHTS (ubo s1)
                  /\ exists (o : outcome unit) (s2 : state Rest),
                       Update MAX_LIGHTS AssertFatal cam view dview s = (o, s2)
                       /\ (o = AssertionFailed \/ o = Completed tt)
                       /\ m_PointLights (ubo s2) = m_PointLights (ubo s1)
                       /\ m_NumberOfActivePointLights (ubo s2)
                          = m_NumberOfActivePointLights (ubo s1)).
  { intros Hle.
    destruct (UpdatePointLights_completes AssertFatal cam view s Hwf Hle)
      as [Hrun Hcount].
    pose proof (insert_all_length cam view []) as Hsize.
    cbn [List.length] in Hsize.
    eexists. split; [exact Hrun |].
    cbn [ubo m_SortedLight m_NumberOfActivePointLights
           set_NumberOfActivePointLights m_PointLights set_PointLights].
    split; [exact Hcount |]. split; [reflexivity |]. split; [lia |]. split.
    { unfold ubo_wf in *.
      cbn [m_PointLights set_NumberOfActivePointLights set_PointLights].
      rewrite length_app, Hcount, length_skipn. lia. }
    unfold Update, bind. rewrite Hrun.
    match goal with
    | |- exists o s2, UpdateDirectionalLights _ _ _ ?s1 = _ /\ _ =>
        destruct (UpdateDirectionalLights_outcome AssertFatal dview s1)
          as (o & s2 & Hd & Ho & Hp & Hn)
    end.
    exists o, s2. repeat split; assumption. }
  split; [exact Hstop |]. split; [exact Hgo |].
  destruct (Z.lt_ge_cases MAX_LIGHTS (Z.of_nat (List.length view))) as [Hgt | Hle].
  - destruct (Hstop Hgt) as (s' & Hrun & _). rewrite Hrun. discriminate.
  - destruct (Hgo Hle) as (s1 & _ & _ & _ & _ & _ & o & s2 & Hrun & Ho & _).
    rewrite Hrun. destruct Ho as [-> | ->]; discriminate.
Qed.

(** C10 (as amended).  For a view of N >= 1 directional lights whose
    assertions all pass (assertions compiled out, or N <= MAX_LIGHTS), the
    directional block completes; after each light of the view has been
    iterated the single slot holds that light's data, so in the end it
    holds the data of the last one; the count of active directional lights
    is N; the point-light array, the point-light count, the other fields
    of the buffer and [m_SortedLight] are as before the block; and this is
    how [Update] ends when its point-light block has completed. *)
Theorem directional_lights_share_one_slot :
  forall (mode : assert_mode) (pre : directional_light_view) (e : entity)
         (d : DirectionalLightComponent.t) (s : state Rest),
    (mode = AssertOff \/ Z.of_nat (List.length (pre ++ [(e, d)])) <= MAX_LIGHTS) ->
    let view := pre ++ [(e, d)] in
    let final :=
      mkState
        (mkUbo (m_PointLights (ubo s)) (ubo_directional d)
               (m_NumberOfActivePointLights (ubo s))
               (Z.of_nat (List.length view))
               (m_Rest (ubo s)))
        (m_SortedLight s) in
    UpdateDirectionalLights MAX_LIGHTS mode view s = (Completed tt, final)
    /\ (forall (before after : directional_light_view) (e' : entity)
               (d' : DirectionalLightComponent.t),
          view = before ++ (e', d') :: after ->
          directional_loop MAX_LIGHTS mode (before ++ [(e', d')]) 0 s
          = (Completed (Z.of_nat (List.length before) + 1),
             set_ubo (set_DirectionalLight (fun _ => ubo_directional d')) s))
    /\ (forall (cam : vec3) (pview : point_light_view) (s0 : state Rest),
          UpdatePointLights MAX_LIGHTS mode cam pview s0 = (Completed tt, s) ->
          Update MAX_LIGHTS mode cam pview view s0 = (Completed tt, final)).
Proof.
  intros mode pre e d s Hpass view final.
  assert (Hrun : UpdateDirectionalLights MAX_LIGHTS mode view s = (Completed tt, final)).
  { unfold UpdateDirectionalLights, bind.
    rewrite directional_loop_passes by (destruct Hpass; [now left | right; subst view; lia]).
    unfold modify, final, view. cbn [Z.add].
    unfold set_ubo, set_NumberOfActiveDirectionalLights, set_DirectionalLight.
    cbn [ubo m_SortedLight m_PointLights m_DirectionalLight
           m_NumberOfActivePointLights m_NumberOfActiveDirectionalLights m_Rest].
    now rewrite slot_after_last. }
  split; [exact Hrun |]. split.
  - intros before after e' d' Hview.
    rewrite directional_loop_passes.
    + rewrite length_app. cbn [List.length].
      replace (0 + Z.of_nat (List.length before + 1))
        with (Z.of_nat (List.length before) + 1) by lia.
      f_equal. unfold set_ubo, set_DirectionalLight.
      now rewrite slot_after_last.
    + destruct Hpass as [-> | Hle]; [now left | right].
      fold view in Hle. rewrite Hview in Hle.
      rewrite !length_app in *. cbn [List.length] in *. lia.
  - intros cam pview s0 Hp. unfold Update, bind. rewrite Hp. exact Hrun.
Qed.

End LightFacts.

(** C10, as stated, fails when the assertion is active: with [MAX_LIGHTS]
    at 2 and three directional lights the run stops at the assertion on
    the third light, and the count of active directional lights is never
    set to 3. *)
Lemma three_directional_lights_stop_the_frame :
  exists s' : VK_LightSystem.state unit,
    VK_LightSystem.UpdateDirectionalLights 2 AssertFatal Scenes.three_suns
      (Scenes.start 2)
    = (AssertionFailed, s')
    /\ m_NumberOfActiveDirectionalLights (VK_LightSystem.ubo s') = 0%Z.
Proof. eexists. split; reflexivity. Qed.

Lemma directional_lights_share_one_slot_witness :
  (AssertFatal = AssertOff
   \/ (Z.of_nat (List.length ([(20%N, Scenes.sun)] ++ [(21%N, Scenes.moon)])) <= 4)%Z)
  /\ VK_LightSystem.UpdateDirectionalLights 4 AssertFatal Scenes.two_suns
       (Scenes.start 4)
     = (Completed tt,
        VK_LightSystem.mkState
          (mkUbo (repeat Scenes.dark 4) (ubo_directional Scenes.moon) 0 2 tt) [])
  /\ VK_LightSystem.directional_loop 4 AssertFatal [(20%N, Scenes.sun)] 0
       (Scenes.start 4)
     = (Completed 1%Z,
        VK_LightSystem.set_ubo
          (VK_LightSystem.set_DirectionalLight (fun _ => ubo_directional Scenes.sun))
          (Scenes.start 4)).
Proof.
  assert (H : AssertFatal = AssertOff
              \/ (Z.of_nat (List.length ([(20%N, Scenes.sun)] ++ [(21%N, Scenes.moon)])) <= 4)%Z)
    by (right; cbn; lia).
  pose proof (@directional_lights_share_one_slot Symbolic.ops 4 unit AssertFatal
                [(20%N, Scenes.sun)] 21%N Scenes.moon (Scenes.start 4) H) as W.
  split; [exact H |]. split; [exact (proj1 W) |].
  exact (proj1 (proj2 W) [] [(21%N, Scenes.moon)] 20%N Scenes.sun eq_refl).
Defined.

Lemma point_lights_stay_within_MAX_LIGHTS_witness :
  VK_LightSystem.ubo_wf 2 (VK_LightSystem.ubo (Scenes.start 2))
  /\ VK_LightSystem.ubo_wf 4 (VK_LightSystem.ubo (Scenes.start 4))
  /\ fst (VK_LightSystem.Update 2 AssertFatal Scenes.origin Scenes.three_lights
            Scenes.two_suns (Scenes.start 2))
     <> OutOfBounds
  /\ (exists s' : VK_LightSystem.state unit,
        VK_LightSystem.Update 2 AssertFatal Scenes.origin Scenes.three_lights
          Scenes.two_suns (Scenes.start 2)
        = (AssertionFailed, s')
        /\ VK_LightSystem.ubo s' = VK_LightSystem.ubo (Scenes.start 2))
  /\ (exists s1 : VK_LightSystem.state unit,
        VK_LightSystem.UpdatePointLights 4 AssertFatal Scenes.origin
          Scenes.three_lights (Scenes.start 4)
        = (Completed tt, s1)).
Proof.
  assert (H2 : VK_LightSystem.ubo_wf 2 (VK_LightSystem.ubo (Scenes.start 2)))
    by reflexivity.
  assert (H4 : VK_LightSystem.ubo_wf 4 (VK_LightSystem.ubo (Scenes.start 4)))
    by reflexivity.
  pose proof (@point_lights_stay_within_MAX_LIGHTS Symbolic.ops 2 unit
                Scenes.origin Scenes.three_lights Scenes.two_suns
                (Scenes.start 2) H2) as W2.
  pose proof (@point_lights_stay_within_MAX_LIGHTS Symbolic.ops 4 unit
                Scenes.origin Scenes.three_lights Scenes.two_suns
                (Scenes.start 4) H4) as W4.
  split; [exact H2 |]. split; [exact H4 |].
  split; [exact (proj2 (proj2 W2)) |].
  split; [apply (proj1 W2); cbn; lia |].
  destruct (proj1 (proj2 W4)) as (s1 & Hrun & _); [cbn; lia |].
  exists s1. exact Hrun.
Defined.

(** With assertions compiled out nothing guards the array: three lights
    and room for two end in a write past the end. *)
Example assertions_off_write_past_the_end :
  fst (VK_LightSystem.Update 2 AssertOff Scenes.origin Scenes.three_lights
         Scenes.two_suns (Scenes.start 2))
  = OutOfBounds.
Proof. reflexivity. Qed.

(** Three lights at squared distances 1, 9 and 4 reach the buffer farthest
    first: entity 2, entity 3, entity 1. *)
Example three_lights_farthest_first :
  exists s' : VK_LightSystem.state unit,
    VK_LightSystem.Update 4 AssertFatal Scenes.origin Scenes.three_lights
      Scenes.two_suns (Scenes.start 4)
    = (Completed tt, s')
    /\ map snd (reverse_iteration (VK_LightSystem.m_SortedLight s')) = [2%N; 3%N; 1%N]
    /\ map fst (reverse_iteration (VK_LightSystem.m_SortedLight s'))
       = [of_Z 9; of_Z 4; of_Z 1]
    /\ VK_LightSystem.active_point_lights (VK_LightSystem.ubo s')
       = [ubo_light (Scenes.transform_at 0 3 0, Scenes.red_light);
          ubo_light (Scenes.transform_at 0 0 2, Scenes.white_light);
          ubo_light (Scenes.transform_at 1 0 0, Scenes.white_light)].
Proof. eexists. split; [vm_compute; reflexivity |]. repeat split. Qed.

(* ===================================================================== *)
(** * The order in which lights reach the uniform buffer                  *)
(* ===================================================================== *)

Section LightOrder.

Context {G : GlmOps}.
Variable MAX_LIGHTS : Z.
Variable Rest : Type.

Import VK_LightSystem.
Local Open Scope Z_scope.

(** When the lights fit, the active part of the array holds the lights of
    [m_SortedLight] from the greatest key to the smallest, each key
    strictly smaller than the one before. *)
Lemma lights_copied_farthest_first (mode : assert_mode) (cam : vec3)
  (view : point_light_view) (s : state Rest) :
  ubo_wf MAX_LIGHTS (ubo s) ->
  Z.of_nat (List.length view) <= MAX_LIGHTS ->
  exists s1 : state Rest,
    UpdatePointLights MAX_LIGHTS mode cam view s = (Completed tt, s1)
    /\ m_SortedLight s1 = insert_all cam view []
    /\ descending_keys (reverse_iteration (m_SortedLight s1))
    /\ active_point_lights (ubo s1)
       = copied view (reverse_iteration (m_SortedLight s1)).
Proof.
  intros Hwf Hle.
  destruct (UpdatePointLights_completes MAX_LIGHTS Rest mode cam view s Hwf Hle)
    as [Hrun Hcount].
  eexists. split; [exact Hrun |]. cbn [m_SortedLight ubo].
  split; [reflexivity |]. split.
  - apply ascending_rev_descending, insert_all_ascending. constructor.
  - unfold active_point_lights.
    cbn [m_NumberOfActivePointLights set_NumberOfActivePointLights
           m_PointLights set_PointLights].
    rewrite Nat2Z.id, <- Hcount, firstn_app, Nat.sub_diag, firstn_all.
    cbn [firstn]. now rewrite app_nil_r.
Qed.

(** With no two lights at equivalent distances, every light is in
    [m_SortedLight]. *)
Lemma distinct_distances_keep_every_light (cam : vec3) (view : point_light_view) :
  forall m : float_map,
    pairwise_distinguishable (light_keys cam view) ->
    (forall a, In a (light_keys cam view) -> key_is_new (fst a) m) ->
    Permutation (light_keys cam view ++ m) (insert_all cam view m).
Proof.
  induction view as [| [e [t p]] view IH]; intros m Hpair Hnew; [reflexivity |].
  rewrite insert_all_cons. cbn [fst snd].
  change (light_keys cam ((e, (t, p)) :: view))
    with ((distanceToCam cam t, e) :: light_keys cam view) in *.
  inversion Hpair as [| ? ? Hfirst Hrest]; subst.
  assert (Hk : key_is_new (distanceToCam cam t) m)
    by (apply (Hnew (distanceToCam cam t, e)); now left).
  pose proof (map_insert_new_key _ e m Hk) as Hperm.
  rewrite <- IH.
  - cbn [app]. rewrite <- Hperm. apply Permutation_middle.
  - exact Hrest.
  - intros a Ha. unfold key_is_new.
    eapply Permutation_Forall; [exact Hperm |].
    constructor; [| apply Hnew; now right].
    cbn [fst]. rewrite Forall_forall in Hfirst.
    destruct (Hfirst a Ha) as [H | H]; [now right | now left].
Qed.

(** Two lights at equivalent distances: the one iterated second is not
    stored. *)
Lemma equivalent_distance_drops_second_light (cam : vec3)
  (e1 e2 : entity) (c1 c2 : TransformComponent * PointLightComponent.t) :
  flt (distanceToCam cam (fst c1)) (distanceToCam cam (fst c2)) = false ->
  flt (distanceToCam cam (fst c2)) (distanceToCam cam (fst c1)) = false ->
  insert_all cam [(e1, c1); (e2, c2)] [] = [(distanceToCam cam (fst c1), e1)].
Proof.
  intros H1 H2. unfold insert_all. cbn [fold_left fst snd map_insert].
  now rewrite H2, H1.
Qed.

End LightOrder.

(** C2, at the failing input.  Two point lights at the same squared
    distance 1 from the camera: [Update] completes, [m_SortedLight] holds
    only entity 7, one light is counted as active, the array holds the
    light of entity 7 alone, and [Render] draws one light.  The light of
    entity 8 is dropped. *)
Lemma equidistant_light_is_dropped :
  VK_LightSystem.distanceToCam Scenes.origin (Scenes.transform_at 1 0 0) = of_Z 1
  /\ VK_LightSystem.distanceToCam Scenes.origin (Scenes.transform_at 0 1 0) = of_Z 1
  /\ exists s' : VK_LightSystem.state unit,
       VK_LightSystem.Update 128 AssertFatal Scenes.origin
         Scenes.equidistant_lights [] (Scenes.start 128)
       = (Completed tt, s')
       /\ VK_LightSystem.m_SortedLight s' = [(of_Z 1, 7%N)]
       /\ m_NumberOfActivePointLights (VK_LightSystem.ubo s') = 1%Z
       /\ VK_LightSystem.active_point_lights (VK_LightSystem.ubo s')
          = [ubo_light (Scenes.transform_at 1 0 0, Scenes.white_light)]
       /\ VK_LightSystem.Render Scenes.equidistant_lights
            (VK_LightSystem.m_SortedLight s')
          = Some [vkCmdBindDescriptorSets;
                  Pipeline_Bind VK_LightSystem.m_Pipeline;
                  vkCmdPushConstants_PointLight
                    (Vec4 (of_Z 1) (of_Z 0) (of_Z 0) (of_Z 1))
                    (Vec4 (of_Z 1) (of_Z 1) (of_Z 1) (of_Z 1))
                    (of_Z 1);
                  vkCmdDraw 6 1 0 0].
Proof.
  split; [reflexivity |]. split; [reflexivity |].
  eexists. split; [vm_compute; reflexivity |].
  repeat split; reflexivity.
Qed.

(* ===================================================================== *)
(** * Facts about Engine::RunScripts                                      *)
(* ===================================================================== *)

Lemma already_logged_In (log : list N) (id : N) :
  Engine.already_logged log id = true <-> In id log.
Proof.
  induction log as [| c log IH]; cbn; [split; [discriminate | tauto] |].
  destruct (N.eqb_spec c id) as [-> | Hne].
  - split; auto.
  - rewrite IH. split; [auto | intros [H | H]; [congruence | exact H]].
Qed.

(** What one call adds to the static [log]: exactly the ids it warned
    about, none of which was in [log] before, none twice. *)
Lemma RunScripts_log (view : list (entity * ScriptComponent.t)) :
  forall log : list N,
    snd (Engine.RunScripts view log)
    = log ++ warned_ids (fst (Engine.RunScripts view log))
    /\ NoDup (warned_ids (fst (Engine.RunScripts view log)))
    /\ (forall id, In id (warned_ids (fst (Engine.RunScripts view log))) ->
                   ~ In id log).
Proof.
  induction view as [| [e sc] view IH]; intros log; cbn [Engine.RunScripts].
  - cbn. rewrite app_nil_r. repeat split; [constructor | tauto].
  - destruct (ScriptComponent.m_Script sc) as [script |].
    + specialize (IH log). destruct (Engine.RunScripts view log) as [evs log'].
      cbn [fst snd warned_ids] in *. exact IH.
    + destruct (Engine.already_logged log (Engine.static_cast_uint e)) eqn:Hlogged.
      * cbn. rewrite app_nil_r. repeat split; [constructor | tauto].
      * specialize (IH (log ++ [Engine.static_cast_uint e])).
        destruct (Engine.RunScripts view (log ++ [Engine.static_cast_uint e]))
          as [evs log'].
        cbn [fst snd warned_ids] in *. destruct IH as (Hlog & Hnd & Hfresh).
        assert (Hnot : ~ In (Engine.static_cast_uint e) log).
        { rewrite <- already_logged_In. now rewrite Hlogged. }
        split; [now rewrite Hlog, <- app_assoc |]. split.
        -- constructor; [| exact Hnd].
           intros Hin. apply (Hfresh _ Hin). apply in_or_app. right. now left.
        -- intros id [<- | Hin]; [exact Hnot |].
           intros Hl. apply (Hfresh _ Hin). apply in_or_app. now left.
Qed.

(** X28.  Over a whole session, one call of [RunScripts] per frame with
    the static [log] carried along, no entity id is warned about twice and
    none that was in [log] at the start is warned about. *)
Lemma session_warns_once (views : list (list (entity * ScriptComponent.t))) :
  forall log : list N,
    NoDup (warned_ids (List.concat (fst (Engine.session views log))))
    /\ (forall id, In id (warned_ids (List.concat (fst (Engine.session views log)))) ->
                   ~ In id log).
Proof.
  assert (Happ : forall a b, warned_ids (a ++ b) = warned_ids a ++ warned_ids b).
  { induction a as [| [e | id] a IHa]; intros b; cbn; [| | rewrite IHa]; auto. }
  induction views as [| view views IH]; intros log; cbn [Engine.session].
  - cbn. split; [constructor | tauto].
  - destruct (RunScripts_log view log) as (Hlog & Hnd & Hfresh).
    destruct (Engine.RunScripts view log) as [evs log1]. cbn [fst snd] in *.
    specialize (IH log1). destruct (Engine.session views log1) as [evss log2].
    cbn [fst snd List.concat] in *. destruct IH as [IHnd IHfresh].
    rewrite Happ. split.
    + apply NoDup_app; [exact Hnd | exact IHnd |].
      intros id Hin Hin2. apply (IHfresh _ Hin2). rewrite Hlog.
      apply in_or_app. now right.
    + intros id Hin Hl. apply in_app_or in Hin. destruct Hin as [Hin | Hin].
      * exact (Hfresh _ Hin Hl).
      * apply (IHfresh _ Hin). rewrite Hlog. apply in_or_app. now left.
Qed.

(** The early [return]: once a script-less entity that is already in
    [log] is met, nothing after it in the view is run. *)
Lemma RunScripts_stops_at_logged_entity
  (before after : list (entity * ScriptComponent.t)) (e : entity)
  (sc : ScriptComponent.t) (log : list N) :
  ScriptComponent.m_Script sc = None ->
  In (Engine.static_cast_uint e) log ->
  Engine.RunScripts (before ++ (e, sc) :: after) log
  = Engine.RunScripts (before ++ [(e, sc)]) log.
Proof.
  intros Hnone Hin. revert log Hin.
  induction before as [| [e0 sc0] before IH]; intros log Hin; cbn [app Engine.RunScripts].
  - rewrite Hnone. apply already_logged_In in Hin. now rewrite Hin.
  - destruct (ScriptComponent.m_Script sc0).
    + now rewrite IH.
    + destruct (Engine.already_logged log (Engine.static_cast_uint e0));
        [reflexivity |].
      rewrite IH; [reflexivity |]. apply in_or_app. now left.
Qed.

(** C3, at the failing input.  Entity 1 has no script, entity 2 has one.
    The first call warns about entity 1 and updates entity 2; the second
    call, made with the [log] the first one left, returns at entity 1 and
    the script of entity 2 receives no [OnUpdate]. *)
Lemma scripted_entity_skipped_after_repeated_warning :
  Engine.RunScripts Scenes.duck_after_scriptless []
  = ([Engine.LOG_CORE_WARN_no_script 1; Engine.Script_OnUpdate 2%N], [1%N])
  /\ Engine.RunScripts Scenes.duck_after_scriptless [1%N] = ([], [1%N])
  /\ Engine.scripted Scenes.duck_after_scriptless = [2%N]
  /\ updated_entities (fst (Engine.RunScripts Scenes.duck_after_scriptless [1%N]))
     = [].
Proof. repeat split. Qed.

(* ===================================================================== *)
(** * Facts about render-system construction                              *)
(* ===================================================================== *)

Lemma CreatePipelineLayout_failure (reply : driver_reply) (s : system) :
  result reply <> VK_SUCCESS ->
  CreatePipelineLayout reply s
  = (Completed tt,
     mkSystem (layout_after reply) (m_Pipelines s)
       (core_log s ++ [(Log.critical, "failed to create pipeline layout!"%string)])).
Proof.
  intros Hfail. unfold CreatePipelineLayout, bind, vkCreatePipelineLayout.
  replace (Z.eqb (result reply) VK_SUCCESS) with false
    by (symmetry; now apply Z.eqb_neq).
  reflexivity.
Qed.

Lemma CreatePipelineLayout_success (reply : driver_reply) (s : system) :
  result reply = VK_SUCCESS ->
  CreatePipelineLayout reply s
  = (Completed tt, mkSystem (layout_after reply) (m_Pipelines s) (core_log s)).
Proof.
  intros Hok. unfold CreatePipelineLayout, bind, vkCreatePipelineLayout.
  rewrite Hok. reflexivity.
Qed.

Lemma CreatePipeline_run (mode : assert_mode) (vert frag : string) (sp : SubPass)
  (s : system) :
  CreatePipeline mode vert frag sp s
  = if match mode with
       | AssertFatal => N.eqb (m_PipelineLayout s) nullptr
       | AssertOff => false
       end
    then (AssertionFailed, s)
    else (Completed tt,
          mkSystem (m_PipelineLayout s)
            (m_Pipelines s ++ [mkPipeline vert frag (m_PipelineLayout s) sp])
            (core_log s)).
Proof.
  unfold CreatePipeline, bind, get_state.
  destruct (N.eqb (m_PipelineLayout s) nullptr), mode; reflexivity.
Qed.

(** C4 (as amended).  When [vkCreatePipelineLayout] fails, the failure is
    logged at the highest severity and [CreatePipelineLayout] returns; the
    constructor of [VK_LightSystem] and of [VK_RenderSystemPbrNoMap] then
    runs [CreatePipeline], which stops at its assertion only when
    assertions are active and the layout handle is null, and otherwise
    creates the pipeline with the handle the failed call left. *)
Theorem failed_layout_is_logged_and_construction_goes_on :
  forall (mode : assert_mode) (reply : driver_reply) (uninit : VkPipelineLayout)
         (log : list Log.record),
    result reply <> VK_SUCCESS ->
    let logged := log ++ [(Log.critical, "failed to create pipeline layout!"%string)] in
    let stopped :=
      match mode with
      | AssertFatal => N.eqb (layout_after reply) nullptr
      | AssertOff => false
      end in
    CreatePipelineLayout reply (fresh_system uninit log)
    = (Completed tt, mkSystem (layout_after reply) [] logged)
    /\ VK_LightSystem.construct mode reply (fresh_system uninit log)
       = (if stopped
          then (AssertionFailed, mkSystem (layout_after reply) [] logged)
          else (Completed tt,
                mkSystem (layout_after reply)
                  [mkPipeline "bin/pointLight.vert.spv" "bin/pointLight.frag.spv"
                     (layout_after reply) SUBPASS_TRANSPARENCY]
                  logged))
    /\ VK_RenderSystemPbrNoMap.construct mode reply (fresh_system uninit log)
       = (if stopped
          then (AssertionFailed, mkSystem (layout_after reply) [] logged)
          else (Completed tt,
                mkSystem (layout_after reply)
                  [mkPipeline "bin/pbrNoMap.vert.spv" "bin/pbrNoMap.frag.spv"
                     (layout_after reply) SUBPASS_GEOMETRY]
                  logged)).
Proof.
  intros mode reply uninit log Hfail logged stopped.
  pose proof (CreatePipelineLayout_failure reply (fresh_system uninit log) Hfail) as Hl.
  cbn [fresh_system m_Pipelines core_log] in Hl. fold logged in Hl.
  split; [exact Hl |].
  unfold VK_LightSystem.construct, VK_RenderSystemPbrNoMap.construct, bind.
  rewrite Hl, !CreatePipeline_run. cbn [m_PipelineLayout m_Pipelines core_log app].
  fold stopped. split; reflexivity.
Qed.

Lemma failed_layout_is_logged_and_construction_goes_on_witness :
  Scenes.VK_ERROR_OUT_OF_HOST_MEMORY <> VK_SUCCESS
  /\ CreatePipelineLayout (mkReply Scenes.VK_ERROR_OUT_OF_HOST_MEMORY nullptr) (fresh_system nullptr [])
     = (Completed tt,
        mkSystem nullptr [] [(Log.critical, "failed to create pipeline layout!"%string)]).
Proof.
  assert (H : result (mkReply Scenes.VK_ERROR_OUT_OF_HOST_MEMORY nullptr) <> VK_SUCCESS)
    by discriminate.
  split; [exact H |].
  exact (proj1 (failed_layout_is_logged_and_construction_goes_on AssertFatal
                  (mkReply Scenes.VK_ERROR_OUT_OF_HOST_MEMORY nullptr) nullptr [] H)).
Defined.

(** C4, as stated, fails.  With assertions active and a stale non-null
    handle in [m_PipelineLayout], and with assertions compiled out and a
    null handle, both constructors complete after the failed layout
    creation: the failure is logged and a pipeline is created on the
    invalid layout. *)
Lemma construction_continues_after_failed_layout :
  VK_LightSystem.construct AssertFatal
    (mkReply Scenes.VK_ERROR_OUT_OF_HOST_MEMORY 57005%N) (fresh_system 57005%N [])
  = (Completed tt,
     mkSystem 57005%N
       [mkPipeline "bin/pointLight.vert.spv" "bin/pointLight.frag.spv" 57005%N
          SUBPASS_TRANSPARENCY]
       [(Log.critical, "failed to create pipeline layout!"%string)])
  /\ VK_RenderSystemPbrNoMap.construct AssertFatal
       (mkReply Scenes.VK_ERROR_OUT_OF_HOST_MEMORY 57005%N) (fresh_system 57005%N [])
     = (Completed tt,
        mkSystem 57005%N
          [mkPipeline "bin/pbrNoMap.vert.spv" "bin/pbrNoMap.frag.spv" 57005%N
             SUBPASS_GEOMETRY]
          [(Log.critical, "failed to create pipeline layout!"%string)])
  /\ VK_LightSystem.construct AssertOff
       (mkReply Scenes.VK_ERROR_OUT_OF_HOST_MEMORY nullptr) (fresh_system nullptr [])
     = (Completed tt,
        mkSystem nullptr
          [mkPipeline "bin/pointLight.vert.spv" "bin/pointLight.frag.spv" nullptr
             SUBPASS_TRANSPARENCY]
          [(Log.critical, "failed to create pipeline layout!"%string)]).
Proof. repeat split. Qed.

(* ===================================================================== *)
(** * Facts about the geometry and shadow passes                          *)
(* ===================================================================== *)

Section RenderFacts.

Context {G : GlmOps}.

Lemma drawn_entities_app (a b : list command) :
  drawn_entities (a ++ b) = drawn_entities a ++ drawn_entities b.
Proof.
  induction a as [| c a IH]; [reflexivity |].
  destruct c; cbn; rewrite ?IH; reflexivity.
Qed.

Lemma enabled_entities_cons {T : Type} (e : entity) (mesh : MeshComponent.t) (t : T)
  (view : list (entity * (MeshComponent.t * T))) :
  enabled_entities ((e, (mesh, t)) :: view)
  = if MeshComponent.m_Enabled mesh
    then e :: enabled_entities view
    else enabled_entities view.
Proof.
  unfold enabled_entities. cbn [filter fst snd].
  destruct (MeshComponent.m_Enabled mesh); reflexivity.
Qed.

Lemma PbrNoMap_draws_enabled (view : VK_RenderSystemPbrNoMap.mesh_view) :
  drawn_entities (VK_RenderSystemPbrNoMap.RenderEntities view)
  = enabled_entities view.
Proof.
  unfold VK_RenderSystemPbrNoMap.RenderEntities. cbn [drawn_entities].
  induction view as [| [e [mesh transform]] view IH]; [reflexivity |].
  rewrite enabled_entities_cons. cbn [VK_RenderSystemPbrNoMap.render_loop].
  destruct (MeshComponent.m_Enabled mesh); cbn [drawn_entities]; now rewrite IH.
Qed.

Lemma Shadow_loop_draws_enabled (view : VK_RenderSystemShadow.mesh_view) :
  drawn_entities (fst (VK_RenderSystemShadow.render_loop view))
  = enabled_entities view
  /\ map (fun entry => (fst entry, fst (snd entry)))
         (snd (VK_RenderSystemShadow.render_loop view))
     = map (fun entry => (fst entry, fst (snd entry))) view.
Proof.
  induction view as [| [e [mesh transform]] view IH]; [split; reflexivity |].
  rewrite enabled_entities_cons. cbn [VK_RenderSystemShadow.render_loop].
  destruct (GetMat4 transform) as [modelMatrix transform1].
  destruct (GetNormalMatrix transform1) as [normalMatrix transform2].
  destruct (VK_RenderSystemShadow.render_loop view) as [cmds rest'].
  cbn [fst snd] in *. destruct IH as [IH1 IH2]. split.
  - cbn [drawn_entities]. rewrite drawn_entities_app, IH1.
    destruct (MeshComponent.m_Enabled mesh); reflexivity.
  - cbn [map fst snd]. now rewrite IH2.
Qed.

Lemma Shadow_draws_enabled (view : VK_RenderSystemShadow.mesh_view)
  (directionalLight : DirectionalLightComponent.t) :
  drawn_entities (fst (VK_RenderSystemShadow.RenderEntities view directionalLight))
  = enabled_entities view.
Proof.
  unfold VK_RenderSystemShadow.RenderEntities.
  destruct (Shadow_loop_draws_enabled view) as [H _].
  destruct (VK_RenderSystemShadow.render_loop view) as [cmds view'].
  cbn [fst] in *.
  destruct (Z.eqb (DirectionalLightComponent.m_RenderPass directionalLight) 0);
    exact H.
Qed.

Lemma In_enabled_entities {T : Type} (view : list (entity * (MeshComponent.t * T)))
  (e : entity) :
  In e (enabled_entities view)
  <-> exists (mesh : MeshComponent.t) (t : T),
        In (e, (mesh, t)) view /\ MeshComponent.m_Enabled mesh = true.
Proof.
  unfold enabled_entities. rewrite in_map_iff. split.
  - intros [[e' [mesh t]] [He Hin]]. cbn in He. subst e'.
    apply filter_In in Hin. destruct Hin as [Hin Hen]. now exists mesh, t.
  - intros (mesh & t & Hin & Hen). exists (e, (mesh, t)). split; [reflexivity |].
    apply filter_In. now split.
Qed.

Lemma set_mesh_enabled_entities {T : Type} (e : entity) (b : bool)
  (view : list (entity * (MeshComponent.t * T))) :
  map fst (set_mesh_enabled e b view) = map fst view.
Proof.
  induction view as [| [e' [mesh t]] view IH]; [reflexivity |].
  cbn [set_mesh_enabled]. destruct (N.eqb e' e); cbn [map fst]; now rewrite ?IH.
Qed.

Lemma not_in_view_not_enabled {T : Type} (view : list (entity * (MeshComponent.t * T)))
  (e : entity) :
  ~ In e (map fst view) -> ~ In e (enabled_entities view).
Proof.
  intros Hnot Hin. apply In_enabled_entities in Hin.
  destruct Hin as (mesh & t & Hin & _). apply Hnot.
  apply in_map_iff. now exists (e, (mesh, t)).
Qed.

Lemma set_mesh_enabled_toggles {T : Type} (e : entity) (b : bool)
  (view : list (entity * (MeshComponent.t * T))) :
  NoDup (map fst view) -> In e (map fst view) ->
  (In e (enabled_entities (set_mesh_enabled e b view)) <-> b = true).
Proof.
  induction view as [| [e' [mesh t]] view IH]; intros Hnd Hin; [destruct Hin |].
  cbn [map fst] in Hnd, Hin. inversion Hnd as [| ? ? Hfresh Hnd']; subst.
  cbn [set_mesh_enabled]. destruct (N.eqb_spec e' e) as [-> | Hne].
  - rewrite enabled_entities_cons. cbn [MeshComponent.set_Enabled MeshComponent.m_Enabled].
    destruct b.
    + split; [reflexivity | intros _; now left].
    + split; [| discriminate]. intros H.
      exfalso. exact (not_in_view_not_enabled view e Hfresh H).
  - destruct Hin as [He | Hin]; [congruence |].
    rewrite enabled_entities_cons.
    destruct (MeshComponent.m_Enabled mesh).
    + rewrite <- (IH Hnd' Hin). split; [intros [H | H]; [congruence | exact H] |].
      intros H. now right.
    + now apply IH.
Qed.

Lemma set_mesh_enabled_others {T : Type} (e e' : entity) (b : bool)
  (view : list (entity * (MeshComponent.t * T))) :
  e' <> e ->
  (In e' (enabled_entities (set_mesh_enabled e b view))
   <-> In e' (enabled_entities view)).
Proof.
  intros Hne. induction view as [| [e0 [mesh t]] view IH]; [reflexivity |].
  cbn [set_mesh_enabled]. destruct (N.eqb_spec e0 e) as [-> | Hne0].
  - rewrite !enabled_entities_cons.
    cbn [MeshComponent.set_Enabled MeshComponent.m_Enabled].
    destruct b, (MeshComponent.m_Enabled mesh); cbn [In]; try reflexivity.
    + split; [intros [H | H]; [congruence | exact H] | intros H; now right].
    + split; [intros H; now right | intros [H | H]; [congruence | exact H]].
  - rewrite !enabled_entities_cons.
    destruct (MeshComponent.m_Enabled mesh); cbn [In]; now rewrite IH.
Qed.

(** C6.  In the geometry pass and in the shadow pass the entities for
    which a draw call is recorded are exactly the entities of the view
    whose mesh is enabled, in iteration order; the passes are total (a
    disabled mesh is passed over); the shadow pass leaves entities and
    meshes of the view as they are; and setting [m_Enabled] of an entity of
    the view to [b] keeps the entity in the view and makes the next frame
    draw it exactly when [b] is [true], the other entities being drawn as
    before. *)
Theorem draw_calls_follow_enabled_flag :
  forall (view : list (entity * (MeshComponent.t * TransformComponent)))
         (directionalLight : DirectionalLightComponent.t) (e : entity) (b : bool),
    NoDup (map fst view) ->
    In e (map fst view) ->
    let next := set_mesh_enabled e b view in
    drawn_entities (VK_RenderSystemPbrNoMap.RenderEntities view)
    = enabled_entities view
    /\ drawn_entities (fst (VK_RenderSystemShadow.RenderEntities view directionalLight))
       = enabled_entities view
    /\ (forall e' : entity,
          In e' (drawn_entities (VK_RenderSystemPbrNoMap.RenderEntities view))
          <-> exists (mesh : MeshComponent.t) (t : TransformComponent),
                In (e', (mesh, t)) view /\ MeshComponent.m_Enabled mesh = true)
    /\ map (fun entry => (fst entry, fst (snd entry)))
           (snd (VK_RenderSystemShadow.RenderEntities view directionalLight))
       = map (fun entry => (fst entry, fst (snd entry))) view
    /\ map fst next = map fst view
    /\ (In e (drawn_entities (VK_RenderSystemPbrNoMap.RenderEntities next))
        <-> b = true)
    /\ (In e (drawn_entities
                (fst (VK_RenderSystemShadow.RenderEntities next directionalLight)))
        <-> b = true)
    /\ (forall e' : entity,
          e' <> e ->
          (In e' (drawn_entities (VK_RenderSystemPbrNoMap.RenderEntities next))
           <-> In e' (drawn_entities (VK_RenderSystemPbrNoMap.RenderEntities view)))).
Proof.
  intros view directionalLight e b Hnd Hin next.
  split; [apply PbrNoMap_draws_enabled |].
  split; [apply Shadow_draws_enabled |].
  split; [intros e'; rewrite PbrNoMap_draws_enabled; apply In_enabled_entities |].
  split.
  { unfold VK_RenderSystemShadow.RenderEntities.
    destruct (Shadow_loop_draws_enabled view) as [_ H].
    destruct (VK_RenderSystemShadow.render_loop view) as [cmds view'].
    exact H. }
  split; [apply set_mesh_enabled_entities |].
  split; [rewrite PbrNoMap_draws_enabled; now apply set_mesh_enabled_toggles |].
  split; [rewrite Shadow_draws_enabled; now apply set_mesh_enabled_toggles |].
  intros e' Hne. rewrite !PbrNoMap_draws_enabled.
  now apply set_mesh_enabled_others.
Qed.

End RenderFacts.

Lemma draw_calls_follow_enabled_flag_witness :
  NoDup (map fst Scenes.mesh_scene)
  /\ In 2%N (map fst Scenes.mesh_scene)
  /\ drawn_entities (VK_RenderSystemPbrNoMap.RenderEntities Scenes.mesh_scene)
     = [1%N; 3%N]
  /\ (In 2%N (drawn_entities
                (VK_RenderSystemPbrNoMap.RenderEntities
                   (set_mesh_enabled 2%N true Scenes.mesh_scene)))
      <-> true = true).
Proof.
  assert (Hnd : NoDup (map fst Scenes.mesh_scene)).
  { cbn. repeat constructor; cbn; intuition discriminate. }
  assert (Hin : In 2%N (map fst Scenes.mesh_scene)) by (cbn; auto).
  split; [exact Hnd |]. split; [exact Hin |].
  pose proof (@draw_calls_follow_enabled_flag Symbolic.ops Scenes.mesh_scene
                Scenes.sun 2%N true Hnd Hin) as H.
  split; [exact (proj1 H) |].
  exact (proj1 (proj2 (proj2 (proj2 (proj2 (proj2 H)))))).
Defined.

(* ===================================================================== *)
(** * Facts about the paused state of the main loop                       *)
(* ===================================================================== *)

Section PauseFacts.

Variable ENGINE_KEY_F : Z.

Import Engine.

Lemma OnEvent_paused (event : Event) (eng : Engine.t) :
  m_Paused (fst (OnEvent ENGINE_KEY_F event eng))
  = paused_after [event] (m_Paused eng).
Proof.
  destruct event as [width height | keyCode | | tag]; cbn.
  - destruct (N.eqb width 0 || N.eqb height 0); reflexivity.
  - destruct (Z.eqb keyCode ENGINE_KEY_F); reflexivity.
  - reflexivity.
  - reflexivity.
Qed.

Lemma OnEvent_running (event : Event) (eng : Engine.t) :
  m_Running (fst (OnEvent ENGINE_KEY_F event eng)) = m_Running eng.
Proof.
  destruct event as [width height | keyCode | | tag]; cbn.
  - destruct (N.eqb width 0 || N.eqb height 0); reflexivity.
  - destruct (Z.eqb keyCode ENGINE_KEY_F); reflexivity.
  - reflexivity.
  - reflexivity.
Qed.

Lemma OnEvent_no_update_or_render (event : Event) (eng : Engine.t) :
  filter is_update_or_render (snd (OnEvent ENGINE_KEY_F event eng)) = []
  /\ ~ In sleep_for_16ms (snd (OnEvent ENGINE_KEY_F event eng)).
Proof.
  destruct event as [width height | keyCode | | tag]; cbn.
  - destruct (N.eqb width 0 || N.eqb height 0); cbn;
      (split; [reflexivity | intuition discriminate]).
  - destruct (Z.eqb keyCode ENGINE_KEY_F); cbn;
      (split; [reflexivity | intuition discriminate]).
  - split; [reflexivity | intuition discriminate].
  - split; [reflexivity | intuition discriminate].
Qed.

Lemma paused_after_cons (event : Event) (events : list Event) (paused : bool) :
  paused_after (event :: events) paused
  = paused_after events (paused_after [event] paused).
Proof.
  unfold paused_after. cbn [last_resize_is_empty].
  destruct (last_resize_is_empty events); [reflexivity |].
  destruct event; reflexivity.
Qed.

Lemma paused_after_app (a b : list Event) (paused : bool) :
  paused_after (a ++ b) paused = paused_after b (paused_after a paused).
Proof.
  revert paused. induction a as [| event a IH]; intros paused; [reflexivity |].
  cbn [app]. rewrite paused_after_cons, IH, <- paused_after_cons. reflexivity.
Qed.

Lemma OnEvents_paused (events : list Event) :
  forall eng : Engine.t,
    m_Paused (fst (OnEvents ENGINE_KEY_F events eng))
    = paused_after events (m_Paused eng)
    /\ filter is_update_or_render (snd (OnEvents ENGINE_KEY_F events eng)) = []
    /\ ~ In sleep_for_16ms (snd (OnEvents ENGINE_KEY_F events eng)).
Proof.
  induction events as [| event events IH]; intros eng.
  - cbn. repeat split. tauto.
  - cbn [OnEvents].
    pose proof (OnEvent_paused event eng) as Hp.
    destruct (OnEvent_no_update_or_render event eng) as [Hf Hs].
    destruct (OnEvent ENGINE_KEY_F event eng) as [eng1 a1]. cbn [fst snd] in *.
    specialize (IH eng1).
    destruct (OnEvents ENGINE_KEY_F events eng1) as [eng2 a2]. cbn [fst snd] in *.
    destruct IH as (IHp & IHf & IHs).
    split; [rewrite paused_after_cons, <- Hp; exact IHp |].
    split; [rewrite filter_app, Hf, IHf; reflexivity |].
    intros Hin. apply in_app_or in Hin. tauto.
Qed.

Lemma OnUpdate_paused (input : frame_input) (eng : Engine.t) :
  m_Paused (fst (OnUpdate ENGINE_KEY_F input eng))
  = paused_after (events_of input) (m_Paused eng)
  /\ filter is_update_or_render (snd (OnUpdate ENGINE_KEY_F input eng)) = []
  /\ ~ In sleep_for_16ms (snd (OnUpdate ENGINE_KEY_F input eng))
  /\ In Window_OnUpdate (snd (OnUpdate ENGINE_KEY_F input eng)).
Proof.
  unfold OnUpdate, events_of.
  destruct (OnEvents_paused (window_events input) eng) as (Hp1 & Hf1 & Hs1).
  destruct (OnEvents ENGINE_KEY_F (window_events input) eng) as [eng1 a1].
  cbn [fst snd] in *.
  assert (Hsd : exists eng2 a2,
             (if window_ok input then (eng1, []) else Shutdown eng1) = (eng2, a2)
             /\ m_Paused eng2 = m_Paused eng1
             /\ filter is_update_or_render a2 = []
             /\ ~ In sleep_for_16ms a2).
  { destruct (window_ok input).
    - exists eng1, []. repeat split. tauto.
    - eexists _, _. split; [reflexivity |]. repeat split. cbn. intuition discriminate. }
  destruct Hsd as (eng2 & a2 & -> & Hp2 & Hf2 & Hs2).
  destruct (OnEvents_paused (controller_events input) eng2) as (Hp3 & Hf3 & Hs3).
  destruct (OnEvents ENGINE_KEY_F (controller_events input) eng2) as [eng3 a3].
  cbn [fst snd] in *.
  destruct (OnEvents_paused (m_EventQueue input) eng3) as (Hp4 & Hf4 & Hs4).
  destruct (OnEvents ENGINE_KEY_F (m_EventQueue input) eng3) as [eng4 a4].
  cbn [fst snd] in *.
  split.
  { rewrite !paused_after_app, <- Hp1, <- Hp2, <- Hp3. exact Hp4. }
  split.
  { cbn [filter is_update_or_render]. rewrite !filter_app.
    cbn [filter is_update_or_render]. rewrite !filter_app, Hf1, Hf2, Hf3, Hf4.
    reflexivity. }
  split; [| now left].
  intros [H | H]; [discriminate |].
  repeat (apply in_app_or in H; destruct H as [H | H]; try tauto).
  destruct H as [H | H]; [discriminate |].
  apply in_app_or in H. tauto.
Qed.

Lemma paused_after_resize_last (events : list Event) (width height : N)
  (paused : bool) :
  paused_after (events ++ [WindowResizeEvent width height]) paused
  = (N.eqb width 0 || N.eqb height 0).
Proof. rewrite paused_after_app. reflexivity. Qed.

End PauseFacts.

(** The window is minimised, stays so for a frame, and is restored: the
    first two passes only sleep, the third updates and renders again. *)
Example minimise_then_restore :
  snd (Engine.main_loop 70
         [Scenes.resize_frame 0 0; Scenes.quiet_frame; Scenes.resize_frame 800 600]
         Engine.started)
  = [Engine.Window_OnUpdate;
     Engine.LOG_CORE_INFO "application paused";
     Engine.DispatchToLayersAndApplication (Engine.WindowResizeEvent 0 0);
     Engine.Controller_OnUpdate;
     Engine.sleep_for_16ms;
     Engine.Window_OnUpdate;
     Engine.Controller_OnUpdate;
     Engine.sleep_for_16ms;
     Engine.Window_OnUpdate;
     Engine.DispatchToLayersAndApplication (Engine.WindowResizeEvent 800 600);
     Engine.Controller_OnUpdate;
     Engine.Application_OnUpdate;
     Engine.Engine_RunScripts;
     Engine.Engine_OnRender].
Proof. reflexivity. Qed.

(* ===================================================================== *)
(** * Facts about VK_Device                                               *)
(* ===================================================================== *)

Section DeviceFacts.

Import VK_Device.
Local Open Scope Z_scope.

Lemma FindMemoryType_loop_spec (typeFilter properties : Z)
  (memoryTypes : list VkMemoryType) :
  forall i : Z,
    match FindMemoryType_loop typeFilter properties i memoryTypes with
    | Some r =>
        exists (k : nat) (t : VkMemoryType),
          r = i + Z.of_nat k
          /\ nth_error memoryTypes k = Some t
          /\ memory_type_fits typeFilter properties r t = true
          /\ forall (j : nat) (t' : VkMemoryType),
               (j < k)%nat -> nth_error memoryTypes j = Some t' ->
               memory_type_fits typeFilter properties (i + Z.of_nat j) t' = false
    | None =>
        forall (j : nat) (t' : VkMemoryType),
          nth_error memoryTypes j = Some t' ->
          memory_type_fits typeFilter properties (i + Z.of_nat j) t' = false
    end.
Proof.
  induction memoryTypes as [| t rest IH]; intros i; cbn [FindMemoryType_loop].
  - intros j t' H. destruct j; discriminate H.
  - destruct (memory_type_fits typeFilter properties i t) eqn:Hfit.
    + exists 0%nat, t. rewrite Z.add_0_r. repeat split; try assumption.
      intros j t' Hj. lia.
    + specialize (IH (i + 1)).
      destruct (FindMemoryType_loop typeFilter properties (i + 1) rest) as [r |].
      * destruct IH as (k & t0 & Hr & Hnth & Hfits & Hbefore).
        exists (S k), t0. split; [lia |]. split; [exact Hnth |].
        split; [exact Hfits |].
        intros j t' Hj Hn. destruct j as [| j]; cbn in Hn.
        -- injection Hn as <-. now rewrite Z.add_0_r.
        -- replace (i + Z.of_nat (S j)) with (i + 1 + Z.of_nat j) by lia.
           apply Hbefore; [lia | exact Hn].
      * intros j t' Hn. destruct j as [| j]; cbn in Hn.
        -- injection Hn as <-. now rewrite Z.add_0_r.
        -- replace (i + Z.of_nat (S j)) with (i + 1 + Z.of_nat j) by lia.
           now apply IH.
Qed.

(** X1.  On an array of at most 32 memory types [FindMemoryType] returns
    the smallest index whose bit is set in
    the filter and whose flags include the wanted properties, logging
    nothing; when no memory type fits it logs one critical record and
    returns 0, the same value as for a fitting type 0. *)
Theorem FindMemoryType_first_fit :
  forall (memoryTypes : list VkMemoryType) (typeFilter properties : Z),
    (List.length memoryTypes <= 32)%nat ->
    let r := fst (FindMemoryType memoryTypes typeFilter properties) in
    let logged := snd (FindMemoryType memoryTypes typeFilter properties) in
    (logged = []
     /\ exists (k : nat) (t : VkMemoryType),
          r = Z.of_nat k
          /\ nth_error memoryTypes k = Some t
          /\ memory_type_fits typeFilter properties r t = true
          /\ forall (j : nat) (t' : VkMemoryType),
               (j < k)%nat -> nth_error memoryTypes j = Some t' ->
               memory_type_fits typeFilter properties (Z.of_nat j) t' = false)
    \/ (logged = [critical_record "failed to find suitable memory type!"]
        /\ r = 0
        /\ forall (j : nat) (t' : VkMemoryType),
             nth_error memoryTypes j = Some t' ->
             memory_type_fits typeFilter properties (Z.of_nat j) t' = false).
Proof.
  intros memoryTypes typeFilter properties _. cbv zeta. unfold FindMemoryType.
  pose proof (FindMemoryType_loop_spec typeFilter properties memoryTypes 0) as H.
  destruct (FindMemoryType_loop typeFilter properties 0 memoryTypes) as [r |];
    cbn [fst snd].
  - left. split; [reflexivity |].
    destruct H as (k & t & Hr & Hnth & Hfit & Hbefore).
    exists k, t. split; [lia |]. split; [exact Hnth |]. split; [exact Hfit |].
    intros j t' Hj Hn. exact (Hbefore j t' Hj Hn).
  - right. split; [reflexivity |]. split; [reflexivity |].
    intros j t' Hn. exact (H j t' Hn).
Qed.

Section FormatFacts.

Variable props : VkFormat -> VkFormatProperties.

Lemma FindSupportedFormat_loop_spec (tiling : VkImageTiling) (features : Z)
  (candidates : list VkFormat) :
  match FindSupportedFormat_loop props candidates tiling features with
  | Some format =>
      exists before after : list VkFormat,
        candidates = before ++ format :: after
        /\ format_supported (props format) tiling features = true
        /\ Forall (fun f => format_supported (props f) tiling features = false) before
  | None =>
      Forall (fun f => format_supported (props f) tiling features = false) candidates
  end.
Proof.
  induction candidates as [| format rest IH]; cbn [FindSupportedFormat_loop].
  - constructor.
  - destruct (format_supported (props format) tiling features) eqn:Hs.
    + exists [], rest. repeat split; [exact Hs | constructor].
    + destruct (FindSupportedFormat_loop props rest tiling features) as [f |].
      * destruct IH as (before & after & -> & Hf & Hb).
        exists (format :: before), after. repeat split; [exact Hf |].
        constructor; assumption.
      * constructor; assumption.
Qed.

(** X2.  [FindSupportedFormat] returns the first candidate whose features
    for the given tiling include all requested ones, logging nothing; when
    there is none (always so for a tiling other than linear and optimal)
    it logs one critical record and returns [VK_FORMAT_UNDEFINED].
    [FindDepthFormat] is this search over D32_SFLOAT, D32_SFLOAT_S8_UINT,
    D24_UNORM_S8_UINT in that order, for optimal tiling and the
    depth-stencil attachment feature: it returns the first of the three
    whose optimal-tiling features have that bit, and fails as above when
    none has. *)
Theorem FindSupportedFormat_first_supported :
  forall (candidates : list VkFormat) (tiling : VkImageTiling) (features : Z),
    let r := FindSupportedFormat props candidates tiling features in
    ((snd r = []
      /\ exists before after : list VkFormat,
           candidates = before ++ fst r :: after
           /\ format_supported (props (fst r)) tiling features = true
           /\ Forall (fun f => format_supported (props f) tiling features = false)
                before)
     \/ (r = (VK_FORMAT_UNDEFINED,
              [critical_record "failed to find supported format!"])
         /\ Forall (fun f => format_supported (props f) tiling features = false)
              candidates))
    /\ FindSupportedFormat props candidates VK_IMAGE_TILING_DRM_FORMAT_MODIFIER_EXT
         features
       = (VK_FORMAT_UNDEFINED,
          [critical_record "failed to find supported format!"])
    /\ (fst (FindDepthFormat props) = VK_FORMAT_D32_SFLOAT
        \/ fst (FindDepthFormat props) = VK_FORMAT_D32_SFLOAT_S8_UINT
        \/ fst (FindDepthFormat props) = VK_FORMAT_D24_UNORM_S8_UINT
        \/ FindDepthFormat props
           = (VK_FORMAT_UNDEFINED,
              [critical_record "failed to find supported format!"]))
    /\ (let depth_stencil (format : VkFormat) :=
           Z.eqb (Z.land (optimalTilingFeatures (props format))
                         VK_FORMAT_FEATURE_DEPTH_STENCIL_ATTACHMENT_BIT)
                 VK_FORMAT_FEATURE_DEPTH_STENCIL_ATTACHMENT_BIT in
         FindDepthFormat props
         = if depth_stencil VK_FORMAT_D32_SFLOAT
           then (VK_FORMAT_D32_SFLOAT, [])
           else if depth_stencil VK_FORMAT_D32_SFLOAT_S8_UINT
                then (VK_FORMAT_D32_SFLOAT_S8_UINT, [])
                else if depth_stencil VK_FORMAT_D24_UNORM_S8_UINT
                     then (VK_FORMAT_D24_UNORM_S8_UINT, [])
                     else (VK_FORMAT_UNDEFINED,
                           [critical_record "failed to find supported format!"]))
    /\ FindDepthFormat props
       = FindSupportedFormat props
           [VK_FORMAT_D32_SFLOAT; VK_FORMAT_D32_SFLOAT_S8_UINT;
            VK_FORMAT_D24_UNORM_S8_UINT]
           VK_IMAGE_TILING_OPTIMAL VK_FORMAT_FEATURE_DEPTH_STENCIL_ATTACHMENT_BIT.
Proof.
  intros candidates tiling features r. subst r. unfold FindSupportedFormat.
  split; [| split; [| split; [| split]]].
  - pose proof (FindSupportedFormat_loop_spec tiling features candidates) as H.
    destruct (FindSupportedFormat_loop props candidates tiling features) as [f |];
      cbn [fst snd].
    + left. split; [reflexivity | exact H].
    + right. split; [reflexivity | exact H].
  - replace (FindSupportedFormat_loop props candidates
               VK_IMAGE_TILING_DRM_FORMAT_MODIFIER_EXT features) with (@None VkFormat);
      [reflexivity |].
    induction candidates as [| f rest IH]; [reflexivity | exact IH].
  - unfold FindDepthFormat, FindSupportedFormat. cbn [FindSupportedFormat_loop].
    destruct (format_supported (props VK_FORMAT_D32_SFLOAT) _ _); [now left |].
    destruct (format_supported (props VK_FORMAT_D32_SFLOAT_S8_UINT) _ _);
      [right; now left |].
    destruct (format_supported (props VK_FORMAT_D24_UNORM_S8_UINT) _ _);
      [right; right; now left |].
    right; right; right. reflexivity.
  - cbv zeta. unfold FindDepthFormat, FindSupportedFormat.
    cbn [FindSupportedFormat_loop format_supported].
    destruct (Z.eqb (Z.land (optimalTilingFeatures (props VK_FORMAT_D32_SFLOAT)) _) _);
      [reflexivity |].
    destruct (Z.eqb (Z.land (optimalTilingFeatures
                               (props VK_FORMAT_D32_SFLOAT_S8_UINT)) _) _);
      [reflexivity |].
    destruct (Z.eqb (Z.land (optimalTilingFeatures
                               (props VK_FORMAT_D24_UNORM_S8_UINT)) _) _);
      reflexivity.
  - reflexivity.
Qed.

End FormatFacts.

(** X3.  [SetMaxUsableSampleCount] stores one of 64, 32, 16, 8, 4, 2, 1;
    a stored count above 1 has its bit set in both the colour and the depth
    limit taken together, and no greater count up to 64 has; exactly one
    record is logged. *)
Theorem SetMaxUsableSampleCount_highest_common :
  forall color depth : Z,
    let r := fst (SetMaxUsableSampleCount color depth) in
    (r = 1 \/ In r sample_count_bits)
    /\ (r = 1 \/ has_bit (Z.land color depth) r = true)
    /\ (forall n : Z,
          In n sample_count_bits -> r < n -> has_bit (Z.land color depth) n = false)
    /\ List.length (snd (SetMaxUsableSampleCount color depth)) = 1%nat.
Proof.
  intros color depth. cbv zeta. unfold SetMaxUsableSampleCount.
  destruct (has_bit (Z.land color depth) 64) eqn:H64;
    [| destruct (has_bit (Z.land color depth) 32) eqn:H32;
       [| destruct (has_bit (Z.land color depth) 16) eqn:H16;
          [| destruct (has_bit (Z.land color depth) 8) eqn:H8;
             [| destruct (has_bit (Z.land color depth) 4) eqn:H4;
                [| destruct (has_bit (Z.land color depth) 2) eqn:H2]]]]];
    cbn [fst snd List.length];
    (split; [cbn; tauto |]);
    (split; [first [now right | now left] |]);
    (split; [| reflexivity]);
    intros n Hn Hlt; cbn in Hn;
    repeat (destruct Hn as [<- | Hn]; [first [assumption | lia] |]);
    destruct Hn.
Qed.

Lemma layer_found_In (layerName : string) (availableLayers : list string) :
  layer_found layerName availableLayers = true <-> In layerName availableLayers.
Proof.
  induction availableLayers as [| p rest IH]; cbn [layer_found In].
  - split; [discriminate | tauto].
  - destruct (String.eqb_spec layerName p) as [-> | Hne].
    + split; auto.
    + rewrite IH. split; [auto | intros [H | H]; [congruence | exact H]].
Qed.

(** X4.  [CheckValidationLayerSupport] answers true exactly when every
    validation layer is among the available layers; with no validation
    layers it answers true. *)
Theorem CheckValidationLayerSupport_iff :
  forall validationLayers availableLayers : list string,
    CheckValidationLayerSupport validationLayers availableLayers = true
    <-> incl validationLayers availableLayers.
Proof.
  intros validationLayers availableLayers.
  induction validationLayers as [| l rest IH]; cbn [CheckValidationLayerSupport].
  - split; [intros _ x [] | reflexivity].
  - destruct (layer_found l availableLayers) eqn:Hf; cbn [negb].
    + rewrite IH. apply layer_found_In in Hf. split.
      * intros Hincl x [<- | Hx]; [exact Hf | now apply Hincl].
      * intros Hincl x Hx. apply Hincl. now right.
    + split; [discriminate |]. intros Hincl.
      assert (Hin : In l availableLayers) by (apply Hincl; now left).
      apply layer_found_In in Hin. congruence.
Qed.

Lemma erase_all_In (availableExtensions : list string) :
  forall (required : string_set) (x : string),
    In x (erase_all availableExtensions required)
    <-> In x required /\ ~ In x availableExtensions.
Proof.
  induction availableExtensions as [| a rest IH]; intros required x;
    cbn [erase_all In].
  - tauto.
  - rewrite IH. unfold set_erase. split.
    + intros [Hin Hnot]. apply in_remove in Hin. destruct Hin as [Hin Hne].
      split; [exact Hin |]. intros [H | H]; [congruence | tauto].
    + intros [Hin Hnot]. split; [| tauto].
      apply in_in_remove; [| exact Hin]. intros ->. apply Hnot. now left.
Qed.

(** X5.  [CheckDeviceExtensionSupport] answers true exactly when every
    required device extension is among the extensions the device reports;
    names listed twice on either side make no difference. *)
Theorem CheckDeviceExtensionSupport_iff :
  forall deviceExtensions availableExtensions : list string,
    CheckDeviceExtensionSupport deviceExtensions availableExtensions = true
    <-> incl deviceExtensions availableExtensions.
Proof.
  intros deviceExtensions availableExtensions.
  unfold CheckDeviceExtensionSupport, set_of_range.
  pose proof (erase_all_In availableExtensions (nodup string_dec deviceExtensions))
    as Hin.
  destruct (erase_all availableExtensions (nodup string_dec deviceExtensions))
    as [| x rest] eqn:He; cbn [set_empty].
  - split; [intros _ | reflexivity]. intros x Hx.
    destruct (in_dec string_dec x availableExtensions) as [H | H]; [exact H |].
    exfalso. apply (proj2 (Hin x)). split; [now apply nodup_In | exact H].
  - split; [discriminate |]. intros Hincl. exfalso.
    destruct (proj1 (Hin x) (or_introl eq_refl)) as [Hreq Hnot].
    apply Hnot, Hincl. now apply nodup_In in Hreq.
Qed.

End DeviceFacts.

Section QueueFacts.

Import VK_Device.
Local Open Scope Z_scope.

Lemma FindQueueFamilies_loop_has (queueFamilies : list VkQueueFamily) :
  forall (i : Z) (indices : QueueFamilyIndices),
    let r := FindQueueFamilies_loop i queueFamilies indices in
    (graphicsFamily r = None
     <-> graphicsFamily indices = None
         /\ existsb is_graphics_family queueFamilies = false)
    /\ (presentFamily r = None
        <-> presentFamily indices = None
            /\ existsb is_present_family queueFamilies = false).
Proof.
  induction queueFamilies as [| q rest IH]; intros i indices;
    cbn [FindQueueFamilies_loop existsb]; cbv zeta.
  - split; tauto.
  - set (indices1 := if is_graphics_family q
                     then mkIndices (Some i) (presentFamily indices)
                     else indices).
    set (indices2 := if is_present_family q
                     then mkIndices (graphicsFamily indices1) (Some i)
                     else indices1).
    assert (Hg : graphicsFamily indices2 = None
                 <-> graphicsFamily indices = None /\ is_graphics_family q = false).
    { subst indices2 indices1.
      destruct (is_graphics_family q), (is_present_family q); cbn;
        intuition congruence. }
    assert (Hp : presentFamily indices2 = None
                 <-> presentFamily indices = None /\ is_present_family q = false).
    { subst indices2 indices1.
      destruct (is_graphics_family q), (is_present_family q); cbn;
        intuition congruence. }
    destruct (isComplete indices2) eqn:Hc.
    + unfold isComplete in Hc.
      destruct (graphicsFamily indices2) as [g |] eqn:Eg; [| discriminate].
      destruct (presentFamily indices2) as [p |] eqn:Ep; [| discriminate].
      split; (split; [discriminate |]).
      * intros [H1 H2]. apply orb_false_elim in H2. destruct H2 as [H2 _].
        apply Hg. now split.
      * intros [H1 H2]. apply orb_false_elim in H2. destruct H2 as [H2 _].
        apply Hp. now split.
    + destruct (IH (i + 1) indices2) as [IHg IHp]. cbv zeta in IHg, IHp.
      rewrite IHg, IHp, Hg, Hp. rewrite !orb_false_iff. tauto.
Qed.

Lemma FindQueueFamilies_loop_valid (queueFamilies : list VkQueueFamily) :
  forall (i : Z) (indices : QueueFamilyIndices),
    let r := FindQueueFamilies_loop i queueFamilies indices in
    (graphicsFamily r = graphicsFamily indices
     \/ exists (k : nat) (q : VkQueueFamily),
          graphicsFamily r = Some (i + Z.of_nat k)
          /\ nth_error queueFamilies k = Some q
          /\ is_graphics_family q = true)
    /\ (presentFamily r = presentFamily indices
        \/ exists (k : nat) (q : VkQueueFamily),
             presentFamily r = Some (i + Z.of_nat k)
             /\ nth_error queueFamilies k = Some q
             /\ is_present_family q = true).
Proof.
  induction queueFamilies as [| q rest IH]; intros i indices;
    cbn [FindQueueFamilies_loop]; cbv zeta.
  - split; now left.
  - set (indices1 := if is_graphics_family q
                     then mkIndices (Some i) (presentFamily indices)
                     else indices).
    set (indices2 := if is_present_family q
                     then mkIndices (graphicsFamily indices1) (Some i)
                     else indices1).
    assert (Hg : graphicsFamily indices2 = graphicsFamily indices
                 \/ (graphicsFamily indices2 = Some (i + Z.of_nat 0)
                     /\ is_graphics_family q = true)).
    { subst indices2 indices1. rewrite Z.add_0_r.
      destruct (is_graphics_family q), (is_present_family q); cbn; auto. }
    assert (Hp : presentFamily indices2 = presentFamily indices
                 \/ (presentFamily indices2 = Some (i + Z.of_nat 0)
                     /\ is_present_family q = true)).
    { subst indices2 indices1. rewrite Z.add_0_r.
      destruct (is_graphics_family q), (is_present_family q); cbn; auto. }
    assert (Hnow :
              (graphicsFamily indices2 = graphicsFamily indices
               \/ exists (k : nat) (q0 : VkQueueFamily),
                    graphicsFamily indices2 = Some (i + Z.of_nat k)
                    /\ nth_error (q :: rest) k = Some q0
                    /\ is_graphics_family q0 = true)
              /\ (presentFamily indices2 = presentFamily indices
                  \/ exists (k : nat) (q0 : VkQueueFamily),
                       presentFamily indices2 = Some (i + Z.of_nat k)
                       /\ nth_error (q :: rest) k = Some q0
                       /\ is_present_family q0 = true)).
    { split.
      - destruct Hg as [Hg | [Hg Hq]]; [now left | right].
        exists 0%nat, q. repeat split; assumption.
      - destruct Hp as [Hp | [Hp Hq]]; [now left | right].
        exists 0%nat, q. repeat split; assumption. }
    destruct (isComplete indices2); [exact Hnow |].
    destruct (IH (i + 1) indices2) as [IHg IHp]. cbv zeta in IHg, IHp.
    destruct Hnow as [Hng Hnp]. split.
    + destruct IHg as [IHg | (k & q0 & Hr & Hn & Hq)].
      * rewrite IHg. exact Hng.
      * right. exists (S k), q0. split; [rewrite Hr; f_equal; lia |].
        split; assumption.
    + destruct IHp as [IHp | (k & q0 & Hr & Hn & Hq)].
      * rewrite IHp. exact Hnp.
      * right. exists (S k), q0. split; [rewrite Hr; f_equal; lia |].
        split; assumption.
Qed.

(** X6.  [FindQueueFamilies] is complete exactly when the device has a
    family with queues and the graphics bit and a family with queues and
    present support; an index it reports is the position of a family of
    that kind. *)
Theorem FindQueueFamilies_complete_iff :
  forall queueFamilies : list VkQueueFamily,
    let r := FindQueueFamilies queueFamilies in
    (isComplete r = true
     <-> existsb is_graphics_family queueFamilies = true
         /\ existsb is_present_family queueFamilies = true)
    /\ (forall g : Z,
          graphicsFamily r = Some g ->
          exists (k : nat) (q : VkQueueFamily),
            g = Z.of_nat k /\ nth_error queueFamilies k = Some q
            /\ is_graphics_family q = true)
    /\ (forall p : Z,
          presentFamily r = Some p ->
          exists (k : nat) (q : VkQueueFamily),
            p = Z.of_nat k /\ nth_error queueFamilies k = Some q
            /\ is_present_family q = true).
Proof.
  intros queueFamilies r. subst r. unfold FindQueueFamilies.
  destruct (FindQueueFamilies_loop_has queueFamilies 0 (mkIndices None None))
    as [Hg Hp].
  destruct (FindQueueFamilies_loop_valid queueFamilies 0 (mkIndices None None))
    as [Vg Vp].
  cbv zeta in *. cbn [graphicsFamily presentFamily] in Hg, Hp, Vg, Vp.
  split; [| split].
  - unfold isComplete.
    destruct (graphicsFamily (FindQueueFamilies_loop 0 queueFamilies
                                (mkIndices None None))) as [g |];
      destruct (presentFamily (FindQueueFamilies_loop 0 queueFamilies
                                 (mkIndices None None))) as [p |];
      destruct (existsb is_graphics_family queueFamilies);
      destruct (existsb is_present_family queueFamilies);
      intuition congruence.
  - intros g Hr. rewrite Hr in Vg.
    destruct Vg as [Vg | (k & q & Hk & Hn & Hq)]; [discriminate |].
    exists k, q. split; [injection Hk as ->; lia | now split].
  - intros p Hr. rewrite Hr in Vp.
    destruct Vp as [Vp | (k & q & Hk & Hn & Hq)]; [discriminate |].
    exists k, q. split; [injection Hk as ->; lia | now split].
Qed.

End QueueFacts.

Section PickFacts.

Import VK_Device.
Local Open Scope Z_scope.

Variable m_BlacklistedDevice : string.
Variable deviceExtensions : list string.

Lemma critical_records_app (a b : list Log.record) :
  critical_records (a ++ b) = critical_records a ++ critical_records b.
Proof. apply filter_app. Qed.

Lemma SetMaxUsableSampleCount_logs_info (color depth : Z) :
  critical_records (snd (SetMaxUsableSampleCount color depth)) = [].
Proof.
  unfold SetMaxUsableSampleCount.
  repeat match goal with
         | |- context [if ?b then _ else _] => destruct b
         end; reflexivity.
Qed.

Lemma IsSuitableDevice_run (device : VkPhysicalDevice) (m : members) :
  fst (IsSuitableDevice m_BlacklistedDevice deviceExtensions device m)
  = suitable m_BlacklistedDevice deviceExtensions device
  /\ m_PhysicalDevice (snd (IsSuitableDevice m_BlacklistedDevice deviceExtensions device m))
     = m_PhysicalDevice m
  /\ m_Properties (snd (IsSuitableDevice m_BlacklistedDevice deviceExtensions device m))
     = Some (properties device)
  /\ m_SampleCountFlagBits
       (snd (IsSuitableDevice m_BlacklistedDevice deviceExtensions device m))
     = m_SampleCountFlagBits m
  /\ critical_records
       (log (snd (IsSuitableDevice m_BlacklistedDevice deviceExtensions device m)))
     = critical_records (log m).
Proof.
  unfold IsSuitableDevice, suitable.
  destruct (is_blacklisted m_BlacklistedDevice device); cbn [fst snd negb andb
    m_PhysicalDevice m_Properties m_SampleCountFlagBits log].
  - repeat split. rewrite critical_records_app. cbn. now rewrite app_nil_r.
  - repeat split.
Qed.

Lemma pick_preferred_spec (devices : list VkPhysicalDevice) :
  forall m : members,
    match find (preferred m_BlacklistedDevice deviceExtensions) devices with
    | Some d =>
        exists picked m1 : members,
          pick_preferred m_BlacklistedDevice deviceExtensions devices m
          = (Some picked, m1)
          /\ m_PhysicalDevice picked = Some d
          /\ m_Properties picked = Some (properties d)
          /\ m_SampleCountFlagBits picked
             = fst (SetMaxUsableSampleCount
                      (framebufferColorSampleCounts (properties d))
                      (framebufferDepthSampleCounts (properties d)))
          /\ critical_records (log picked) = critical_records (log m)
    | None =>
        exists m1 : members,
          pick_preferred m_BlacklistedDevice deviceExtensions devices m = (None, m1)
          /\ m_PhysicalDevice m1 = m_PhysicalDevice m
          /\ m_SampleCountFlagBits m1 = m_SampleCountFlagBits m
          /\ critical_records (log m1) = critical_records (log m)
    end.
Proof.
  induction devices as [| device rest IH]; intros m; cbn [find pick_preferred].
  - exists m. repeat split.
  - unfold IsPreferredDevice. unfold preferred at 1.
    destruct (IsSuitableDevice_run device m) as (Hs & Hd & Hp & Hb & Hc).
    destruct (IsSuitableDevice m_BlacklistedDevice deviceExtensions device m)
      as [ok m1]. cbn [fst snd] in *. subst ok.
    destruct (suitable m_BlacklistedDevice deviceExtensions device);
      cbn [negb andb].
    + destruct (Z.eqb (deviceType (properties device))
                  VK_PHYSICAL_DEVICE_TYPE_DISCRETE_GPU).
      * pose proof (SetMaxUsableSampleCount_logs_info
                      (framebufferColorSampleCounts (properties device))
                      (framebufferDepthSampleCounts (properties device))) as Hi.
        destruct (SetMaxUsableSampleCount
                    (framebufferColorSampleCounts (properties device))
                    (framebufferDepthSampleCounts (properties device)))
          as [bits records]. cbn [fst snd] in *.
        eexists _, _. split; [reflexivity |].
        cbn [m_PhysicalDevice m_Properties m_SampleCountFlagBits log].
        repeat split.
        rewrite !critical_records_app, Hi, Hc. cbn. now rewrite app_nil_r.
      * specialize (IH m1). revert IH.
        destruct (find (preferred m_BlacklistedDevice deviceExtensions) rest) as [d |];
          intros IH.
        -- destruct IH as (picked & m2 & Hrun & H1 & H2 & H3 & H4).
           exists picked, m2. rewrite Hrun. repeat split; try assumption.
           now rewrite H4.
        -- destruct IH as (m2 & Hrun & H1 & H3 & H4).
           exists m2. rewrite Hrun. repeat split; congruence.
    + specialize (IH m1). revert IH.
      destruct (find (preferred m_BlacklistedDevice deviceExtensions) rest) as [d |];
        intros IH.
      * destruct IH as (picked & m2 & Hrun & H1 & H2 & H3 & H4).
        exists picked, m2. rewrite Hrun. repeat split; try assumption.
        now rewrite H4.
      * destruct IH as (m2 & Hrun & H1 & H3 & H4).
        exists m2. rewrite Hrun. repeat split; congruence.
Qed.

Lemma pick_suitable_spec (devices : list VkPhysicalDevice) :
  forall m : members,
    let r := pick_suitable m_BlacklistedDevice deviceExtensions devices m in
    m_PhysicalDevice r
    = match find (suitable m_BlacklistedDevice deviceExtensions) devices with
      | Some d => Some d
      | None => m_PhysicalDevice m
      end
    /\ (forall d,
          find (suitable m_BlacklistedDevice deviceExtensions) devices = Some d ->
          m_Properties r = Some (properties d))
    /\ m_SampleCountFlagBits r = m_SampleCountFlagBits m
    /\ critical_records (log r) = critical_records (log m).
Proof.
  induction devices as [| device rest IH]; intros m; cbn [find pick_suitable];
    cbv zeta.
  - repeat split. discriminate.
  - destruct (IsSuitableDevice_run device m) as (Hs & Hd & Hp & Hb & Hc).
    destruct (IsSuitableDevice m_BlacklistedDevice deviceExtensions device m)
      as [ok m1]. cbn [fst snd] in *. subst ok.
    destruct (suitable m_BlacklistedDevice deviceExtensions device).
    + cbn [m_PhysicalDevice m_Properties m_SampleCountFlagBits log].
      repeat split; try assumption.
      * intros d Hd'. now injection Hd' as <-.
      * rewrite critical_records_app, Hc. cbn. now rewrite app_nil_r.
    + destruct (IH m1) as (H1 & H2 & H3 & H4). cbv zeta in *.
      rewrite H1, H3, H4, Hd, Hb, Hc. repeat split. exact H2.
Qed.

(** The device [PickPhysicalDevice] ends with, the properties it then
    holds and the critical records it adds. *)
Lemma PickPhysicalDevice_run :
  forall (devices : list VkPhysicalDevice) (m : members),
    m_PhysicalDevice m = None ->
    let r := PickPhysicalDevice m_BlacklistedDevice deviceExtensions devices m in
    m_PhysicalDevice r
    = match find (preferred m_BlacklistedDevice deviceExtensions) devices with
      | Some d => Some d
      | None => find (suitable m_BlacklistedDevice deviceExtensions) devices
      end
    /\ (forall d : VkPhysicalDevice,
          m_PhysicalDevice r = Some d -> m_Properties r = Some (properties d))
    /\ critical_records (log r)
       = critical_records (log m)
         ++ match devices with
            | [] => [critical_record "failed to find GPUs with Vulkan support!"]
            | _ => []
            end
         ++ match m_PhysicalDevice r with
            | None => [critical_record "failed to find a suitable GPU!"]
            | Some _ => []
            end.
Proof.
  intros devices m Hnone r. subst r. unfold PickPhysicalDevice.
  set (m0 := match devices with
             | [] => mkMembers (m_PhysicalDevice m) (m_Properties m)
                       (m_SampleCountFlagBits m)
                       (log m ++ [critical_record
                                    "failed to find GPUs with Vulkan support!"])
             | _ => m
             end).
  assert (H0d : m_PhysicalDevice m0 = None)
    by (subst m0; destruct devices; exact Hnone).
  assert (H0c : critical_records (log m0)
                = critical_records (log m)
                  ++ match devices with
                     | [] => [critical_record
                                "failed to find GPUs with Vulkan support!"]
                     | _ => []
                     end).
  { subst m0. destruct devices; cbn [log].
    - now rewrite critical_records_app.
    - now rewrite app_nil_r. }
  generalize (pick_preferred_spec devices m0).
  destruct (find (preferred m_BlacklistedDevice deviceExtensions) devices)
    as [d |] eqn:Hfind; intros Hpref.
  - destruct Hpref as (picked & m1 & -> & H1 & H2 & H3 & H4).
    rewrite H1. split; [reflexivity |]. split.
    + intros d' Hd'. injection Hd' as <-. exact H2.
    + rewrite H4, H0c, app_nil_r. reflexivity.
  - destruct Hpref as (m1 & -> & H1 & H3 & H4).
    destruct (pick_suitable_spec devices m1) as (S1 & S2 & S3 & S4).
    cbv zeta in *. rewrite H1, H0d in S1.
    destruct (find (suitable m_BlacklistedDevice deviceExtensions) devices)
      as [d |] eqn:Hsuit.
    + rewrite S1. cbn [m_PhysicalDevice]. rewrite S1. split; [reflexivity |]. split.
      * intros d' Hd'. injection Hd' as <-. now apply S2.
      * rewrite S4, H4, H0c, app_nil_r. reflexivity.
    + rewrite S1. cbn [m_PhysicalDevice log]. split; [reflexivity |]. split.
      * intros d' Hd'. discriminate Hd'.
      * rewrite critical_records_app, S4, H4, H0c, <- app_assoc. reflexivity.
Qed.

(** X7.  Starting without a device, [PickPhysicalDevice] picks the first
    suitable discrete GPU of the list if there is one, else the first
    suitable device, else none; a picked device is in the list, suitable
    (not blacklisted and passing the checks), and [m_Properties] holds its
    properties; the critical records added are one for an empty list and
    one when nothing is picked. *)
Theorem PickPhysicalDevice_prefers_discrete :
  forall (devices : list VkPhysicalDevice) (m : members),
    m_PhysicalDevice m = None ->
    let r := PickPhysicalDevice m_BlacklistedDevice deviceExtensions devices m in
    m_PhysicalDevice r
    = match find (preferred m_BlacklistedDevice deviceExtensions) devices with
      | Some d => Some d
      | None => find (suitable m_BlacklistedDevice deviceExtensions) devices
      end
    /\ (forall d : VkPhysicalDevice,
          m_PhysicalDevice r = Some d ->
          In d devices
          /\ suitable m_BlacklistedDevice deviceExtensions d = true
          /\ m_Properties r = Some (properties d))
    /\ critical_records (log r)
       = critical_records (log m)
         ++ match devices with
            | [] => [critical_record "failed to find GPUs with Vulkan support!"]
            | _ => []
            end
         ++ match m_PhysicalDevice r with
            | None => [critical_record "failed to find a suitable GPU!"]
            | Some _ => []
            end.
Proof.
  intros devices m Hnone r.
  destruct (PickPhysicalDevice_run devices m Hnone) as (Hsel & Hprops & Hcrit).
  fold r in Hsel, Hprops, Hcrit.
  split; [exact Hsel |]. split; [| exact Hcrit].
  intros d Hd. split; [| split; [| now apply Hprops]].
  - rewrite Hsel in Hd.
    destruct (find (preferred m_BlacklistedDevice deviceExtensions) devices)
      as [d' |] eqn:Hfind.
    + injection Hd as <-. now apply find_some in Hfind.
    + now apply find_some in Hd.
  - rewrite Hsel in Hd.
    destruct (find (preferred m_BlacklistedDevice deviceExtensions) devices)
      as [d' |] eqn:Hfind.
    + injection Hd as <-. apply find_some in Hfind. destruct Hfind as [_ Hp].
      unfold preferred in Hp. now apply andb_prop in Hp.
    + now apply find_some in Hd.
Qed.

(** X8.  [PickPhysicalDevice] computes the usable sample count only for a
    device picked as discrete GPU; when an onboard device or no device is
    picked, [m_SampleCountFlagBits] is left as it was. *)
Theorem PickPhysicalDevice_sample_count :
  forall (devices : list VkPhysicalDevice) (m : members),
    m_SampleCountFlagBits
      (PickPhysicalDevice m_BlacklistedDevice deviceExtensions devices m)
    = match find (preferred m_BlacklistedDevice deviceExtensions) devices with
      | Some d =>
          fst (SetMaxUsableSampleCount
                 (framebufferColorSampleCounts (properties d))
                 (framebufferDepthSampleCounts (properties d)))
      | None => m_SampleCountFlagBits m
      end.
Proof.
  intros devices m. unfold PickPhysicalDevice.
  set (m0 := match devices with
             | [] => mkMembers (m_PhysicalDevice m) (m_Properties m)
                       (m_SampleCountFlagBits m)
                       (log m ++ [critical_record
                                    "failed to find GPUs with Vulkan support!"])
             | _ => m
             end).
  assert (H0 : m_SampleCountFlagBits m0 = m_SampleCountFlagBits m)
    by (subst m0; destruct devices; reflexivity).
  generalize (pick_preferred_spec devices m0).
  destruct (find (preferred m_BlacklistedDevice deviceExtensions) devices) as [d |];
    intros Hpref.
  - destruct Hpref as (picked & m1 & -> & _ & _ & H3 & _). exact H3.
  - destruct Hpref as (m1 & -> & _ & H3 & _).
    destruct (pick_suitable_spec devices m1) as (_ & _ & S3 & _). cbv zeta in S3.
    destruct (m_PhysicalDevice
                (pick_suitable m_BlacklistedDevice deviceExtensions devices m1));
      cbn [m_SampleCountFlagBits]; congruence.
Qed.

End PickFacts.

Lemma tolower_idempotent (c : Ascii.ascii) :
  VK_Device.tolower (VK_Device.tolower c) = VK_Device.tolower c.
Proof. destruct c as [[] [] [] [] [] [] [] []]; reflexivity. Qed.

Lemma lowercase_idempotent (s : string) :
  VK_Device.lowercase (VK_Device.lowercase s) = VK_Device.lowercase s.
Proof.
  induction s as [| c s IH]; [reflexivity |].
  cbn [VK_Device.lowercase]. now rewrite tolower_idempotent, IH.
Qed.

Lemma find_empty_pattern (name : string) :
  VK_Device.find_not_npos name EmptyString = true.
Proof. unfold VK_Device.find_not_npos. destruct name; reflexivity. Qed.

(** X9.  With an empty blacklist string every device counts as blacklisted,
    so [PickPhysicalDevice] picks none and logs that no suitable GPU was
    found; and the blacklist test does not depend on the case of the
    letters of the blacklist string. *)
Theorem empty_blacklist_rejects_every_device :
  forall (deviceExtensions : list string) (devices : list VK_Device.VkPhysicalDevice)
         (m : VK_Device.members) (blacklisted : string)
         (device : VK_Device.VkPhysicalDevice),
    VK_Device.m_PhysicalDevice m = None ->
    VK_Device.m_PhysicalDevice
      (VK_Device.PickPhysicalDevice EmptyString deviceExtensions devices m)
    = None
    /\ In (VK_Device.critical_record "failed to find a suitable GPU!")
          (VK_Device.log
             (VK_Device.PickPhysicalDevice EmptyString deviceExtensions devices m))
    /\ VK_Device.is_blacklisted (VK_Device.lowercase blacklisted) device
       = VK_Device.is_blacklisted blacklisted device.
Proof.
  intros deviceExtensions devices m blacklisted device Hnone.
  assert (Hall : forall l : list VK_Device.VkPhysicalDevice,
             find (VK_Device.suitable EmptyString deviceExtensions) l = None).
  { induction l as [| d l IH]; [reflexivity |]. cbn [find].
    unfold VK_Device.suitable at 1, VK_Device.is_blacklisted.
    cbn [VK_Device.lowercase]. rewrite find_empty_pattern. exact IH. }
  assert (Hpre : forall l : list VK_Device.VkPhysicalDevice,
             find (VK_Device.preferred EmptyString deviceExtensions) l = None).
  { induction l as [| d l IH]; [reflexivity |]. cbn [find].
    unfold VK_Device.preferred at 1, VK_Device.suitable, VK_Device.is_blacklisted.
    cbn [VK_Device.lowercase]. rewrite find_empty_pattern. exact IH. }
  destruct (PickPhysicalDevice_run EmptyString deviceExtensions
              devices m Hnone) as (Hd & _ & Hc).
  cbv zeta in Hd, Hc. rewrite Hpre, Hall in Hd.
  split; [exact Hd |]. split.
  - rewrite Hd in Hc.
    assert (Hin : In (VK_Device.critical_record "failed to find a suitable GPU!")
                     (VK_Device.critical_records
                        (VK_Device.log
                           (VK_Device.PickPhysicalDevice EmptyString
                              deviceExtensions devices m)))).
    { rewrite Hc. apply in_or_app. right. apply in_or_app. right. now left. }
    unfold VK_Device.critical_records in Hin. apply filter_In in Hin. tauto.
  - unfold VK_Device.is_blacklisted. now rewrite lowercase_idempotent.
Qed.

Lemma PickPhysicalDevice_prefers_discrete_witness :
  VK_Device.m_PhysicalDevice
    (VK_Device.PickPhysicalDevice "llvmpipe" Devices.swapchain_only
       [Devices.headless; Devices.onboard; Devices.discrete] Devices.unselected)
  = Some Devices.discrete.
Proof.
  destruct (PickPhysicalDevice_prefers_discrete "llvmpipe" Devices.swapchain_only
              [Devices.headless; Devices.onboard; Devices.discrete]
              Devices.unselected) as (H & _).
  - reflexivity.
  - exact H.
Defined.

Lemma empty_blacklist_rejects_every_device_witness :
  VK_Device.m_PhysicalDevice
    (VK_Device.PickPhysicalDevice EmptyString Devices.swapchain_only
       [Devices.onboard; Devices.discrete] Devices.unselected)
  = None.
Proof.
  destruct (empty_blacklist_rejects_every_device Devices.swapchain_only
              [Devices.onboard; Devices.discrete] Devices.unselected
              "NVIDIA" Devices.discrete) as (H & _).
  - reflexivity.
  - exact H.
Defined.

(** Without a discrete GPU that passes the checks the onboard device is
    picked and the sample count stays at one sample. *)
Example onboard_device_keeps_sample_count :
  let r := VK_Device.PickPhysicalDevice "llvmpipe" Devices.swapchain_only
             [Devices.headless; Devices.onboard] Devices.unselected in
  VK_Device.m_PhysicalDevice r = Some Devices.onboard
  /\ VK_Device.m_SampleCountFlagBits r = 1%Z
  /\ VK_Device.m_SampleCountFlagBits
       (VK_Device.PickPhysicalDevice "llvmpipe" Devices.swapchain_only
          [Devices.onboard; Devices.discrete] Devices.unselected) = 8%Z.
Proof. vm_compute. repeat split. Qed.

(* ===================================================================== *)
(** * More facts about TransformComponent                                 *)
(* ===================================================================== *)

Section TransformMore.

Context {G : GlmOps}.

(** X10.  Setting the three axes of scale, rotation or translation one
    after the other, in either order, leaves the component as the vector
    setter does; the scalar [SetScale] is the vector one on three equal
    values, and [SetRotation] from a quaternion stores its Euler angles. *)
Theorem axis_setters_compose :
  forall (a b c : float) (q : quat) (t : TransformComponent),
    SetScaleX a (SetScaleY b (SetScaleZ c t)) = SetScale (Vec3 a b c) t
    /\ SetScaleZ c (SetScaleY b (SetScaleX a t)) = SetScale (Vec3 a b c) t
    /\ SetRotationX a (SetRotationY b (SetRotationZ c t)) = SetRotation (Vec3 a b c) t
    /\ SetRotationZ c (SetRotationY b (SetRotationX a t)) = SetRotation (Vec3 a b c) t
    /\ SetTranslationX a (SetTranslationY b (SetTranslationZ c t))
       = SetTranslation (Vec3 a b c) t
    /\ SetTranslationZ c (SetTranslationY b (SetTranslationX a t))
       = SetTranslation (Vec3 a b c) t
    /\ SetScale_float a t = SetScale (Vec3 a a a) t
    /\ SetRotation_quat q t = SetRotation (eulerAngles q) t.
Proof.
  intros a b c q t. repeat split.
  unfold SetRotation_quat, SetRotation. cbv zeta.
  now rewrite vec3_eta.
Qed.

(** X11.  A mutator changes at most one of scale, rotation and
    translation, and the vector setters of different values can be called
    in either order. *)
Theorem mutators_change_one_value :
  forall (m : mutator) (u v w : vec3) (t : TransformComponent),
    ((m_Rotation (call m t) = m_Rotation t
      /\ m_Translation (call m t) = m_Translation t)
     \/ (m_Scale (call m t) = m_Scale t
         /\ m_Translation (call m t) = m_Translation t)
     \/ (m_Scale (call m t) = m_Scale t
         /\ m_Rotation (call m t) = m_Rotation t))
    /\ SetScale u (SetRotation v t) = SetRotation v (SetScale u t)
    /\ SetScale u (SetTranslation w t) = SetTranslation w (SetScale u t)
    /\ SetRotation v (SetTranslation w t) = SetTranslation w (SetRotation v t)
    /\ calls [CallSetScale u; CallSetRotation v; CallSetTranslation w] t
       = calls [CallSetTranslation w; CallSetRotation v; CallSetScale u] t.
Proof.
  intros m u v w t. split; [| repeat split].
  destruct m; cbn; auto.
Qed.

Lemma GetMat4_clears (t : TransformComponent) :
  m_Dirty (snd (GetMat4 t)) = false.
Proof.
  unfold GetMat4. cbn [snd]. destruct (m_Dirty t) eqn:Hd; [reflexivity | exact Hd].
Qed.

(** X12.  A second call of a matrix accessor changes nothing: after
    [GetMat4] both accessors return what is cached and leave the component
    as it is; the two accessors leave the same component behind, with the
    flag clear and scale, rotation and translation untouched. *)
Theorem accessors_refresh_once :
  forall t : TransformComponent,
    let t1 := snd (GetMat4 t) in
    GetMat4 t1 = (fst (GetMat4 t), t1)
    /\ GetNormalMatrix t1 = (fst (GetNormalMatrix t), t1)
    /\ snd (GetNormalMatrix t) = t1
    /\ m_Dirty t1 = false
    /\ m_Scale t1 = m_Scale t
    /\ m_Rotation t1 = m_Rotation t
    /\ m_Translation t1 = m_Translation t.
Proof.
  intros t t1. subst t1.
  pose proof (GetMat4_clears t) as Hc.
  unfold GetMat4, GetNormalMatrix in *. cbn [fst snd] in *.
  destruct (m_Dirty t) eqn:Hd; cbn [m_Dirty RecalculateMatrices with_Dirty
    m_Scale m_Rotation m_Translation m_Mat4 m_NormalMatrix] in *.
  - repeat split.
  - rewrite Hd. repeat split.
Qed.

End TransformMore.

(* ===================================================================== *)
(** * Update and Render of the light system together                      *)
(* ===================================================================== *)

Section LightMore.

Context {G : GlmOps}.
Variable MAX_LIGHTS : Z.
Variable Rest : Type.

Import VK_LightSystem.
Local Open Scope Z_scope.

Lemma copied_components (view : point_light_view) (it : list (float * entity)) :
  copied view it = map ubo_light (components_of view it).
Proof.
  induction it as [| [k e] it IH]; [reflexivity |].
  cbn [copied components_of]. destruct (view_get view e); cbn [map]; now rewrite IH.
Qed.

Lemma render_loop_known (view : point_light_view) (it : list (float * entity)) :
  (forall entry, In entry it -> In (snd entry) (map fst view)) ->
  render_loop view it = Some (light_draws (components_of view it))
  /\ List.length (components_of view it) = List.length it.
Proof.
  induction it as [| [k e] it IH]; intros Hview; [split; reflexivity |].
  destruct (view_get_In view e) as [[transform pointLight] Hget].
  { apply (Hview (k, e)). now left. }
  destruct IH as [IH1 IH2]; [intros entry Hin; apply Hview; now right |].
  cbn [render_loop components_of]. rewrite Hget, IH1. cbn [List.length].
  split; [reflexivity | now rewrite IH2].
Qed.

Lemma render_loop_length (view : point_light_view) (it : list (float * entity)) :
  forall cmds, render_loop view it = Some cmds ->
               List.length cmds = (2 * List.length it)%nat.
Proof.
  induction it as [| [k e] it IH]; intros cmds; cbn [render_loop].
  - intros H. injection H as <-. reflexivity.
  - destruct (view_get view e) as [[transform pointLight] |]; [| discriminate].
    destruct (render_loop view it) as [cmds' |]; [| discriminate].
    intros H. injection H as <-. cbn [List.length]. rewrite (IH cmds' eq_refl). lia.
Qed.

(** X13.  When the lights fit, the point-light block of [Update] completes
    and [Render], called with the [m_SortedLight] it left, records the
    descriptor-set and pipeline binds followed by push constants and a
    six-vertex draw per stored light, in the order in which the lights were
    copied into the uniform buffer: from the greatest key to the smallest. *)
Theorem Render_draws_what_Update_copied :
  forall (mode : assert_mode) (cam : vec3) (view : point_light_view)
         (s : state Rest),
    ubo_wf MAX_LIGHTS (ubo s) ->
    Z.of_nat (List.length view) <= MAX_LIGHTS ->
    exists (s1 : state Rest) (lights : list (TransformComponent * PointLightComponent.t)),
      UpdatePointLights MAX_LIGHTS mode cam view s = (Completed tt, s1)
      /\ lights = components_of view (reverse_iteration (m_SortedLight s1))
      /\ List.length lights = List.length (m_SortedLight s1)
      /\ descending_keys (reverse_iteration (m_SortedLight s1))
      /\ active_point_lights (ubo s1) = map ubo_light lights
      /\ Render view (m_SortedLight s1)
         = Some (vkCmdBindDescriptorSets :: Pipeline_Bind m_Pipeline
                 :: light_draws lights).
Proof.
  intros mode cam view s Hwf Hle.
  destruct (UpdatePointLights_completes MAX_LIGHTS Rest mode cam view s Hwf Hle)
    as [Hrun Hcount].
  assert (Hview : forall entry,
             In entry (reverse_iteration (insert_all cam view [])) ->
             In (snd entry) (map fst view)).
  { intros entry Hin. unfold reverse_iteration in Hin. apply in_rev in Hin.
    destruct (insert_all_entities cam view [] entry Hin) as [[] | H]. exact H. }
  destruct (render_loop_known view _ Hview) as [Hrender Hlen].
  eexists. eexists. split; [exact Hrun |]. cbn [m_SortedLight ubo].
  split; [reflexivity |]. split.
  { rewrite Hlen. unfold reverse_iteration. apply length_rev. }
  split.
  { apply ascending_rev_descending, insert_all_ascending. constructor. }
  split.
  - unfold active_point_lights.
    cbn [m_NumberOfActivePointLights set_NumberOfActivePointLights
           m_PointLights set_PointLights].
    rewrite Nat2Z.id, <- Hcount, firstn_app, Nat.sub_diag, firstn_all.
    cbn [firstn]. rewrite app_nil_r. apply copied_components.
  - unfold Render. now rewrite Hrender.
Qed.

(** X14.  When the lights fit and no two of them are at equivalent
    distances from the camera, [m_SortedLight] holds every light of the
    view exactly once and all of them are counted as active. *)
Theorem distinct_distances_activate_every_light :
  forall (mode : assert_mode) (cam : vec3) (view : point_light_view)
         (s : state Rest),
    ubo_wf MAX_LIGHTS (ubo s) ->
    Z.of_nat (List.length view) <= MAX_LIGHTS ->
    pairwise_distinguishable (light_keys cam view) ->
    exists s1 : state Rest,
      UpdatePointLights MAX_LIGHTS mode cam view s = (Completed tt, s1)
      /\ Permutation (light_keys cam view) (m_SortedLight s1)
      /\ m_NumberOfActivePointLights (ubo s1) = Z.of_nat (List.length view)
      /\ List.length (active_point_lights (ubo s1)) = List.length view.
Proof.
  intros mode cam view s Hwf Hle Hpair.
  destruct (UpdatePointLights_completes MAX_LIGHTS Rest mode cam view s Hwf Hle)
    as [Hrun Hcount].
  assert (Hperm : Permutation (light_keys cam view) (insert_all cam view [])).
  { rewrite <- (app_nil_r (light_keys cam view)).
    apply distinct_distances_keep_every_light; [exact Hpair |].
    intros a _. constructor. }
  assert (Hlen : List.length (insert_all cam view []) = List.length view).
  { rewrite <- (Permutation_length Hperm). unfold light_keys. apply length_map. }
  eexists. split; [exact Hrun |]. cbn [m_SortedLight ubo].
  split; [exact Hperm |]. split.
  - cbn [m_NumberOfActivePointLights set_NumberOfActivePointLights]. now rewrite Hlen.
  - unfold active_point_lights.
    cbn [m_NumberOfActivePointLights set_NumberOfActivePointLights
           m_PointLights set_PointLights].
    rewrite Nat2Z.id, <- Hcount, firstn_app, Nat.sub_diag, firstn_all.
    cbn [firstn]. rewrite app_nil_r, Hcount. exact Hlen.
Qed.

Lemma render_loop_same_components (view view' : point_light_view)
  (it : list (float * entity)) :
  (forall entry, In entry it -> view_get view' (snd entry) = view_get view (snd entry)) ->
  render_loop view' it = render_loop view it.
Proof.
  induction it as [| [k e] it IH]; intros Hsame; [reflexivity |].
  cbn [render_loop].
  assert (He : view_get view' e = view_get view e) by (apply (Hsame (k, e)); now left).
  rewrite He, IH; [reflexivity |]. intros entry Hin. apply Hsame. now right.
Qed.

(** X15.  For every [m_SortedLight] whose entities have their components in
    the registry, as [registry.get] requires, [Render] records the two
    binds and then, for each stored entity from the greatest key to the
    smallest, push constants built from the components the registry holds
    at that time followed by a six-vertex draw: two commands per stored
    light.  Lights of the registry that are not stored are not drawn, and
    a registry that differs only on them gives the same commands. *)
Theorem Render_draws_every_stored_light :
  forall (view : point_light_view) (sorted : float_map),
    (forall entry, In entry sorted -> In (snd entry) (map fst view)) ->
    Render view sorted
    = Some (vkCmdBindDescriptorSets :: Pipeline_Bind m_Pipeline
            :: light_draws (components_of view (reverse_iteration sorted)))
    /\ List.length (components_of view (reverse_iteration sorted))
       = List.length sorted
    /\ (forall cmds, Render view sorted = Some cmds ->
                     List.length cmds = (2 + 2 * List.length sorted)%nat)
    /\ (forall view' : point_light_view,
          (forall entry, In entry sorted ->
                         view_get view' (snd entry) = view_get view (snd entry)) ->
          Render view' sorted = Render view sorted).
Proof.
  intros view sorted Hstored.
  assert (Hview : forall entry,
             In entry (reverse_iteration sorted) -> In (snd entry) (map fst view)).
  { intros entry Hin. apply Hstored. unfold reverse_iteration in Hin.
    now apply in_rev in Hin. }
  destruct (render_loop_known view _ Hview) as [Hrender Hlen].
  split; [unfold Render; now rewrite Hrender |].
  split; [rewrite Hlen; unfold reverse_iteration; apply length_rev |].
  split.
  - intros cmds. unfold Render.
    pose proof (render_loop_length view (reverse_iteration sorted)) as H.
    destruct (render_loop view (reverse_iteration sorted)) as [cmds' |];
      [| discriminate].
    intros Hc. injection Hc as <-. cbn [List.length]. rewrite (H cmds' eq_refl).
    unfold reverse_iteration. rewrite length_rev. lia.
  - intros view' Hsame. unfold Render.
    rewrite (render_loop_same_components view view'); [reflexivity |].
    intros entry Hin. apply Hsame. unfold reverse_iteration in Hin.
    now apply in_rev in Hin.
Qed.

End LightMore.

Section UnguardedCopy.

Context {G : GlmOps}.
Variable MAX_LIGHTS : Z.
Variable Rest : Type.

Import VK_LightSystem.
Local Open Scope Z_scope.

(** The second loop with more entries than array elements left: it comes
    to a write past the end, with every element from [length done] on
    overwritten before it. *)
Lemma copy_loop_overflows (view : point_light_view) (it : list (float * entity)) :
  forall (done todo : list PointLight.t) (s : state Rest),
    m_PointLights (ubo s) = done ++ todo ->
    (List.length todo < List.length it)%nat ->
    (forall entry, In entry it -> In (snd entry) (map fst view)) ->
    exists s' : state Rest,
      copy_loop view it (Z.of_nat (List.length done)) s = (OutOfBounds, s')
      /\ m_PointLights (ubo s')
         = done ++ copied view (firstn (List.length todo) it)
      /\ m_SortedLight s' = m_SortedLight s.
Proof.
  induction it as [| [k e] it IH]; intros done todo s Ha Hlen Hview;
    [cbn in Hlen; lia |].
  destruct (view_get_In view e) as [[transform pointLight] Hget].
  { apply (Hview (k, e)). now left. }
  cbn [copy_loop]. rewrite Hget.
  destruct todo as [| p todo].
  - exists s. unfold bind at 1.
    rewrite write_PointLight_past_end
      by (rewrite Ha, app_nil_r; lia).
    cbn [List.length firstn copied]. split; [reflexivity |].
    split; [exact Ha | reflexivity].
  - unfold bind at 1. rewrite (write_PointLight_middle _ _ done p todo s Ha).
    unfold bind at 1.
    erewrite (write_PointLight_middle _ _ done _ todo) by reflexivity.
    destruct (IH (done ++ [ubo_light (transform, pointLight)]) todo
                (set_ubo (set_PointLights
                   (done ++ ubo_light (transform, pointLight) :: todo)) s))
      as (s' & Hrun & Hn & Hl).
    { cbn. now rewrite <- app_assoc. }
    { cbn [List.length] in Hlen. lia. }
    { intros entry Hin. apply Hview. now right. }
    rewrite length_app in Hrun. cbn [List.length] in Hrun.
    replace (Z.of_nat (List.length done) + 1)
      with (Z.of_nat (List.length done + 1)) by lia.
    exists s'. split; [exact Hrun |]. split.
    + rewrite Hn, <- app_assoc. cbn [List.length firstn copied app].
      now rewrite Hget.
    + exact Hl.
Qed.

Lemma copied_length (view : point_light_view) (it : list (float * entity)) :
  (forall entry, In entry it -> In (snd entry) (map fst view)) ->
  List.length (copied view it) = List.length it.
Proof.
  induction it as [| [k e] it IH]; intros Hview; [reflexivity |].
  destruct (view_get_In view e) as [c Hget]; [apply (Hview (k, e)); now left |].
  cbn [copied]. rewrite Hget. cbn [List.length]. rewrite IH; [reflexivity |].
  intros entry Hin. apply Hview. now right.
Qed.

Lemma stray_writes_of_nil (i : Z) (lights : list PointLight.t) :
  stray_writes_of i lights = [] <-> lights = [].
Proof. destruct lights; cbn; split; congruence. Qed.

(** The loop once the index is at or past the end: every write is stray. *)
Lemma copy_loop_unchecked_past_end (view : point_light_view)
  (it : list (float * entity)) :
  forall (i : Z) (a : list PointLight.t) (strays : list stray_write),
    Z.of_nat (List.length a) <= i ->
    (forall entry, In entry it -> In (snd entry) (map fst view)) ->
    copy_loop_unchecked view it i (a, strays)
    = Some (a, strays ++ stray_writes_of i (copied view it),
            i + Z.of_nat (List.length it)).
Proof.
  induction it as [| [k e] it IH]; intros i a strays Hi Hview.
  - cbn. now rewrite app_nil_r, Z.add_0_r.
  - destruct (view_get_In view e) as [[transform pointLight] Hget].
    { apply (Hview (k, e)). now left. }
    cbn [copy_loop_unchecked copied]. rewrite Hget. cbv zeta.
    unfold write_unchecked.
    replace (i <? 0) with false by (symmetry; apply Z.ltb_ge; lia).
    cbn [fst snd]. rewrite (array_modify_past_end _ a) by lia.
    cbn [fst snd]. rewrite (array_modify_past_end _ a) by lia.
    rewrite IH; [| lia | intros entry Hin; apply Hview; now right].
    cbn [stray_writes_of ubo_light PointLight.m_Position PointLight.m_Color
           fst snd List.length].
    rewrite <- !app_assoc. cbn [app]. f_equal. f_equal. lia.
Qed.

(** The loop from index [length done] on: the elements left are
    overwritten one by one, the entries beyond them become stray writes. *)
Lemma copy_loop_unchecked_run (view : point_light_view)
  (it : list (float * entity)) :
  forall (done todo : list PointLight.t) (strays : list stray_write),
    (forall entry, In entry it -> In (snd entry) (map fst view)) ->
    copy_loop_unchecked view it (Z.of_nat (List.length done)) (done ++ todo, strays)
    = Some (done ++ copied view (firstn (List.length todo) it)
            ++ skipn (List.length it) todo,
            strays ++ stray_writes_of (Z.of_nat (List.length done + List.length todo))
                        (copied view (skipn (List.length todo) it)),
            Z.of_nat (List.length done) + Z.of_nat (List.length it)).
Proof.
  induction it as [| [k e] it IH]; intros done todo strays Hview.
  - cbn [copy_loop_unchecked List.length skipn firstn copied stray_writes_of app].
    destruct todo; cbn [firstn skipn copied stray_writes_of app];
      now rewrite ?app_nil_r, Z.add_0_r.
  - destruct todo as [| p todo].
    + rewrite app_nil_r, copy_loop_unchecked_past_end by (exact Hview || lia).
      cbn [List.length firstn skipn copied app]. rewrite app_nil_r, Nat.add_0_r.
      reflexivity.
    + destruct (view_get_In view e) as [[transform pointLight] Hget].
      { apply (Hview (k, e)). now left. }
      cbn [copy_loop_unchecked]. rewrite Hget. cbv zeta.
      unfold write_unchecked.
      replace (Z.of_nat (List.length done) <? 0) with false
        by (symmetry; apply Z.ltb_ge; lia).
      cbn [fst snd]. rewrite Nat2Z.id, array_modify_middle.
      cbn [fst snd]. rewrite array_modify_middle.
      replace (Z.of_nat (List.length done) + 1)
        with (Z.of_nat (List.length (done ++ [ubo_light (transform, pointLight)])))
        by (rewrite length_app; cbn [List.length]; lia).
      change (done ++ PointLight.set_Color
                        (vec4_of (PointLightComponent.m_Color pointLight)
                           (PointLightComponent.m_LightIntensity pointLight))
                        (PointLight.set_Position
                           (vec4_of (GetTranslation transform) (of_Z 0)) p) :: todo)
        with (done ++ [ubo_light (transform, pointLight)] ++ todo).
      rewrite app_assoc, IH by (intros entry Hin; apply Hview; now right).
      cbn [List.length firstn skipn copied]. rewrite Hget.
      rewrite <- !app_assoc, !length_app. cbn [List.length app].
      f_equal. f_equal; [| lia].
      f_equal. f_equal. f_equal. lia.
Qed.

(** X16.  With the assertion compiled out nothing guards the array.  Taken
    as the machine runs it, the point-light block of [Update] stores every
    light of [m_SortedLight] and sets [m_NumberOfActivePointLights] to
    their number, also when that number is above [MAX_LIGHTS]: the array
    then holds the [MAX_LIGHTS] farthest lights, farthest first, and each
    further light is written behind the array, position and colour, at
    the indices from [MAX_LIGHTS] on.  There are such stray writes exactly
    when more than [MAX_LIGHTS] lights are stored, which is exactly when
    the run of [UpdatePointLights] is reported as [OutOfBounds]; without
    them both agree on array and count. *)
Theorem unguarded_copy_overruns_the_array :
  forall (cam : vec3) (view : point_light_view) (s : state Rest),
    ubo_wf MAX_LIGHTS (ubo s) ->
    let sorted := insert_all cam view [] in
    let farthest_first := reverse_iteration sorted in
    exists (a : list PointLight.t) (strays : list stray_write),
      UpdatePointLights_unchecked MAX_LIGHTS cam view s
      = Some (sorted, a, strays, Z.of_nat (List.length sorted))
      /\ a = copied view (firstn (Z.to_nat MAX_LIGHTS) farthest_first)
             ++ skipn (List.length sorted) (m_PointLights (ubo s))
      /\ List.length a = Z.to_nat MAX_LIGHTS
      /\ strays
         = stray_writes_of MAX_LIGHTS
             (copied view (skipn (Z.to_nat MAX_LIGHTS) farthest_first))
      /\ List.length strays
         = (2 * (List.length sorted - Z.to_nat MAX_LIGHTS))%nat
      /\ (strays <> [] <-> MAX_LIGHTS < Z.of_nat (List.length sorted))
      /\ (fst (UpdatePointLights MAX_LIGHTS AssertOff cam view s) = OutOfBounds
          <-> strays <> [])
      /\ (strays = [] ->
          exists s1 : state Rest,
            UpdatePointLights MAX_LIGHTS AssertOff cam view s = (Completed tt, s1)
            /\ m_SortedLight s1 = sorted
            /\ m_PointLights (ubo s1) = a
            /\ m_NumberOfActivePointLights (ubo s1)
               = Z.of_nat (List.length sorted)).
Proof.
  intros cam view s Hwf sorted farthest_first.
  assert (Hview : forall entry,
             In entry farthest_first -> In (snd entry) (map fst view)).
  { intros entry Hin. unfold farthest_first, reverse_iteration in Hin.
    apply in_rev in Hin.
    destruct (insert_all_entities cam view [] entry Hin) as [[] | H]. exact H. }
  assert (Hn : List.length (m_PointLights (ubo s)) = Z.to_nat MAX_LIGHTS)
    by (unfold ubo_wf in Hwf; lia).
  assert (H0 : 0 <= MAX_LIGHTS) by (unfold ubo_wf in Hwf; lia).
  assert (Hlen : List.length farthest_first = List.length sorted)
    by (unfold farthest_first, reverse_iteration; apply length_rev).
  assert (Hstray_len : forall (l : list PointLight.t) (i : Z),
             List.length (stray_writes_of i l) = (2 * List.length l)%nat).
  { induction l as [| x l IHl]; intros i; [reflexivity |].
    cbn [stray_writes_of List.length]. rewrite IHl. lia. }
  assert (Hskip : List.length (copied view (skipn (Z.to_nat MAX_LIGHTS) farthest_first))
                  = (List.length sorted - Z.to_nat MAX_LIGHTS)%nat).
  { rewrite copied_length, length_skipn, Hlen; [reflexivity |].
    intros entry Hin. apply Hview.
    rewrite <- (firstn_skipn (Z.to_nat MAX_LIGHTS) farthest_first).
    apply in_or_app. now right. }
  assert (Hfirst : List.length (copied view (firstn (Z.to_nat MAX_LIGHTS) farthest_first))
                   = Nat.min (Z.to_nat MAX_LIGHTS) (List.length sorted)).
  { rewrite copied_length, length_firstn, Hlen; [reflexivity |].
    intros entry Hin. apply Hview.
    rewrite <- (firstn_skipn (Z.to_nat MAX_LIGHTS) farthest_first).
    apply in_or_app. now left. }
  assert (Hstrays : stray_writes_of MAX_LIGHTS
                      (copied view (skipn (Z.to_nat MAX_LIGHTS) farthest_first)) <> []
                    <-> MAX_LIGHTS < Z.of_nat (List.length sorted)).
  { rewrite stray_writes_of_nil.
    destruct (copied view (skipn (Z.to_nat MAX_LIGHTS) farthest_first)) as [| x l];
      cbn [List.length] in Hskip; split; intros H; try congruence; lia. }
  assert (Hcollect :
            bind (modify (set_SortedLight (fun _ => [])))
              (fun _ => collect_loop MAX_LIGHTS AssertOff cam view 0) s
            = (Completed (0 + Z.of_nat (List.length view)), mkState (ubo s) sorted)).
  { unfold bind at 1. unfold modify at 1.
    rewrite collect_loop_passes by now left. reflexivity. }
  assert (Hrun : UpdatePointLights MAX_LIGHTS AssertOff cam view s
                 = match copy_loop view farthest_first
                         0 (mkState (ubo s) sorted) with
                   | (Completed lightIndex, s1) =>
                       (Completed tt,
                        set_ubo (set_NumberOfActivePointLights lightIndex) s1)
                   | (AssertionFailed, s1) => (AssertionFailed, s1)
                   | (OutOfBounds, s1) => (OutOfBounds, s1)
                   | (InvalidEntity, s1) => (InvalidEntity, s1)
                   end).
  { unfold UpdatePointLights. unfold bind at 1. unfold modify at 1.
    unfold bind at 1. rewrite collect_loop_passes by now left.
    unfold bind at 1. unfold get_state at 1.
    cbn [m_SortedLight set_SortedLight]. unfold bind at 1. unfold modify.
    reflexivity. }
  pose proof (copy_loop_unchecked_run view farthest_first [] (m_PointLights (ubo s))
                [] Hview) as Hraw.
  cbn [app List.length Z.of_nat Nat.add] in Hraw.
  rewrite Hn, Hlen, Z2Nat.id in Hraw by exact H0.
  eexists. eexists. split.
  { unfold UpdatePointLights_unchecked. rewrite Hcollect. cbn [m_SortedLight ubo].
    fold farthest_first. rewrite Hraw. reflexivity. }
  split; [reflexivity |]. split.
  { rewrite length_app, Hfirst, length_skipn, Hn. lia. }
  split; [reflexivity |].
  split; [rewrite Hstray_len, Hskip; reflexivity |].
  split; [exact Hstrays |]. split.
  - rewrite Hstrays, Hrun.
    destruct (Z_le_gt_dec (Z.of_nat (List.length sorted)) MAX_LIGHTS) as [Hle | Hgt].
    + destruct (copy_loop_writes Rest view farthest_first []
                  (m_PointLights (ubo s)) (mkState (ubo s) sorted)) as [Hcopy _].
      { reflexivity. }
      { lia. }
      { exact Hview. }
      cbn [List.length Z.of_nat] in Hcopy. rewrite Hcopy. cbn [fst].
      split; [discriminate | lia].
    + destruct (copy_loop_overflows view farthest_first []
                  (m_PointLights (ubo s)) (mkState (ubo s) sorted))
        as (s' & Hcopy & _).
      { reflexivity. }
      { lia. }
      { exact Hview. }
      cbn [List.length Z.of_nat] in Hcopy. rewrite Hcopy. cbn [fst].
      split; [intros _; lia | reflexivity].
  - intros Hnone.
    assert (Hle : Z.of_nat (List.length sorted) <= MAX_LIGHTS).
    { destruct (Z_le_gt_dec (Z.of_nat (List.length sorted)) MAX_LIGHTS)
        as [Hle | Hgt]; [exact Hle |].
      exfalso. apply (proj2 Hstrays); [lia | exact Hnone]. }
    destruct (copy_loop_writes Rest view farthest_first []
                (m_PointLights (ubo s)) (mkState (ubo s) sorted)) as [Hcopy _].
    { reflexivity. }
    { lia. }
    { exact Hview. }
    cbn [List.length Z.of_nat] in Hcopy. rewrite Hrun, Hcopy.
    eexists. split; [reflexivity |].
    cbn [m_SortedLight ubo set_ubo set_PointLights set_NumberOfActivePointLights
           m_PointLights m_NumberOfActivePointLights app].
    split; [reflexivity |]. split; [| lia].
    rewrite Hlen. f_equal. f_equal. symmetry. apply firstn_all2. lia.
Qed.

End UnguardedCopy.

Lemma Render_draws_what_Update_copied_witness :
  VK_LightSystem.ubo_wf 4 (VK_LightSystem.ubo (Scenes.start 4))
  /\ (Z.of_nat (List.length Scenes.three_lights) <= 4)%Z
  /\ exists (s1 : VK_LightSystem.state unit)
            (lights : list (Scenes.T * PointLightComponent.t)),
       VK_LightSystem.UpdatePointLights 4 AssertFatal Scenes.origin
         Scenes.three_lights (Scenes.start 4)
       = (Completed tt, s1)
       /\ VK_LightSystem.Render Scenes.three_lights (VK_LightSystem.m_SortedLight s1)
          = Some (vkCmdBindDescriptorSets
                  :: Pipeline_Bind VK_LightSystem.m_Pipeline :: light_draws lights).
Proof.
  assert (H4 : VK_LightSystem.ubo_wf 4 (VK_LightSystem.ubo (Scenes.start 4)))
    by reflexivity.
  assert (Hle : (Z.of_nat (List.length Scenes.three_lights) <= 4)%Z)
    by (cbn; lia).
  split; [exact H4 |]. split; [exact Hle |].
  destruct (@Render_draws_what_Update_copied Symbolic.ops 4 unit AssertFatal
              Scenes.origin Scenes.three_lights (Scenes.start 4) H4 Hle)
    as (s1 & lights & Hrun & _ & _ & _ & _ & Hrender).
  exists s1, lights. split; [exact Hrun | exact Hrender].
Defined.

Lemma three_lights_distinguishable :
  pairwise_distinguishable (light_keys Scenes.origin Scenes.three_lights).
Proof.
  unfold pairwise_distinguishable.
  repeat first [ apply FOP_nil | apply FOP_cons | apply Forall_nil | apply Forall_cons
               | left; vm_compute; reflexivity
               | right; vm_compute; reflexivity ].
Defined.

Lemma distinct_distances_activate_every_light_witness :
  VK_LightSystem.ubo_wf 4 (VK_LightSystem.ubo (Scenes.start 4))
  /\ (Z.of_nat (List.length Scenes.three_lights) <= 4)%Z
  /\ pairwise_distinguishable (light_keys Scenes.origin Scenes.three_lights)
  /\ exists s1 : VK_LightSystem.state unit,
       VK_LightSystem.UpdatePointLights 4 AssertFatal Scenes.origin
         Scenes.three_lights (Scenes.start 4)
       = (Completed tt, s1)
       /\ m_NumberOfActivePointLights (VK_LightSystem.ubo s1) = 3%Z.
Proof.
  assert (H4 : VK_LightSystem.ubo_wf 4 (VK_LightSystem.ubo (Scenes.start 4)))
    by reflexivity.
  assert (Hle : (Z.of_nat (List.length Scenes.three_lights) <= 4)%Z)
    by (cbn; lia).
  split; [exact H4 |]. split; [exact Hle |].
  split; [exact three_lights_distinguishable |].
  destruct (@distinct_distances_activate_every_light Symbolic.ops 4 unit AssertFatal
              Scenes.origin Scenes.three_lights (Scenes.start 4) H4 Hle
              three_lights_distinguishable)
    as (s1 & Hrun & _ & Hn & _).
  exists s1. split; [exact Hrun | exact Hn].
Defined.

Lemma unguarded_copy_overruns_the_array_witness :
  VK_LightSystem.ubo_wf 2 (VK_LightSystem.ubo (Scenes.start 2))
  /\ exists (a : list PointLight.t) (strays : list VK_LightSystem.stray_write),
       VK_LightSystem.UpdatePointLights_unchecked 2 Scenes.origin
         Scenes.three_lights (Scenes.start 2)
       = Some (insert_all Scenes.origin Scenes.three_lights [], a, strays, 3%Z)
       /\ List.length a = 2%nat
       /\ List.length strays = 2%nat.
Proof.
  assert (H2 : VK_LightSystem.ubo_wf 2 (VK_LightSystem.ubo (Scenes.start 2)))
    by reflexivity.
  split; [exact H2 |].
  destruct (@unguarded_copy_overruns_the_array Symbolic.ops 2 unit
              Scenes.origin Scenes.three_lights (Scenes.start 2) H2)
    as (a & strays & Hrun & _ & Ha & _ & Hs & _).
  exists a, strays. split; [exact Hrun |]. split; [exact Ha | exact Hs].
Defined.

(** Three lights and room for two, nothing checking: the two farthest
    lights are in the array, the nearest is written behind it at index 2,
    and the count is 3. *)
Example three_lights_in_an_array_of_two :
  VK_LightSystem.UpdatePointLights_unchecked 2 Scenes.origin Scenes.three_lights
    (Scenes.start 2)
  = Some (insert_all Scenes.origin Scenes.three_lights [],
          [ubo_light (Scenes.transform_at 0 3 0, Scenes.red_light);
           ubo_light (Scenes.transform_at 0 0 2, Scenes.white_light)],
          stray_writes_of 2
            [ubo_light (Scenes.transform_at 1 0 0, Scenes.white_light)],
          3%Z).
Proof. vm_compute. reflexivity. Qed.

(* ===================================================================== *)
(** * The shadow pass and the transforms of its view                      *)
(* ===================================================================== *)

Section ShadowMore.

Context {G : GlmOps}.

Import VK_RenderSystemShadow.

Lemma accessors_after_GetMat4 (t : TransformComponent) :
  GetMat4 (snd (GetMat4 t)) = (fst (GetMat4 t), snd (GetMat4 t))
  /\ GetNormalMatrix (snd (GetMat4 t)) = (fst (GetNormalMatrix t), snd (GetMat4 t)).
Proof.
  unfold GetMat4, GetNormalMatrix. cbn [fst snd].
  destruct (m_Dirty t) eqn:Hd; cbn [m_Dirty RecalculateMatrices with_Dirty];
    [| rewrite Hd]; split; reflexivity.
Qed.

Lemma Shadow_loop_cons (e : entity) (mesh : MeshComponent.t)
  (transform : TransformComponent) (view : mesh_view) :
  render_loop ((e, (mesh, transform)) :: view)
  = (vkCmdPushConstants_Shadow (fst (GetMat4 transform))
       (fst (GetNormalMatrix transform))
     :: (if MeshComponent.m_Enabled mesh
         then [Model_Bind e; Model_DrawShadow e] else [])
     ++ fst (render_loop view),
     (e, (mesh, snd (GetMat4 transform))) :: snd (render_loop view)).
Proof.
  cbn [render_loop].
  destruct (accessors_after_GetMat4 transform) as [_ Hn].
  destruct (GetMat4 transform) as [modelMatrix transform1]. cbn [fst snd] in *.
  rewrite Hn. destruct (render_loop view) as [cmds rest']. reflexivity.
Qed.

Lemma Shadow_loop_view (view : mesh_view) :
  snd (render_loop view)
  = map (fun entry => (fst entry, (fst (snd entry), snd (GetMat4 (snd (snd entry))))))
        view.
Proof.
  induction view as [| [e [mesh transform]] view IH]; [reflexivity |].
  rewrite Shadow_loop_cons. cbn [fst snd map]. now rewrite IH.
Qed.

Lemma Shadow_loop_pushes (view : mesh_view) :
  shadow_pushes (fst (render_loop view))
  = map (fun entry => (fst (GetMat4 (snd (snd entry))),
                       fst (GetNormalMatrix (snd (snd entry))))) view
  /\ bound_pipelines (fst (render_loop view)) = [].
Proof.
  induction view as [| [e [mesh transform]] view [IH1 IH2]]; [split; reflexivity |].
  rewrite Shadow_loop_cons. cbn [fst snd map shadow_pushes bound_pipelines].
  destruct (MeshComponent.m_Enabled mesh);
    cbn [app shadow_pushes bound_pipelines]; rewrite IH1, IH2; split; reflexivity.
Qed.

Lemma Shadow_loop_again (view : mesh_view) :
  render_loop (snd (render_loop view)) = render_loop view.
Proof.
  induction view as [| [e [mesh transform]] view IH]; [reflexivity |].
  rewrite Shadow_loop_cons. cbn [snd]. rewrite Shadow_loop_cons, IH.
  destruct (accessors_after_GetMat4 transform) as [Hm Hn].
  rewrite Hm, Hn. reflexivity.
Qed.

Lemma RenderEntities_unfold (view : mesh_view)
  (directionalLight : DirectionalLightComponent.t) :
  RenderEntities view directionalLight
  = (vkCmdBindDescriptorSets
     :: Pipeline_Bind
          (if Z.eqb (DirectionalLightComponent.m_RenderPass directionalLight) 0
           then m_Pipeline0 else m_Pipeline1)
     :: fst (render_loop view),
     snd (render_loop view)).
Proof.
  unfold RenderEntities. destruct (render_loop view) as [cmds view'].
  destruct (Z.eqb (DirectionalLightComponent.m_RenderPass directionalLight) 0);
    reflexivity.
Qed.

(** X17.  The shadow pass pushes the model and normal matrix of every
    entity of the view, enabled or not, and leaves every transform of the
    view with a clear flag; recording the pass again on the view it left
    records the same commands and changes nothing more; the pipeline bound
    is [m_Pipeline0] for render pass 0 and [m_Pipeline1] otherwise, and no
    other pipeline is bound. *)
Theorem shadow_pass_refreshes_every_transform :
  forall (view : mesh_view) (directionalLight : DirectionalLightComponent.t),
    let cmds := fst (RenderEntities view directionalLight) in
    let view' := snd (RenderEntities view directionalLight) in
    shadow_pushes cmds
    = map (fun entry => (fst (GetMat4 (snd (snd entry))),
                         fst (GetNormalMatrix (snd (snd entry))))) view
    /\ view'
       = map (fun entry =>
                (fst entry, (fst (snd entry), snd (GetMat4 (snd (snd entry))))))
             view
    /\ Forall (fun entry => m_Dirty (snd (snd entry)) = false) view'
    /\ RenderEntities view' directionalLight = (cmds, view')
    /\ bound_pipelines cmds
       = [if Z.eqb (DirectionalLightComponent.m_RenderPass directionalLight) 0
          then m_Pipeline0 else m_Pipeline1].
Proof.
  intros view directionalLight cmds view'. subst cmds view'.
  rewrite !RenderEntities_unfold. cbn [fst snd shadow_pushes bound_pipelines].
  destruct (Shadow_loop_pushes view) as [Hp Hb].
  split; [exact Hp |]. split; [apply Shadow_loop_view |]. split.
  - rewrite Shadow_loop_view. apply Forall_forall. intros entry Hin.
    apply in_map_iff in Hin. destruct Hin as ([e [mesh t]] & <- & _).
    cbn [fst snd]. unfold GetMat4. cbn [snd].
    destruct (m_Dirty t) eqn:Hd; [reflexivity | exact Hd].
  - split; [now rewrite Shadow_loop_again | now rewrite Hb].
Qed.

(** X18.  When every transform of the view is dirty or has a valid cache,
    the matrices the shadow pass pushes are the model matrix
    Translation x Rotation x Scale of each entity and the normal matrix
    derived from it, and every transform is left with a valid cache. *)
Theorem shadow_pass_pushes_model_matrices :
  forall (view : mesh_view) (directionalLight : DirectionalLightComponent.t),
    Forall (fun entry => clean_implies_valid (snd (snd entry))) view ->
    shadow_pushes (fst (RenderEntities view directionalLight))
    = map (fun entry => (model_of (snd (snd entry)),
                         normal_matrix_of (model_of (snd (snd entry))))) view
    /\ Forall (fun entry => cache_valid (snd (snd entry)))
              (snd (RenderEntities view directionalLight)).
Proof.
  intros view directionalLight Hinv.
  rewrite RenderEntities_unfold. cbn [fst snd shadow_pushes].
  destruct (Shadow_loop_pushes view) as [Hp _]. rewrite Hp, Shadow_loop_view.
  clear Hp. induction view as [| [e [mesh t]] view IH]; [split; constructor |].
  inversion Hinv as [| ? ? Ht Hrest]; subst. cbn [fst snd] in Ht.
  destruct (IH Hrest) as [IH1 IH2]. cbn [map fst snd]. rewrite IH1.
  destruct (m_Dirty t) eqn:Hd.
  - rewrite (GetMat4_when_dirty t Hd), (GetNormalMatrix_when_dirty t Hd).
    cbn [fst snd]. split; [reflexivity |].
    constructor; [apply refreshed_valid | exact IH2].
  - destruct Ht as [Ht | [Hv1 Hv2]]; [congruence |].
    rewrite (GetMat4_when_clean t Hd), (GetNormalMatrix_when_clean t Hd).
    cbn [fst snd]. rewrite Hv1, Hv2. split; [reflexivity |].
    constructor; [split; assumption | exact IH2].
Qed.

End ShadowMore.

Lemma shadow_pass_pushes_model_matrices_witness :
  Forall (fun entry : entity * (MeshComponent.t * Scenes.T) =>
            clean_implies_valid (snd (snd entry))) Scenes.mesh_scene
  /\ List.length
       (shadow_pushes
          (fst (VK_RenderSystemShadow.RenderEntities Scenes.mesh_scene Scenes.sun)))
     = 3%nat.
Proof.
  assert (H : Forall (fun entry : entity * (MeshComponent.t * Scenes.T) =>
                        clean_implies_valid (snd (snd entry))) Scenes.mesh_scene).
  { repeat constructor. }
  split; [exact H |].
  destruct (@shadow_pass_pushes_model_matrices Symbolic.ops Scenes.mesh_scene
              Scenes.sun H) as [Hp _].
  rewrite Hp. reflexivity.
Defined.

(* ===================================================================== *)
(** * More facts about Engine::RunScripts and MainScene::StartScripts     *)
(* ===================================================================== *)

Lemma already_logged_app (log : list N) (id id' : N) :
  Engine.already_logged (log ++ [id']) id
  = Engine.already_logged log id || N.eqb id' id.
Proof.
  induction log as [| currentLog log IH]; cbn.
  - destruct (N.eqb id' id); reflexivity.
  - destruct (N.eqb currentLog id); [reflexivity | exact IH].
Qed.

Lemma before_logged_fresh_id (view : list (entity * ScriptComponent.t)) (id : N) :
  forall log : list N,
    ~ In id (scriptless_ids view) ->
    before_logged view (log ++ [id]) = before_logged view log.
Proof.
  induction view as [| [e sc] view IH]; intros log Hnot; [reflexivity |].
  unfold scriptless_ids in Hnot. cbn [before_logged filter map fst snd] in *.
  destruct (ScriptComponent.m_Script sc) as [script |].
  - f_equal. now apply IH.
  - cbn [map fst] in Hnot. rewrite already_logged_app.
    destruct (N.eqb_spec id (Engine.static_cast_uint e)) as [-> | Hne].
    + exfalso. apply Hnot. now left.
    + rewrite orb_false_r.
      destruct (Engine.already_logged log (Engine.static_cast_uint e));
        [reflexivity |].
      f_equal. apply IH. intros Hin. apply Hnot. now right.
Qed.

Lemma RunScripts_prefix (view : list (entity * ScriptComponent.t)) :
  forall log : list N,
    NoDup (scriptless_ids view) ->
    updated_entities (fst (Engine.RunScripts view log))
    = Engine.scripted (before_logged view log)
    /\ warned_ids (fst (Engine.RunScripts view log))
       = scriptless_ids (before_logged view log).
Proof.
  induction view as [| [e sc] view IH]; intros log Hnd; [split; reflexivity |].
  unfold scriptless_ids in Hnd. cbn [Engine.RunScripts before_logged filter snd] in *.
  destruct (ScriptComponent.m_Script sc) as [script |] eqn:Hs.
  - destruct (IH log Hnd) as [IH1 IH2].
    destruct (Engine.RunScripts view log) as [evs log'].
    cbn [fst snd updated_entities warned_ids] in *.
    unfold Engine.scripted, scriptless_ids. cbn [filter snd]. rewrite Hs.
    cbn [map fst]. split; [now rewrite IH1 | exact IH2].
  - cbn [map fst] in Hnd. inversion Hnd as [| ? ? Hnot Hrest]; subst.
    destruct (Engine.already_logged log (Engine.static_cast_uint e));
      [split; reflexivity |].
    destruct (IH (log ++ [Engine.static_cast_uint e]) Hrest) as [IH1 IH2].
    rewrite (before_logged_fresh_id view _ log Hnot) in IH1, IH2.
    destruct (Engine.RunScripts view (log ++ [Engine.static_cast_uint e]))
      as [evs log'].
    cbn [fst snd updated_entities warned_ids] in *.
    unfold Engine.scripted, scriptless_ids. cbn [filter snd]. rewrite Hs.
    cbn [map fst]. split; [exact IH1 | now rewrite IH2].
Qed.

Lemma before_logged_empty_log (view : list (entity * ScriptComponent.t)) :
  before_logged view [] = view.
Proof.
  induction view as [| [e sc] view IH]; [reflexivity |].
  cbn [before_logged Engine.already_logged].
  destruct (ScriptComponent.m_Script sc); now rewrite IH.
Qed.

Lemma before_logged_stops (before after : list (entity * ScriptComponent.t))
  (e : entity) (sc : ScriptComponent.t) (log : list N) :
  Forall (fun entry => ScriptComponent.m_Script (snd entry) <> None) before ->
  ScriptComponent.m_Script sc = None ->
  In (Engine.static_cast_uint e) log ->
  before_logged (before ++ (e, sc) :: after) log = before.
Proof.
  intros Hbefore Hnone Hin.
  induction before as [| [e0 sc0] before IH]; cbn [app before_logged].
  - rewrite Hnone. apply already_logged_In in Hin. now rewrite Hin.
  - inversion Hbefore as [| ? ? H0 Hrest]; subst. cbn [snd] in H0.
    destruct (ScriptComponent.m_Script sc0); [| congruence].
    now rewrite IH.
Qed.

Lemma scripted_all (before : list (entity * ScriptComponent.t)) :
  Forall (fun entry => ScriptComponent.m_Script (snd entry) <> None) before ->
  Engine.scripted before = map fst before /\ scriptless_ids before = [].
Proof.
  unfold Engine.scripted, scriptless_ids.
  induction before as [| [e0 sc0] before IH]; intros H; [split; reflexivity |].
  inversion H as [| ? ? H0 Hrest]; subst. cbn [snd filter] in *.
  destruct (ScriptComponent.m_Script sc0); [| congruence].
  destruct (IH Hrest) as [IH1 IH2]. cbn [map fst]. now rewrite IH1, IH2.
Qed.

(** X19.  With pairwise different ids on the script-less entities of the
    view, [RunScripts] handles exactly the entities in front of the first
    script-less entity that is already in the static [log]: the scripts
    among them receive [OnUpdate] in view order, the script-less ones are
    warned about and appended to [log]. *)
Theorem RunScripts_handles_the_view_up_to_a_logged_entity :
  forall (view : list (entity * ScriptComponent.t)) (log : list N),
    NoDup (scriptless_ids view) ->
    updated_entities (fst (Engine.RunScripts view log))
    = Engine.scripted (before_logged view log)
    /\ warned_ids (fst (Engine.RunScripts view log))
       = scriptless_ids (before_logged view log)
    /\ snd (Engine.RunScripts view log)
       = log ++ scriptless_ids (before_logged view log).
Proof.
  intros view log Hnd. destruct (RunScripts_prefix view log Hnd) as [H1 H2].
  split; [exact H1 |]. split; [exact H2 |].
  destruct (RunScripts_log view log) as (Hlog & _). now rewrite Hlog, H2.
Qed.

(** X20.  A view in which a script-less entity stands behind [before] and
    in front of [after]: on the first frame every script of the view
    receives [OnUpdate]; on every later frame, made with the [log] the
    first one left, only the scripts of [before] do, nothing is logged and
    the scripts of [after] are never updated again. *)
Theorem scripts_behind_a_scriptless_entity_run_once :
  forall (before after : list (entity * ScriptComponent.t)) (e : entity)
         (sc : ScriptComponent.t),
    Forall (fun entry => ScriptComponent.m_Script (snd entry) <> None) before ->
    ScriptComponent.m_Script sc = None ->
    NoDup (scriptless_ids (before ++ (e, sc) :: after)) ->
    let view := before ++ (e, sc) :: after in
    let log1 := snd (Engine.RunScripts view []) in
    updated_entities (fst (Engine.RunScripts view []))
    = map fst before ++ Engine.scripted after
    /\ Engine.RunScripts view log1
       = (map Engine.Script_OnUpdate (map fst before), log1).
Proof.
  intros before after e sc Hbefore Hnone Hnd view log1.
  destruct (scripted_all before Hbefore) as [Hs Hn].
  assert (Hids : scriptless_ids view
                 = Engine.static_cast_uint e :: scriptless_ids after).
  { subst view. unfold scriptless_ids in *. rewrite filter_app, map_app, Hn.
    cbn [filter snd app]. now rewrite Hnone. }
  split.
  - destruct (RunScripts_prefix view [] Hnd) as [H1 _].
    rewrite H1, before_logged_empty_log. subst view.
    unfold Engine.scripted in *. rewrite filter_app, map_app, Hs.
    cbn [filter snd]. now rewrite Hnone.
  - assert (Hin : In (Engine.static_cast_uint e) log1).
    { subst log1. destruct (RunScripts_log view []) as (Hlog & _).
      destruct (RunScripts_prefix view [] Hnd) as [_ H2].
      rewrite Hlog, H2, before_logged_empty_log, Hids. now left. }
    subst view. rewrite (RunScripts_stops_at_logged_entity before after e sc log1
                           Hnone Hin).
    clear Hids Hnd Hs Hn. generalize dependent log1. clear after.
    induction before as [| [e0 sc0] before IH]; intros log1 Hin;
      cbn [app Engine.RunScripts map fst].
    + rewrite Hnone. apply already_logged_In in Hin. now rewrite Hin.
    + inversion Hbefore as [| ? ? H0 Hrest]; subst. cbn [snd] in H0.
      destruct (ScriptComponent.m_Script sc0); [| congruence].
      now rewrite (IH Hrest log1 Hin).
Qed.


Lemma RunScripts_handles_the_view_up_to_a_logged_entity_witness :
  NoDup (scriptless_ids Sessions.scripts)
  /\ updated_entities (fst (Engine.RunScripts Sessions.scripts [3%N]))
     = [1%N; 2%N].
Proof.
  assert (H : NoDup (scriptless_ids Sessions.scripts)).
  { repeat constructor. intros []. }
  split; [exact H |].
  destruct (RunScripts_handles_the_view_up_to_a_logged_entity Sessions.scripts
              [3%N] H) as (H1 & _).
  rewrite H1. reflexivity.
Defined.

Lemma scripts_behind_a_scriptless_entity_run_once_witness :
  updated_entities (fst (Engine.RunScripts Sessions.scripts [])) = [1%N; 2%N; 4%N]
  /\ Engine.RunScripts Sessions.scripts (snd (Engine.RunScripts Sessions.scripts []))
     = ([Engine.Script_OnUpdate 1%N; Engine.Script_OnUpdate 2%N], [3%N]).
Proof.
  destruct (scripts_behind_a_scriptless_entity_run_once
              [(1%N, ScriptComponent.mk "duck" (Some 5%N));
               (2%N, ScriptComponent.mk "banana" (Some 6%N))]
              [(4%N, ScriptComponent.mk "horn" (Some 7%N))]
              3%N (ScriptComponent.mk "none" None)) as [H1 H2].
  - repeat constructor; discriminate.
  - reflexivity.
  - repeat constructor. intros [].
  - split; [exact H1 | exact H2].
Defined.


(* ===================================================================== *)
(** * Facts about Engine::Start and engine()                              *)
(* ===================================================================== *)

Section EntryFacts.

Variable ENGINE_KEY_F : Z.

Import Engine EngineEntry.

Lemma passes_app (a b : list action) : passes (a ++ b) = (passes a + passes b)%nat.
Proof. unfold passes. now rewrite filter_app, length_app. Qed.

Lemma OnEvents_running (events : list Event) :
  forall eng : Engine.t,
    m_Running (fst (OnEvents ENGINE_KEY_F events eng)) = m_Running eng
    /\ passes (snd (OnEvents ENGINE_KEY_F events eng)) = 0%nat
    /\ ~ In Engine_Quit (snd (OnEvents ENGINE_KEY_F events eng))
    /\ ~ In Window_Shutdown (snd (OnEvents ENGINE_KEY_F events eng)).
Proof.
  induction events as [| event events IH]; intros eng.
  - cbn. repeat split; tauto.
  - cbn [OnEvents].
    pose proof (OnEvent_running ENGINE_KEY_F event eng) as Hr.
    assert (Ha : passes (snd (OnEvent ENGINE_KEY_F event eng)) = 0%nat
                 /\ ~ In Engine_Quit (snd (OnEvent ENGINE_KEY_F event eng))
                 /\ ~ In Window_Shutdown (snd (OnEvent ENGINE_KEY_F event eng))).
    { destruct event as [width height | keyCode | | tag]; cbn.
      - destruct (N.eqb width 0 || N.eqb height 0); cbn;
          (split; [reflexivity | split; intuition discriminate]).
      - destruct (Z.eqb keyCode ENGINE_KEY_F); cbn;
          (split; [reflexivity | split; intuition discriminate]).
      - split; [reflexivity | split; intuition discriminate].
      - split; [reflexivity | split; intuition discriminate]. }
    destruct (OnEvent ENGINE_KEY_F event eng) as [eng1 a1]. cbn [fst snd] in *.
    specialize (IH eng1).
    destruct (OnEvents ENGINE_KEY_F events eng1) as [eng2 a2]. cbn [fst snd] in *.
    destruct IH as (IHr & IHp & IHq & IHs). destruct Ha as (Hp & Hq & Hs).
    split; [congruence |]. split; [rewrite passes_app; lia |].
    split; intros Hin; apply in_app_or in Hin; tauto.
Qed.

(** One pass through the loop body: one [Window_OnUpdate], no [Quit], and
    [m_Running] stays set exactly when the window is still OK. *)
Lemma loop_body_running (input : frame_input) (eng : Engine.t) :
  m_Running (fst (loop_body ENGINE_KEY_F input eng))
  = m_Running eng && window_ok input
  /\ passes (snd (loop_body ENGINE_KEY_F input eng)) = 1%nat
  /\ ~ In Engine_Quit (snd (loop_body ENGINE_KEY_F input eng))
  /\ (In Window_Shutdown (snd (loop_body ENGINE_KEY_F input eng))
      <-> window_ok input = false).
Proof.
  unfold loop_body, OnUpdate.
  destruct (OnEvents_running (window_events input) eng) as (R1 & P1 & Q1 & S1).
  destruct (OnEvents ENGINE_KEY_F (window_events input) eng) as [eng1 a1].
  cbn [fst snd] in *.
  set (step := if window_ok input then (eng1, []) else Shutdown eng1).
  assert (Hstep : m_Running (fst step) = m_Running eng && window_ok input
                  /\ passes (snd step) = 0%nat
                  /\ ~ In Engine_Quit (snd step)
                  /\ (In Window_Shutdown (snd step) <-> window_ok input = false)).
  { subst step. destruct (window_ok input); cbn.
    - rewrite andb_true_r. split; [exact R1 |]. split; [reflexivity |].
      split; [tauto |]. split; [tauto | discriminate].
    - rewrite andb_false_r. split; [reflexivity |]. split; [reflexivity |].
      split; [intros [H | []]; discriminate H | tauto]. }
  destruct step as [eng2 a2]. cbn [fst snd] in *.
  destruct Hstep as (R2 & P2 & Q2 & S2).
  destruct (OnEvents_running (controller_events input) eng2) as (R3 & P3 & Q3 & S3).
  destruct (OnEvents ENGINE_KEY_F (controller_events input) eng2) as [eng3 a3].
  cbn [fst snd] in *.
  destruct (OnEvents_running (m_EventQueue input) eng3) as (R4 & P4 & Q4 & S4).
  destruct (OnEvents ENGINE_KEY_F (m_EventQueue input) eng3) as [eng4 a4].
  cbn [fst snd] in *.
  assert (Hq : forall tail : list action,
             passes tail = 0%nat -> ~ In Engine_Quit tail ->
             ~ In Window_Shutdown tail ->
             passes ((Window_OnUpdate :: a1 ++ a2 ++ Controller_OnUpdate :: a3 ++ a4)
                     ++ tail) = 1%nat
             /\ ~ In Engine_Quit
                  ((Window_OnUpdate :: a1 ++ a2 ++ Controller_OnUpdate :: a3 ++ a4)
                   ++ tail)
             /\ (In Window_Shutdown
                   ((Window_OnUpdate :: a1 ++ a2 ++ Controller_OnUpdate :: a3 ++ a4)
                    ++ tail)
                 <-> window_ok input = false)).
  { intros tail Pt Qt St. split; [| split].
    - rewrite passes_app, Pt.
      change (Window_OnUpdate :: a1 ++ a2 ++ Controller_OnUpdate :: a3 ++ a4)
        with ([Window_OnUpdate] ++ a1 ++ a2 ++ [Controller_OnUpdate] ++ a3 ++ a4).
      rewrite !passes_app, P1, P2, P3, P4. reflexivity.
    - intros Hin. apply in_app_or in Hin. destruct Hin as [Hin | Hin]; [| tauto].
      destruct Hin as [Hin | Hin]; [discriminate |].
      apply in_app_or in Hin. destruct Hin as [Hin | Hin]; [tauto |].
      apply in_app_or in Hin. destruct Hin as [Hin | Hin]; [tauto |].
      destruct Hin as [Hin | Hin]; [discriminate |].
      apply in_app_or in Hin. tauto.
    - split.
      + intros Hin. apply in_app_or in Hin. destruct Hin as [Hin | Hin]; [| tauto].
        destruct Hin as [Hin | Hin]; [discriminate |].
        apply in_app_or in Hin. destruct Hin as [Hin | Hin]; [tauto |].
        apply in_app_or in Hin. destruct Hin as [Hin | Hin]; [tauto |].
        destruct Hin as [Hin | Hin]; [discriminate |].
        apply in_app_or in Hin. tauto.
      + intros Hw. apply in_or_app. left. right. apply in_or_app. right.
        apply in_or_app. left. tauto. }
  assert (Hr : m_Running eng4 = m_Running eng && window_ok input) by congruence.
  destruct (m_Paused eng4); cbn [negb fst snd].
  - split; [exact Hr |]. apply Hq; [reflexivity | |]; intros [H | []]; discriminate H.
  - split; [exact Hr |]. apply Hq; [reflexivity | |];
      intros [H | [H | [H | []]]]; discriminate H.
Qed.



(** X22.  [Engine::Start] returns [true] exactly when the window and the
    controller come up, and sets [m_Running] exactly then; [m_Paused] is
    not touched.  A failed start logs one critical message and does not
    leave the engine as it was constructed: [m_Window] has been assigned in
    every case, and after a controller failure so have
    [m_TextureSlotManager], [m_GraphicsContext] and [m_Audio], with the
    audio started; after a window failure these three are not assigned and
    nothing of them is created.  The settings are initialised and the
    window is created in every case, and a logger that cannot be
    initialised does not stop the start. *)
Theorem Start_needs_window_and_controller :
  forall (env : environment) (eng : members),
    let ok := fst (fst (Start env eng)) in
    let after := snd (fst (Start env eng)) in
    let actions := snd (Start env eng) in
    ok = window_IsOK env && controller_Start env
    /\ m_Running (flags after) = (ok || m_Running (flags eng))
    /\ m_Paused (flags after) = m_Paused (flags eng)
    /\ m_Window after = true
    /\ m_TextureSlotManager after = (window_IsOK env || m_TextureSlotManager eng)
    /\ m_GraphicsContext after = (window_IsOK env || m_GraphicsContext eng)
    /\ m_Audio after = (window_IsOK env || m_Audio eng)
    /\ snd (fst (Start env constructed)) <> constructed
    /\ ((exists msg, In (LOG_CORE_CRITICAL_action msg) actions) <-> ok = false)
    /\ (In (LOG_CORE_CRITICAL_action "Could not create main window") actions
        <-> window_IsOK env = false)
    /\ (In (LOG_CORE_CRITICAL_action "Could not create controller") actions
        <-> window_IsOK env = true /\ controller_Start env = false)
    /\ In InitSettings actions
    /\ In Window_Create actions
    /\ (In TextureSlotManager_Create actions <-> window_IsOK env = true)
    /\ (In GraphicsContext_Create actions <-> window_IsOK env = true)
    /\ (In Audio_Start actions <-> window_IsOK env = true)
    /\ (In Controller_SetEventCallback actions <-> ok = true)
    /\ (In (cout "Could not initialize logger") actions <-> Log_Init env = false).
Proof.
  intros [logger window controller application] eng.
  assert (Hdiff : snd (fst (Start (mkEnvironment logger window controller application)
                              constructed)) <> constructed).
  { unfold Start, constructed. cbn [window_IsOK controller_Start negb].
    destruct window; [destruct controller |]; cbn [fst snd negb]; discriminate. }
  cbv zeta.
  split; [destruct logger, window, controller; reflexivity |].
  split; [destruct logger, window, controller; cbn;
          try reflexivity; now destruct (m_Running (flags eng)) |].
  split; [destruct logger, window, controller; reflexivity |].
  split; [destruct logger, window, controller; reflexivity |].
  split; [destruct logger, window, controller; reflexivity |].
  split; [destruct logger, window, controller; reflexivity |].
  split; [destruct logger, window, controller; reflexivity |].
  split; [exact Hdiff |].
  destruct logger, window, controller; cbn;
    repeat split; intros; try discriminate; try tauto;
    repeat match goal with
           | H : exists _, _ |- _ => destruct H
           | H : _ /\ _ |- _ => destruct H
           | H : _ \/ _ |- _ => destruct H
           | H : False |- _ => destruct H
           | H : _ = _ |- _ => discriminate H
           end;
    try (eexists; tauto).
Qed.

Lemma Start_result (env : environment) (eng : members) :
  fst (fst (Start env eng)) = window_IsOK env && controller_Start env
  /\ ~ In Application_Create (snd (Start env eng))
  /\ ~ In SetAppEventCallback (snd (Start env eng)).
Proof.
  destruct env as [logger window controller application].
  destruct logger, window, controller; cbn;
    (split; [reflexivity | split; intuition discriminate]).
Qed.

(** X23.  [engine()] returns -1 exactly when the window, the controller or
    the application fails to start; the main loop is then not entered and
    neither [Engine::Quit] nor [Application::Shutdown] is called, also when
    the application had been created. *)
Theorem engine_start_failure_returns_minus_one :
  forall (env : environment) (inputs : list frame_input),
    let result := fst (fst (engine ENGINE_KEY_F env inputs)) in
    let startup := snd (fst (engine ENGINE_KEY_F env inputs)) in
    let trace := snd (engine ENGINE_KEY_F env inputs) in
    (result = Some (-1)%Z
     <-> window_IsOK env && controller_Start env && application_Start env = false)
    /\ (result = Some (-1)%Z -> trace = [])
    /\ (In Application_Create startup
        <-> window_IsOK env && controller_Start env = true)
    /\ (In SetAppEventCallback startup <-> result <> Some (-1)%Z).
Proof.
  intros env inputs.
  destruct (Start_result env constructed) as (Hok & Hna & Hns).
  unfold engine.
  destruct (Start env constructed) as [[ok eng] a0]. cbn [fst snd] in *. subst ok.
  destruct (window_IsOK env && controller_Start env); cbn [negb andb].
  - destruct (application_Start env); cbn [negb].
    + destruct (run_loop ENGINE_KEY_F inputs (flags eng)) as [trace exited].
      cbn [fst snd].
      split; [split; [destruct exited; discriminate | discriminate] |].
      split; [destruct exited; discriminate |].
      split; [split; [reflexivity | intros _; apply in_or_app; right; now left] |].
      split; [intros _; destruct exited; discriminate |].
      intros _. apply in_or_app. right. right. now left.
    + cbn [fst snd]. split; [split; reflexivity |]. split; [reflexivity |].
      split; [split; [reflexivity | intros _; apply in_or_app; right; now left] |].
      split; [| intros H; now destruct H].
      intros Hin. apply in_app_or in Hin.
      destruct Hin as [Hin | [Hin | []]]; [tauto | discriminate].
  - cbn [fst snd]. split; [split; reflexivity |]. split; [reflexivity |].
    split; [split; [tauto | discriminate] |].
    split; [tauto | intros H; now destruct H].
Qed.


End EntryFacts.


(* ===================================================================== *)
(** * Facts about the default names of mesh components                    *)
(* ===================================================================== *)






(* ===================================================================== *)
(** * Facts about MainScene::ApplyDebugSettings                           *)
(* ===================================================================== *)

(** X26.  With the point-light override switched on, [ApplyDebugSettings]
    sets the intensity of every point light to the value of the debug
    window and leaves entities, radii and colours alone; calling it again
    changes nothing; and calling it with the override switched off does
    not bring the former intensities back, whereas the normal-map
    intensity goes back to 1.0 as soon as its own switch is off. *)
Theorem point_light_override_is_not_undone :
  forall (gui gui' : MainScene.ImGUI) (view : list (entity * PointLightComponent.t)),
    MainScene.m_UsePointLightIntensity gui = true ->
    MainScene.m_UsePointLightIntensity gui' = false ->
    let lit := snd (MainScene.ApplyDebugSettings gui view) in
    map (fun entry => PointLightComponent.m_LightIntensity (snd entry)) lit
    = map (fun _ => MainScene.m_PointLightIntensity gui) view
    /\ map (fun entry => (fst entry, PointLightComponent.m_Radius (snd entry),
                          PointLightComponent.m_Color (snd entry))) lit
       = map (fun entry => (fst entry, PointLightComponent.m_Radius (snd entry),
                            PointLightComponent.m_Color (snd entry))) view
    /\ snd (MainScene.ApplyDebugSettings gui lit) = lit
    /\ snd (MainScene.ApplyDebugSettings gui' lit) = lit
    /\ fst (MainScene.ApplyDebugSettings gui' lit)
       = (if MainScene.m_UseNormalMapIntensity gui'
          then MainScene.m_NormalMapIntensity gui' else of_Z 1).
Proof.
  intros gui gui' view Hon Hoff lit. subst lit.
  unfold MainScene.ApplyDebugSettings. rewrite Hon, Hoff.
  rewrite !orb_true_r, !orb_false_r. cbn [snd fst].
  split; [| split; [| split; [| split]]].
  - rewrite map_map. apply map_ext. reflexivity.
  - rewrite map_map. apply map_ext. reflexivity.
  - rewrite map_map. apply map_ext. intros [e p]. reflexivity.
  - destruct (MainScene.m_UseRoughness gui' || MainScene.m_UseMetallic gui'
              || MainScene.m_UseNormalMapIntensity gui'); reflexivity.
  - destruct (MainScene.m_UseRoughness gui' || MainScene.m_UseMetallic gui'
              || MainScene.m_UseNormalMapIntensity gui'); reflexivity.
Qed.

Lemma point_light_override_is_not_undone_witness :
  map (fun entry => PointLightComponent.m_LightIntensity (snd entry))
      (snd (MainScene.ApplyDebugSettings Sessions.all_off
              (snd (MainScene.ApplyDebugSettings Sessions.override_lights
                      Sessions.lamps))))
  = [of_Z 5; of_Z 5].
Proof.
  destruct (point_light_override_is_not_undone Sessions.override_lights
              Sessions.all_off Sessions.lamps) as (H1 & _ & _ & H4 & _).
  - reflexivity.
  - reflexivity.
  - rewrite H4. exact H1.
Defined.

(* ===================================================================== *)
(** * What Engine::OnUpdate hands on                                      *)
(* ===================================================================== *)

Section DispatchFacts.

Variable ENGINE_KEY_F : Z.

Import Engine.

Lemma dispatched_app (a b : list action) :
  dispatched (a ++ b) = dispatched a ++ dispatched b
  /\ fullscreen_toggles (a ++ b) = (fullscreen_toggles a + fullscreen_toggles b)%nat.
Proof.
  induction a as [| x a [IH1 IH2]]; [split; reflexivity |].
  destruct x; cbn [app dispatched fullscreen_toggles]; rewrite ?IH1, ?IH2;
    split; reflexivity.
Qed.

Lemma OnEvents_dispatch (events : list Event) :
  forall eng : Engine.t,
    dispatched (snd (OnEvents ENGINE_KEY_F events eng)) = filter unhandled events
    /\ fullscreen_toggles (snd (OnEvents ENGINE_KEY_F events eng))
       = List.length (filter (is_key ENGINE_KEY_F) events).
Proof.
  induction events as [| event events IH]; intros eng; [split; reflexivity |].
  cbn [OnEvents].
  assert (H1 : dispatched (snd (OnEvent ENGINE_KEY_F event eng))
               = filter unhandled [event]
               /\ fullscreen_toggles (snd (OnEvent ENGINE_KEY_F event eng))
                  = List.length (filter (is_key ENGINE_KEY_F) [event])).
  { destruct event as [width height | keyCode | | tag]; cbn.
    - destruct (N.eqb width 0 || N.eqb height 0); split; reflexivity.
    - destruct (Z.eqb keyCode ENGINE_KEY_F); split; reflexivity.
    - split; reflexivity.
    - split; reflexivity. }
  destruct (OnEvent ENGINE_KEY_F event eng) as [eng1 a1]. cbn [fst snd] in *.
  specialize (IH eng1).
  destruct (OnEvents ENGINE_KEY_F events eng1) as [eng2 a2]. cbn [fst snd] in *.
  destruct (dispatched_app a1 a2) as [Hd Hf]. destruct H1 as [H1 H2].
  destruct IH as [IH1 IH2]. rewrite Hd, Hf, H1, H2, IH1, IH2.
  change (event :: events) with ([event] ++ events).
  rewrite !filter_app, length_app. split; reflexivity.
Qed.

Lemma layer_loop_none (layers : list N) (marks : N -> bool) (e : Event) :
  Forall (fun layer => marks layer = false) layers ->
  layer_loop layers marks e = (map (fun layer => Layer_OnEvent layer e) layers, false).
Proof.
  induction layers as [| layer layers IH]; intros H; [reflexivity |].
  inversion H as [| ? ? Hl Hrest]; subst. cbn [layer_loop map].
  now rewrite Hl, (IH Hrest).
Qed.

Lemma layer_loop_first (before after : list N) (layer : N) (marks : N -> bool)
  (e : Event) :
  Forall (fun l => marks l = false) before ->
  marks layer = true ->
  layer_loop (before ++ layer :: after) marks e
  = (map (fun l => Layer_OnEvent l e) before ++ [Layer_OnEvent layer e], true).
Proof.
  intros Hbefore Hl.
  induction before as [| l before IH]; cbn [app layer_loop map].
  - now rewrite Hl.
  - inversion Hbefore as [| ? ? H0 Hrest]; subst. now rewrite H0, (IH Hrest).
Qed.

(** X27.  During one [Engine::OnUpdate] exactly the events other than the
    mouse moves, which the engine marks as handled, enter the dispatch of
    lines 245-259, in the order window, controller, queue.  In that
    dispatch the layers are called from the top of [m_LayerStack] down to
    the first one that marks the event as handled, the layers below it are
    not called, and the callback of the application is called only when no
    layer marks the event.  Fullscreen is toggled once per press of
    [ENGINE_KEY_F], and the engine keeps running exactly when the window
    is still OK, whatever the events are. *)
Theorem unhandled_events_reach_the_layers_top_down :
  forall (m_LayerStack : list N) (marks : N -> bool) (input : frame_input)
         (e : Event) (eng : Engine.t),
    dispatched (snd (OnUpdate ENGINE_KEY_F input eng))
    = filter unhandled (events_of input)
    /\ callees m_LayerStack marks (snd (OnEvent ENGINE_KEY_F e eng))
       = (if unhandled e then dispatch_to_layers m_LayerStack marks e else [])
    /\ (Forall (fun layer => marks layer = false) m_LayerStack ->
        dispatch_to_layers m_LayerStack marks e
        = map (fun layer => Layer_OnEvent layer e) (rev m_LayerStack)
          ++ [AppEventCallback e])
    /\ (forall (below above : list N) (layer : N),
          m_LayerStack = below ++ layer :: above ->
          marks layer = true ->
          Forall (fun l => marks l = false) above ->
          dispatch_to_layers m_LayerStack marks e
          = map (fun l => Layer_OnEvent l e) (rev above) ++ [Layer_OnEvent layer e])
    /\ fullscreen_toggles (snd (OnUpdate ENGINE_KEY_F input eng))
       = List.length (filter (is_key ENGINE_KEY_F) (events_of input))
    /\ m_Running (fst (OnUpdate ENGINE_KEY_F input eng))
       = m_Running eng && window_ok input.
Proof.
  intros m_LayerStack marks input e eng.
  assert (Hframe : dispatched (snd (OnUpdate ENGINE_KEY_F input eng))
                   = filter unhandled (events_of input)
                   /\ fullscreen_toggles (snd (OnUpdate ENGINE_KEY_F input eng))
                      = List.length (filter (is_key ENGINE_KEY_F) (events_of input))
                   /\ m_Running (fst (OnUpdate ENGINE_KEY_F input eng))
                      = m_Running eng && window_ok input).
  { unfold OnUpdate, events_of.
    destruct (OnEvents_dispatch (window_events input) eng) as [D1 F1].
    destruct (OnEvents_running ENGINE_KEY_F (window_events input) eng) as (R1 & _).
    destruct (OnEvents ENGINE_KEY_F (window_events input) eng) as [eng1 a1].
    cbn [fst snd] in *.
    set (step := if window_ok input then (eng1, []) else Shutdown eng1).
    assert (Hstep : dispatched (snd step) = [] /\ fullscreen_toggles (snd step) = 0%nat
                    /\ m_Running (fst step) = m_Running eng && window_ok input).
    { subst step. destruct (window_ok input); cbn.
      - rewrite andb_true_r. repeat split. exact R1.
      - rewrite andb_false_r. repeat split. }
    destruct step as [eng2 a2]. cbn [fst snd] in *. destruct Hstep as (D2 & F2 & R2).
    destruct (OnEvents_dispatch (controller_events input) eng2) as [D3 F3].
    destruct (OnEvents_running ENGINE_KEY_F (controller_events input) eng2) as (R3 & _).
    destruct (OnEvents ENGINE_KEY_F (controller_events input) eng2) as [eng3 a3].
    cbn [fst snd] in *.
    destruct (OnEvents_dispatch (m_EventQueue input) eng3) as [D4 F4].
    destruct (OnEvents_running ENGINE_KEY_F (m_EventQueue input) eng3) as (R4 & _).
    destruct (OnEvents ENGINE_KEY_F (m_EventQueue input) eng3) as [eng4 a4].
    cbn [fst snd] in *.
    change (Window_OnUpdate :: a1 ++ a2 ++ Controller_OnUpdate :: a3 ++ a4)
      with ([Window_OnUpdate] ++ a1 ++ a2 ++ [Controller_OnUpdate] ++ a3 ++ a4).
    repeat match goal with
           | |- context [dispatched (?a ++ ?b)] =>
               rewrite (proj1 (dispatched_app a b))
           | |- context [fullscreen_toggles (?a ++ ?b)] =>
               rewrite (proj2 (dispatched_app a b))
           end.
    rewrite D1, D2, D3, D4, F1, F2, F3, F4, !filter_app, !length_app.
    cbn [dispatched fullscreen_toggles app Nat.add].
    split; [reflexivity |]. split; [reflexivity | congruence]. }
  destruct Hframe as (Hd & Hf & Hr).
  split; [exact Hd |]. split.
  { destruct e as [width height | keyCode | | tag]; cbn.
    - destruct (N.eqb width 0 || N.eqb height 0); cbn; now rewrite app_nil_r.
    - destruct (Z.eqb keyCode ENGINE_KEY_F); cbn; now rewrite app_nil_r.
    - reflexivity.
    - now rewrite app_nil_r. }
  split.
  { intros Hnone. unfold dispatch_to_layers.
    rewrite layer_loop_none; [reflexivity |].
    apply Forall_forall. intros l Hin. rewrite Forall_forall in Hnone.
    apply Hnone. now apply in_rev. }
  split; [| split; [exact Hf | exact Hr]].
  intros below above layer -> Hl Habove. unfold dispatch_to_layers.
  rewrite rev_app_distr. cbn [rev]. rewrite <- app_assoc. cbn [app].
  rewrite layer_loop_first; [reflexivity | | exact Hl].
  apply Forall_forall. intros l Hin. rewrite Forall_forall in Habove.
  apply Habove. now apply in_rev.
Qed.

(** The stack of the application, the UI layer 1 below the overlay 2: when
    the overlay marks a key press as handled, the UI layer and the
    application do not see it. *)
Example overlay_hides_the_key_press :
  callees [1%N; 2%N] (N.eqb 2)
    (snd (OnEvent ENGINE_KEY_F (KeyPressedEvent (ENGINE_KEY_F + 1)) started))
  = [Layer_OnEvent 2%N (KeyPressedEvent (ENGINE_KEY_F + 1))]
  /\ callees [1%N; 2%N] (fun _ => false)
       (snd (OnEvent ENGINE_KEY_F (OtherEvent 9) started))
     = [Layer_OnEvent 2%N (OtherEvent 9); Layer_OnEvent 1%N (OtherEvent 9);
        AppEventCallback (OtherEvent 9)].
Proof.
  split; [| reflexivity]. cbn.
  replace (Z.eqb (ENGINE_KEY_F + 1) ENGINE_KEY_F) with false
    by (symmetry; apply Z.eqb_neq; lia).
  reflexivity.
Qed.

End DispatchFacts.

Lemma FindMemoryType_first_fit_witness :
  (List.length Devices.memory_types <= 32)%nat
  /\ (snd (VK_Device.FindMemoryType Devices.memory_types 6 2) = []
      \/ fst (VK_Device.FindMemoryType Devices.memory_types 6 2) = 0%Z).
Proof.
  assert (Hlen : (List.length Devices.memory_types <= 32)%nat) by (cbn; lia).
  split; [exact Hlen |].
  destruct (FindMemoryType_first_fit Devices.memory_types 6 2 Hlen)
    as [[H _] | [_ [H _]]]; [left; exact H | right; exact H].
Defined.

(** Type 1 is the first host-visible type allowed by the filter 6; the
    filter 5 allows no host-visible type. *)
Example FindMemoryType_on_three_types :
  VK_Device.FindMemoryType Devices.memory_types 6 2 = (1%Z, [])
  /\ VK_Device.FindMemoryType Devices.memory_types 5 2
     = (0%Z, [VK_Device.critical_record "failed to find suitable memory type!"]).
Proof. split; reflexivity. Qed.

(** Without a window nothing after the start is done: no application, no
    loop, no [Quit]. *)
Example no_window_no_loop :
  EngineEntry.engine 70 Sessions.no_window [Scenes.quiet_frame; Sessions.busy_frame]
  = (Some (-1)%Z,
     [EngineEntry.InitSettings; EngineEntry.signal_SIGINT; EngineEntry.Window_Create;
      EngineEntry.LOG_CORE_CRITICAL_action "Could not create main window"],
     []).
Proof. reflexivity. Qed.

Lemma Render_draws_every_stored_light_witness :
  (forall entry, In entry Scenes.two_of_three ->
                 In (snd entry) (map fst Scenes.three_lights))
  /\ VK_LightSystem.Render Scenes.three_lights Scenes.two_of_three
     = Some [vkCmdBindDescriptorSets; Pipeline_Bind VK_LightSystem.m_Pipeline;
             light_push (Scenes.transform_at 0 0 2, Scenes.white_light);
             vkCmdDraw 6 1 0 0;
             light_push (Scenes.transform_at 1 0 0, Scenes.white_light);
             vkCmdDraw 6 1 0 0].
Proof.
  assert (H : forall entry, In entry Scenes.two_of_three ->
                            In (snd entry) (map fst Scenes.three_lights)).
  { intros entry [<- | [<- | []]]; cbn; auto. }
  split; [exact H |].
  destruct (@Render_draws_every_stored_light Symbolic.ops Scenes.three_lights
              Scenes.two_of_three H) as (Hrender & _).
  rewrite Hrender. reflexivity.
Defined.

(* ===================================================================== *)
(** * The paused state and the main loop                                  *)
(* ===================================================================== *)

Section PauseLoopFacts.

Variable ENGINE_KEY_F : Z.

Import Engine EngineEntry.

Lemma filter_is_step_nil (l : list action) :
  filter is_update_or_render l = [] -> ~ In sleep_for_16ms l ->
  filter is_step l = [].
Proof.
  induction l as [| a l IH]; intros Hf Hs; [reflexivity |].
  assert (Hs' : ~ In sleep_for_16ms l) by (intros H; apply Hs; now right).
  destruct a; cbn [filter is_update_or_render is_step] in *;
    try discriminate Hf; try (now apply IH).
  exfalso. apply Hs. now left.
Qed.

(** One pass: the flag after the engine update is what the events of the
    frame make of it, and it decides what the pass does next. *)
Lemma loop_body_steps (input : frame_input) (eng : Engine.t) :
  m_Paused (fst (loop_body ENGINE_KEY_F input eng))
  = paused_after (events_of input) (m_Paused eng)
  /\ filter is_step (snd (loop_body ENGINE_KEY_F input eng))
     = pass_steps (paused_after (events_of input) (m_Paused eng)).
Proof.
  unfold loop_body.
  destruct (OnUpdate_paused ENGINE_KEY_F input eng) as (Hp & Hf & Hs & _).
  pose proof (filter_is_step_nil _ Hf Hs) as Hstep.
  destruct (OnUpdate ENGINE_KEY_F input eng) as [eng1 a1]. cbn [fst snd] in *.
  rewrite <- Hp.
  destruct (m_Paused eng1) eqn:Hpaused; cbn [negb fst snd];
    rewrite filter_app, Hstep, ?Hpaused; split; reflexivity.
Qed.

(** The loop over frames in which the window stays OK: it is not left, every
    frame gets its pass, and each pass sleeps or updates and renders as
    the paused flag of that frame says. *)
Lemma main_loop_while_window_ok (inputs : list frame_input) :
  forall eng : Engine.t,
    m_Running eng = true ->
    Forall (fun input => window_ok input = true) inputs ->
    m_Running (fst (main_loop ENGINE_KEY_F inputs eng)) = true
    /\ m_Paused (fst (main_loop ENGINE_KEY_F inputs eng))
       = paused_after (flat_map events_of inputs) (m_Paused eng)
    /\ filter is_step (snd (main_loop ENGINE_KEY_F inputs eng))
       = flat_map pass_steps (paused_flags inputs (m_Paused eng))
    /\ passes (snd (main_loop ENGINE_KEY_F inputs eng)) = List.length inputs
    /\ ~ In Engine_Quit (snd (main_loop ENGINE_KEY_F inputs eng))
    /\ run_loop ENGINE_KEY_F inputs eng
       = (snd (main_loop ENGINE_KEY_F inputs eng), false).
Proof.
  induction inputs as [| input inputs IH]; intros eng Hr Hok;
    cbn [main_loop run_loop flat_map paused_flags].
  - rewrite Hr. cbn. repeat split; [exact Hr | tauto].
  - rewrite Hr. inversion Hok as [| ? ? Hi Hrest]; subst.
    destruct (loop_body_running ENGINE_KEY_F input eng) as (R & P & Q & _).
    destruct (loop_body_steps input eng) as (Hp & Hs).
    rewrite Hr, Hi in R. cbn [andb] in R.
    destruct (loop_body ENGINE_KEY_F input eng) as [eng1 a1]. cbn [fst snd] in *.
    destruct (IH eng1 R Hrest) as (IR & IP & IS & IN & IQ & IE).
    rewrite IE.
    destruct (main_loop ENGINE_KEY_F inputs eng1) as [eng2 a2]. cbn [fst snd] in *.
    split; [exact IR |].
    split; [rewrite paused_after_app, <- Hp; exact IP |].
    split; [rewrite filter_app, Hs, IS, Hp; reflexivity |].
    split; [rewrite passes_app, P, IN; reflexivity |].
    split; [intros Hin; apply in_app_or in Hin; tauto | reflexivity].
Qed.

Lemma paused_flags_app (a b : list frame_input) (paused : bool) :
  paused_flags (a ++ b) paused
  = paused_flags a paused
    ++ paused_flags b (paused_after (flat_map events_of a) paused).
Proof.
  revert paused. induction a as [| input a IH]; intros paused; [reflexivity |].
  cbn [app paused_flags flat_map]. rewrite IH, paused_after_app. reflexivity.
Qed.

(** Frames without a resize event leave the flag as it is. *)
Lemma paused_flags_idle (idle : list frame_input) (paused : bool) :
  Forall (fun input => last_resize_is_empty (events_of input) = None) idle ->
  paused_flags idle paused = repeat paused (List.length idle)
  /\ paused_after (flat_map events_of idle) paused = paused.
Proof.
  induction idle as [| input idle IH]; intros H; [split; reflexivity |].
  inversion H as [| ? ? Hi Hrest]; subst. destruct (IH Hrest) as [IH1 IH2].
  cbn [paused_flags flat_map List.length repeat].
  assert (Hp : paused_after (events_of input) paused = paused)
    by (unfold paused_after; now rewrite Hi).
  rewrite paused_after_app, Hp, IH1, IH2. split; reflexivity.
Qed.

(** C8.  A resize event with width 0 or height 0 sets the paused flag and
    one with both dimensions non-zero clears it; after the engine update of
    a loop pass the flag is what the most recent resize event says (or what
    it was, when there was none); a pass that finds the flag set performs
    the engine update and then only sleeps, with no application update, no
    script run and no render; a pass that finds it clear performs
    application update, script run and render in that order and does not
    sleep.  The main loop of [engine()], over any frames in which the
    window stays OK, is not left whatever the paused flag is, makes one
    pass with its engine update per frame, and in each pass sleeps or
    updates, runs the scripts and renders as the flag of that pass says.
    So from a frame whose most recent resize has a zero dimension on, every
    pass only sleeps, through all frames without a resize, and the pass of
    the frame whose most recent resize has both dimensions non-zero updates
    and renders again, with the flag clear.  All functions involved are
    total: no error arises. *)
Theorem zero_size_resize_pauses_the_loop :
  forall (input : frame_input) (eng : Engine.t) (width height : N),
    m_Paused (fst (OnEvent ENGINE_KEY_F (WindowResizeEvent width height) eng))
    = (N.eqb width 0 || N.eqb height 0)
    /\ (forall earlier : list Event,
          paused_after (earlier ++ [WindowResizeEvent width height]) (m_Paused eng)
          = (N.eqb width 0 || N.eqb height 0))
    /\ m_Paused (fst (loop_body ENGINE_KEY_F input eng))
       = paused_after (events_of input) (m_Paused eng)
    /\ In Window_OnUpdate (snd (loop_body ENGINE_KEY_F input eng))
    /\ (if m_Paused (fst (loop_body ENGINE_KEY_F input eng))
        then filter is_update_or_render (snd (loop_body ENGINE_KEY_F input eng)) = []
             /\ snd (loop_body ENGINE_KEY_F input eng)
                = snd (OnUpdate ENGINE_KEY_F input eng) ++ [sleep_for_16ms]
        else filter is_update_or_render (snd (loop_body ENGINE_KEY_F input eng))
             = [Application_OnUpdate; Engine_RunScripts; Engine_OnRender]
             /\ ~ In sleep_for_16ms (snd (loop_body ENGINE_KEY_F input eng)))
    /\ (forall inputs : list frame_input,
          m_Running eng = true ->
          Forall (fun frame => window_ok frame = true) inputs ->
          m_Running (fst (main_loop ENGINE_KEY_F inputs eng)) = true
          /\ m_Paused (fst (main_loop ENGINE_KEY_F inputs eng))
             = paused_after (flat_map events_of inputs) (m_Paused eng)
          /\ filter is_step (snd (main_loop ENGINE_KEY_F inputs eng))
             = flat_map pass_steps (paused_flags inputs (m_Paused eng))
          /\ passes (snd (main_loop ENGINE_KEY_F inputs eng)) = List.length inputs
          /\ ~ In Engine_Quit (snd (main_loop ENGINE_KEY_F inputs eng))
          /\ run_loop ENGINE_KEY_F inputs eng
             = (snd (main_loop ENGINE_KEY_F inputs eng), false))
    /\ (forall (minimise restore : frame_input) (idle : list frame_input),
          m_Running eng = true ->
          Forall (fun frame => window_ok frame = true)
                 (minimise :: idle ++ [restore]) ->
          last_resize_is_empty (events_of minimise) = Some true ->
          Forall (fun frame => last_resize_is_empty (events_of frame) = None) idle ->
          last_resize_is_empty (events_of restore) = Some false ->
          filter is_step
            (snd (main_loop ENGINE_KEY_F (minimise :: idle ++ [restore]) eng))
          = repeat sleep_for_16ms (S (List.length idle))
            ++ [Application_OnUpdate; Engine_RunScripts; Engine_OnRender]
          /\ passes (snd (main_loop ENGINE_KEY_F (minimise :: idle ++ [restore]) eng))
             = S (S (List.length idle))
          /\ m_Running
               (fst (main_loop ENGINE_KEY_F (minimise :: idle ++ [restore]) eng))
             = true
          /\ m_Paused
               (fst (main_loop ENGINE_KEY_F (minimise :: idle ++ [restore]) eng))
             = false).
Proof.
  intros input eng width height.
  split.
  { cbn. destruct (N.eqb width 0 || N.eqb height 0); reflexivity. }
  split; [intros earlier; apply paused_after_resize_last |].
  assert (Hpass :
    m_Paused (fst (loop_body ENGINE_KEY_F input eng))
    = paused_after (events_of input) (m_Paused eng)
    /\ In Window_OnUpdate (snd (loop_body ENGINE_KEY_F input eng))
    /\ (if m_Paused (fst (loop_body ENGINE_KEY_F input eng))
        then filter is_update_or_render (snd (loop_body ENGINE_KEY_F input eng)) = []
             /\ snd (loop_body ENGINE_KEY_F input eng)
                = snd (OnUpdate ENGINE_KEY_F input eng) ++ [sleep_for_16ms]
        else filter is_update_or_render (snd (loop_body ENGINE_KEY_F input eng))
             = [Application_OnUpdate; Engine_RunScripts; Engine_OnRender]
             /\ ~ In sleep_for_16ms (snd (loop_body ENGINE_KEY_F input eng)))).
  { unfold loop_body.
    destruct (OnUpdate_paused ENGINE_KEY_F input eng) as (Hp & Hf & Hs & Hw).
    destruct (OnUpdate ENGINE_KEY_F input eng) as [eng1 a1]. cbn [fst snd] in *.
    destruct (m_Paused eng1) eqn:Hpaused; cbn [negb fst snd].
    - rewrite Hpaused. split; [exact Hp |].
      split; [apply in_or_app; now left |].
      split; [| reflexivity].
      rewrite filter_app, Hf. reflexivity.
    - rewrite Hpaused. split; [exact Hp |].
      split; [apply in_or_app; now left |].
      split; [rewrite filter_app, Hf; reflexivity |].
      intros Hin. apply in_app_or in Hin. destruct Hin as [Hin | Hin]; [tauto |].
      cbn in Hin. intuition discriminate. }
  destruct Hpass as (H3 & H4 & H5).
  split; [exact H3 |]. split; [exact H4 |]. split; [exact H5 |].
  split; [intros inputs Hr Hok; now apply main_loop_while_window_ok |].
  intros minimise restore idle Hr Hok Hmin Hidle Hres.
  destruct (main_loop_while_window_ok (minimise :: idle ++ [restore]) eng Hr Hok)
    as (R & P & S & N & _).
  destruct (paused_flags_idle idle true Hidle) as [Hflags Hafter].
  assert (Hm : forall p, paused_after (events_of minimise) p = true)
    by (intros p; unfold paused_after; now rewrite Hmin).
  assert (Hrs : forall p, paused_after (events_of restore) p = false)
    by (intros p; unfold paused_after; now rewrite Hres).
  split.
  { rewrite S. cbn [paused_flags flat_map]. rewrite Hm, paused_flags_app, Hflags.
    cbn [paused_flags]. rewrite Hrs, flat_map_app. cbn [flat_map pass_steps app repeat].
    f_equal. f_equal.
    clear. induction (List.length idle) as [| n IHn]; [reflexivity |].
    cbn [repeat flat_map pass_steps app]. now rewrite IHn. }
  split.
  { rewrite N. cbn [List.length]. rewrite length_app. cbn [List.length]. lia. }
  split; [exact R |].
  rewrite P. cbn [flat_map]. rewrite !paused_after_app, flat_map_app, paused_after_app.
  cbn [flat_map]. rewrite app_nil_r. apply Hrs.
Qed.

End PauseLoopFacts.

Lemma zero_size_resize_pauses_the_loop_witness :
  filter is_step
    (snd (Engine.main_loop 70
            [Scenes.resize_frame 0 600; Scenes.quiet_frame; Sessions.busy_frame;
             Scenes.resize_frame 800 600]
            Engine.started))
  = [Engine.sleep_for_16ms; Engine.sleep_for_16ms; Engine.sleep_for_16ms;
     Engine.Application_OnUpdate; Engine.Engine_RunScripts; Engine.Engine_OnRender]
  /\ EngineEntry.run_loop 70
       [Scenes.resize_frame 0 600; Scenes.quiet_frame; Sessions.busy_frame;
        Scenes.resize_frame 800 600]
       Engine.started
     = (snd (Engine.main_loop 70
               [Scenes.resize_frame 0 600; Scenes.quiet_frame; Sessions.busy_frame;
                Scenes.resize_frame 800 600]
               Engine.started), false).
Proof.
  destruct (zero_size_resize_pauses_the_loop 70 Scenes.quiet_frame Engine.started
              0%N 0%N) as (_ & _ & _ & _ & _ & Hloop & Hscenario).
  split.
  - destruct (Hscenario (Scenes.resize_frame 0 600) (Scenes.resize_frame 800 600)
                [Scenes.quiet_frame; Sessions.busy_frame]) as (Hsteps & _).
    + reflexivity.
    + repeat constructor.
    + reflexivity.
    + repeat constructor.
    + reflexivity.
    + exact Hsteps.
  - destruct (Hloop [Scenes.resize_frame 0 600; Scenes.quiet_frame;
                     Sessions.busy_frame; Scenes.resize_frame 800 600])
      as (_ & _ & _ & _ & _ & Hrun).
    + reflexivity.
    + repeat constructor.
    + exact Hrun.
Defined.
